(** * GAMETRAFB: a signalised intersection micro-simulation

    Shallow embedding of the simulation core (car-following, lane change,
    road segments, signal controller, detection) and the properties the
    specification attaches to it.

    Numbers.  JavaScript numbers are idealised: the continuous physics
    (positions, speeds, accelerations, where [Math.sqrt] occurs) is carried
    out over the real numbers [R]; the signal controller and the sensors,
    which only add, multiply and compare time stamps and counts, are carried
    out over the rationals [Q] so that they evaluate.  The one place where
    the source produces [NaN] structurally (a gap computed from the absent
    [length] property of a vehicle) is modelled explicitly. *)

From Stdlib Require Import Reals Lra Lia List Bool ZArith QArith Qabs String.
Import ListNotations.

(* ------------------------------------------------------------------ *)
(** * Comparisons on reals as booleans *)

Definition Rltb (x y : R) : bool := if Rlt_dec x y then true else false.
Definition Rleb (x y : R) : bool := if Rle_dec x y then true else false.
Definition Rgtb (x y : R) : bool := Rltb y x.
Definition Rgeb (x y : R) : bool := Rleb y x.

(* ------------------------------------------------------------------ *)
(** * idmModel.js : class IDMModel *)

Module IDM.
Local Open Scope R_scope.

Record IDMModel : Type := mkIDM {
  v0 : R;            (* desired speed *)
  T : R;             (* safe time headway *)
  s0 : R;            (* minimum gap *)
  a : R;             (* maximum acceleration *)
  b : R;             (* comfortable deceleration *)
  bmax : R;          (* maximum braking deceleration *)
  driverfactor : R;  (* driver individuality *)
  speedlimit : R;
  speedmax : R;
  alpha_v0 : R;
  alpha_a : R;
  alpha_T : R
}.

(** [constructor(v0, T, s0, a, b, driverVariance)]; the value drawn from
    [Math.random()] is the explicit argument [rnd]. *)
Definition new (v0 T s0 a b driverVariance rnd : R) : IDMModel :=
  {| v0 := v0; T := T; s0 := s0; a := a; b := b;
     bmax := 4;
     driverfactor := 1 + driverVariance * (rnd - 0.5);
     speedlimit := 50;
     speedmax := 60;
     alpha_v0 := 1; alpha_a := 1; alpha_T := 1 |}.

(** [new IDMModel()] with the default arguments. *)
Definition newDefault (rnd : R) : IDMModel := new 15 1 2 2 2 0.2 rnd.

(** Local [v0eff] of [calcAccDet]:
    [Math.min(v0 * driverfactor * alpha_v0, speedlimit, speedmax)]. *)
Definition v0eff (m : IDMModel) : R :=
  Rmin (Rmin (v0 m * driverfactor m * alpha_v0 m) (speedlimit m)) (speedmax m).

(** Local [aeff] of [calcAccDet]. *)
Definition aeff (m : IDMModel) : R := a m * driverfactor m.

(** Local [accFree] of [calcAccDet]. *)
Definition accFree (m : IDMModel) (v : R) : R :=
  if Rlt_dec v (v0eff m)
  then aeff m * (1 - (v / v0eff m) ^ 4)
  else aeff m * (1 - v / v0eff m).

(** Local [sstar] of [calcAccDet]. *)
Definition sstar (m : IDMModel) (v vl : R) : R :=
  s0 m + Rmax 0 (v * T m + 0.5 * v * (v - vl) / sqrt (aeff m * b m)).

(** Local [accInt] of [calcAccDet].  The gap [s] is [None] when the caller
    passes [NaN]; every comparison with [NaN] is false, so the guard
    [s > 0 && v >= 0] fails and [accInt] keeps its initial value 0. *)
Definition accInt (m : IDMModel) (s : option R) (v vl : R) : R :=
  match s with
  | Some s =>
      if Rgtb s 0 && Rgeb v 0
      then - aeff m * (sstar m v vl / Rmax s (s0 m)) ^ 2
      else 0
  | None => 0
  end.

(** [calcAccDet(s, v, vl, al)]; [al] is accepted and not used, as in the
    source. *)
Definition calcAccDet (m : IDMModel) (s : option R) (v vl al : R) : R :=
  Rmax (- bmax m) (accFree m v + accInt m s v vl).

(** [calcAccLaneChange(s, v, vl, al, bias)]. *)
Definition calcAccLaneChange (m : IDMModel) (s : option R) (v vl al bias : R) : R :=
  let baseAcc := calcAccDet m s v vl al in
  let biasFactor := 0.5 * bias * a m in
  Rmax (- bmax m) (baseAcc + biasFactor).

(** [getSafeDistance(v)]. *)
Definition getSafeDistance (m : IDMModel) (v : R) : R := s0 m + v * T m.

(** [isSafeGap(gap, v, vOther)]. *)
Definition isSafeGap (m : IDMModel) (gap v vOther : R) : bool :=
  Rgtb gap (Rmax (getSafeDistance m v) (getSafeDistance m vOther) * 1.2).

(** [updateDriverCharacteristics()], with the random draw explicit. *)
Definition updateDriverCharacteristics (m : IDMModel) (rnd : R) : IDMModel :=
  let variation := 0.05 * (rnd - 0.5) in
  {| v0 := v0 m; T := T m; s0 := s0 m; a := a m; b := b m; bmax := bmax m;
     driverfactor := Rmax 0.7 (Rmin 1.3 (driverfactor m + variation));
     speedlimit := speedlimit m; speedmax := speedmax m;
     alpha_v0 := alpha_v0 m; alpha_a := alpha_a m; alpha_T := alpha_T m |}.

End IDM.

(* ------------------------------------------------------------------ *)
(** * Vehicle objects

    The plain objects built by [Road.createVehicle] and by [Car.update]
    (the [roadVehicle] literal).  Both carry the vehicle length under the
    property [len]; the lane-change model reads the property [length],
    which neither of them sets, so [length] is optional here and its
    absence ([undefined]) turns the gap subtraction into [NaN]. *)

Module Veh.

Record Vehicle : Type := mkVehicle {
  id : Z;
  route : option (list nat);      (* road ids still to traverse *)
  roadID : option nat;            (* set by [transferVehicle] *)
  u : R;                          (* arc-length position *)
  lane : Z;
  v : R;                          (* optical lateral position *)
  speed : R;
  acc : R;
  len : R;
  length : option R;              (* property read by MOBILModel *)
  width : R;
  type : string;
  dt_LC : R;
  dt_afterLC : R;
  fracLaneOptical : R;
  laneOld : Z;
  dvdt : R;
  idmModel : IDM.IDMModel;
  mandatoryLaneChange : bool;
  tacticalLaneChange : bool;
  (* the method [isRegularVeh], when the object has one; it reads
     [this.type] only *)
  isRegularVeh : option (string -> bool)
}.

Definition set_u (x : R) (w : Vehicle) : Vehicle :=
  mkVehicle (id w) (route w) (roadID w) x (lane w) (v w) (speed w) (acc w)
    (len w) (length w) (width w) (type w) (dt_LC w) (dt_afterLC w)
    (fracLaneOptical w) (laneOld w) (dvdt w) (idmModel w)
    (mandatoryLaneChange w) (tacticalLaneChange w) (isRegularVeh w).

Definition set_speed (x : R) (w : Vehicle) : Vehicle :=
  mkVehicle (id w) (route w) (roadID w) (u w) (lane w) (v w) x (acc w)
    (len w) (length w) (width w) (type w) (dt_LC w) (dt_afterLC w)
    (fracLaneOptical w) (laneOld w) (dvdt w) (idmModel w)
    (mandatoryLaneChange w) (tacticalLaneChange w) (isRegularVeh w).

Definition set_v_dvdt (x y : R) (w : Vehicle) : Vehicle :=
  mkVehicle (id w) (route w) (roadID w) (u w) (lane w) x (speed w) (acc w)
    (len w) (length w) (width w) (type w) (dt_LC w) (dt_afterLC w)
    (fracLaneOptical w) (laneOld w) y (idmModel w)
    (mandatoryLaneChange w) (tacticalLaneChange w) (isRegularVeh w).

Definition set_route (x : option (list nat)) (w : Vehicle) : Vehicle :=
  mkVehicle (id w) x (roadID w) (u w) (lane w) (v w) (speed w) (acc w)
    (len w) (length w) (width w) (type w) (dt_LC w) (dt_afterLC w)
    (fracLaneOptical w) (laneOld w) (dvdt w) (idmModel w)
    (mandatoryLaneChange w) (tacticalLaneChange w) (isRegularVeh w).

Definition set_roadID (x : option nat) (w : Vehicle) : Vehicle :=
  mkVehicle (id w) (route w) x (u w) (lane w) (v w) (speed w) (acc w)
    (len w) (length w) (width w) (type w) (dt_LC w) (dt_afterLC w)
    (fracLaneOptical w) (laneOld w) (dvdt w) (idmModel w)
    (mandatoryLaneChange w) (tacticalLaneChange w) (isRegularVeh w).

Definition set_mandatoryLaneChange (x : bool) (w : Vehicle) : Vehicle :=
  mkVehicle (id w) (route w) (roadID w) (u w) (lane w) (v w) (speed w) (acc w)
    (len w) (length w) (width w) (type w) (dt_LC w) (dt_afterLC w)
    (fracLaneOptical w) (laneOld w) (dvdt w) (idmModel w)
    x (tacticalLaneChange w) (isRegularVeh w).

(** The guard [veh.isRegularVeh && veh.isRegularVeh()]. *)
Definition regular (w : Vehicle) : bool :=
  match isRegularVeh w with
  | Some f => f (type w)
  | None => false
  end.

End Veh.

Abbreviation Vehicle := Veh.Vehicle.

(* ------------------------------------------------------------------ *)
(** * idmModel.js : class MOBILModel *)

Module MOBIL.
Local Open Scope R_scope.

Record MOBILModel : Type := mkMOBIL {
  p : R;            (* politeness *)
  aThr : R;         (* lane change threshold *)
  biasRight : R;
  bSafe : R;        (* safe deceleration limit *)
  gapMin : R;
  factorOther : R
}.

(** [constructor(politeness, threshold, biasRight, safeDecel)]. *)
Definition new (politeness threshold biasRight safeDecel : R) : MOBILModel :=
  {| p := politeness; aThr := threshold; biasRight := biasRight;
     bSafe := safeDecel; gapMin := 2; factorOther := 1 |}.

(** Default value of the fourth constructor argument. *)
Definition safeDecelDefault : R := 4.

Inductive Reason : Type := unsafe_follower | beneficial | insufficient_gain.

(** The object returned by [shouldChangeLanes]; the early return of the
    safety criterion leaves [incentive] and [safety] unset. *)
Record Decision : Type := mkDecision {
  shouldChange : bool;
  urgency : R;
  reason : Reason;
  incentive : option R;
  safety : option R
}.

(** [x - w.length]: [NaN] (here [None]) when the property is absent. *)
Definition minusLength (x : R) (l : option R) : option R :=
  match l with
  | Some l => Some (x - l)
  | None => None
  end.

(** [distance < minDistance], where [minDistance] starts as [Infinity]. *)
Definition belowMin (distance : R) (minDistance : option R) : bool :=
  match minDistance with
  | Some d => Rltb distance d
  | None => true
  end.

(** [findLeadingVehicle(vehicle, laneVehicles)]: the loop state is the pair
    [(leader, minDistance)]. *)
Definition findLeadingVehicle (vehicle : Vehicle) (laneVehicles : list Vehicle)
  : option Vehicle :=
  fst (fold_left
         (fun (st : option Vehicle * option R) (other : Vehicle) =>
            if negb (Z.eqb (Veh.id other) (Veh.id vehicle))
               && Rgtb (Veh.u other) (Veh.u vehicle)
            then
              let distance := Veh.u other - Veh.u vehicle in
              if belowMin distance (snd st)
              then (Some other, Some distance)
              else st
            else st)
         laneVehicles (None, None)).

(** [findFollowingVehicle(vehicle, laneVehicles)]. *)
Definition findFollowingVehicle (vehicle : Vehicle) (laneVehicles : list Vehicle)
  : option Vehicle :=
  fst (fold_left
         (fun (st : option Vehicle * option R) (other : Vehicle) =>
            if negb (Z.eqb (Veh.id other) (Veh.id vehicle))
               && Rltb (Veh.u other) (Veh.u vehicle)
            then
              let distance := Veh.u vehicle - Veh.u other in
              if belowMin distance (snd st)
              then (Some other, Some distance)
              else st
            else st)
         laneVehicles (None, None)).

(** [calculateLaneAcceleration(vehicle, laneVehicles)]. *)
Definition calculateLaneAcceleration (vehicle : Vehicle)
  (laneVehicles : list Vehicle) : R :=
  match findLeadingVehicle vehicle laneVehicles with
  | None =>
      IDM.calcAccDet (Veh.idmModel vehicle) (Some 1000)
        (Veh.speed vehicle) (Veh.speed vehicle) 0
  | Some leader =>
      let gap := minusLength (Veh.u leader - Veh.u vehicle) (Veh.length leader) in
      IDM.calcAccDet (Veh.idmModel vehicle) gap
        (Veh.speed vehicle) (Veh.speed leader) (Veh.acc leader)
  end.

(** [calculateFollowerImpact(vehicle, targetLaneVehicles)]. *)
Definition calculateFollowerImpact (vehicle : Vehicle)
  (targetLaneVehicles : list Vehicle) : R :=
  match findFollowingVehicle vehicle targetLaneVehicles with
  | None => 0
  | Some follower =>
      let gap := minusLength (Veh.u vehicle - Veh.u follower) (Veh.length vehicle) in
      IDM.calcAccDet (Veh.idmModel follower) gap
        (Veh.speed follower) (Veh.speed vehicle) (Veh.acc vehicle)
  end.

(** [calculateOthersGain(vehicle, currentLane, targetLane)]. *)
Definition calculateOthersGain (m : MOBILModel) (vehicle : Vehicle)
  (currentLane targetLane : list Vehicle) : R :=
  let gain := 0 in
  let gain :=
    match findFollowingVehicle vehicle currentLane with
    | Some currentFollower =>
        let newAcc :=
          match findLeadingVehicle vehicle currentLane with
          | Some currentLeader =>
              IDM.calcAccDet (Veh.idmModel currentFollower)
                (minusLength (Veh.u currentLeader - Veh.u currentFollower)
                             (Veh.length currentLeader))
                (Veh.speed currentFollower) (Veh.speed currentLeader)
                (Veh.acc currentLeader)
          | None =>
              IDM.calcAccDet (Veh.idmModel currentFollower) (Some 1000)
                (Veh.speed currentFollower) (Veh.speed currentFollower) 0
          end in
        gain + (newAcc - Veh.acc currentFollower)
    | None => gain
    end in
  let gain :=
    match findFollowingVehicle vehicle targetLane with
    | Some targetFollower =>
        let gap := minusLength (Veh.u vehicle - Veh.u targetFollower)
                               (Veh.length vehicle) in
        let newAcc :=
          IDM.calcAccDet (Veh.idmModel targetFollower) gap
            (Veh.speed targetFollower) (Veh.speed vehicle) (Veh.acc vehicle) in
        gain - (newAcc - Veh.acc targetFollower)
    | None => gain
    end in
  gain * factorOther m.

(** The local [incentive] of [shouldChangeLanes] before the urgency block:
    acceleration gain, politeness term and right-lane bias. *)
Definition baseIncentive (m : MOBILModel) (vehicle : Vehicle)
  (currentLane targetLane : list Vehicle) (direction : Z) : R :=
  let accCurrent := calculateLaneAcceleration vehicle currentLane in
  let accTarget := calculateLaneAcceleration vehicle targetLane in
  let incentive := accTarget - accCurrent in
  let politenessGain := p m * calculateOthersGain m vehicle currentLane targetLane in
  let incentive := incentive + politenessGain in
  if (direction >? 0)%Z then incentive + biasRight m else incentive.

(** [shouldChangeLanes(vehicle, currentLane, targetLane, direction)]. *)
Definition shouldChangeLanes (m : MOBILModel) (vehicle : Vehicle)
  (currentLane targetLane : list Vehicle) (direction : Z) : Decision :=
  let followerDecel := calculateFollowerImpact vehicle targetLane in
  if Rltb followerDecel (- bSafe m)
  then mkDecision false 0 unsafe_follower None None
  else
    let incentive := baseIncentive m vehicle currentLane targetLane direction in
    let urgencyMultiplier := if Veh.mandatoryLaneChange vehicle then 2 else 1 in
    let incentive :=
      if Veh.mandatoryLaneChange vehicle then incentive + aThr m else incentive in
    let shouldChange := Rgtb incentive (aThr m * urgencyMultiplier) in
    mkDecision shouldChange (Rmax 0 incentive)
      (if shouldChange then beneficial else insufficient_gain)
      (Some incentive) (Some followerDecel).

End MOBIL.

(* ------------------------------------------------------------------ *)
(** * roadSystem.js : class Road, and the network of intersection.js

    [Intersection.network] is an array of [Road] objects and a connection
    holds a reference to its target road.  The network is the store: a
    list of roads, a reference being the position of the road in it, so
    that a transfer from a road to itself or to another road updates the
    one shared object. *)

Module RoadSystem.
Local Open Scope R_scope.

(** [CONFIG.PHYSICS.DT]. *)
Definition DT : R := 3.5 / 30.

(** An element of [Road.connects], as pushed by [connect]. *)
Record Connection : Type := mkConnection {
  targetRoad : nat;          (* reference into the network *)
  uSource : R;
  uTarget : R;
  offsetLane : Z
}.

Record Road : Type := mkRoad {
  roadID : nat;
  roadLen : R;
  laneWidth : R;
  nLanes : Z;
  veh : list Vehicle;
  inVehBuffer : R;
  nVehBuffer : R;
  speedInit : R;
  speedmax : R;
  connects : list Connection
}.

Definition Network : Type := list Road.

(** [new Road(roadID, roadLen, laneWidth, nLanes, traj)]. *)
Definition new (roadID : nat) (roadLen laneWidth : R) (nLanes : Z) : Road :=
  {| roadID := roadID; roadLen := roadLen; laneWidth := laneWidth;
     nLanes := nLanes; veh := []; inVehBuffer := 0; nVehBuffer := 0;
     speedInit := 15; speedmax := 25; connects := [] |}.

(** The four lane-change models built by the constructor; the fourth
    constructor argument is left to its default. *)
Definition LCModelMandatoryRight : MOBIL.MOBILModel :=
  MOBIL.new 0.1 0.2 0.5 MOBIL.safeDecelDefault.
Definition LCModelMandatoryLeft : MOBIL.MOBILModel :=
  MOBIL.new 0.1 0.2 (-0.5) MOBIL.safeDecelDefault.
Definition LCModelTactical : MOBIL.MOBILModel :=
  MOBIL.new 0.3 0.3 0.2 MOBIL.safeDecelDefault.
Definition LCModelNormal : MOBIL.MOBILModel :=
  MOBIL.new 0.5 0.5 0.1 MOBIL.safeDecelDefault.

Definition set_veh (l : list Vehicle) (r : Road) : Road :=
  mkRoad (roadID r) (roadLen r) (laneWidth r) (nLanes r) l (inVehBuffer r)
    (nVehBuffer r) (speedInit r) (speedmax r) (connects r).

Definition set_inVehBuffer (x : R) (r : Road) : Road :=
  mkRoad (roadID r) (roadLen r) (laneWidth r) (nLanes r) (veh r) x
    (nVehBuffer r) (speedInit r) (speedmax r) (connects r).

(** [connect(targetRoad, uSource, uTarget)] with the remaining arguments
    at their defaults. *)
Definition connect (target : nat) (uSource uTarget : R) (r : Road) : Road :=
  mkRoad (roadID r) (roadLen r) (laneWidth r) (nLanes r) (veh r)
    (inVehBuffer r) (nVehBuffer r) (speedInit r) (speedmax r)
    (connects r ++ [mkConnection target uSource uTarget 0]).

(** [update_v_dvdt_optical(vehicle)].  In the first guard
    [!vehicle.laneOld === undefined] compares a boolean with [undefined]
    and is false, so the guard is [!vehicle.dt_LC]. *)
Definition update_v_dvdt_optical (w : Vehicle) : Vehicle :=
  if Req_dec_T (Veh.dt_LC w) 0
  then Veh.set_v_dvdt (IZR (Veh.lane w)) 0 w
  else
    let dt_LC := Veh.dt_LC w in
    let dt_afterLC := Veh.dt_afterLC w in
    let laneStart := IZR (Veh.laneOld w) in
    let laneEnd := IZR (Veh.lane w) in
    if Rgtb dt_afterLC dt_LC
    then Veh.set_v_dvdt laneEnd 0 w
    else
      let acc_v := Veh.fracLaneOptical w * 4 / (dt_LC * dt_LC) in
      let dt := if Rltb dt_afterLC (0.5 * dt_LC)
                then dt_afterLC else dt_LC - dt_afterLC in
      let dv := if Rltb dt_afterLC (0.5 * dt_LC)
                then (1 - Veh.fracLaneOptical w) + 0.5 * acc_v * dt * dt
                else 1 - 0.5 * acc_v * dt * dt in
      Veh.set_v_dvdt
        (laneStart + dv * (laneEnd - laneStart))
        (if Rgtb dt_afterLC dt_LC then 0 else acc_v * dt * (laneEnd - laneStart))
        w.

(** Body of the loop of [updateSpeedPositions] for one vehicle. *)
Definition integrate (w : Vehicle) : Vehicle :=
  if Veh.regular w
  then
    let w1 := Veh.set_u
                (Veh.u w + Rmax 0 (Veh.speed w * DT + 0.5 * Veh.acc w * DT * DT)) w in
    let w2 := Veh.set_speed (Rmax 0 (Veh.speed w1 + Veh.acc w1 * DT)) w1 in
    update_v_dvdt_optical w2
  else w.

(** [updateSpeedPositions()]: the loop updates every element in place,
    then the array is replaced by the filtered one. *)
Definition updateSpeedPositions (r : Road) : Road :=
  set_veh
    (filter (fun w => Rleb (Veh.u w) (roadLen r + 10)) (map integrate (veh r)))
    r.

(** The values drawn from [Math.random()] during one call of [updateBCup],
    in the order of the draws. *)
Record Draws : Type := mkDraws {
  drawRoute : R;
  drawId : R;
  drawLane : R;
  drawSpeed : R;
  drawIdm : R
}.

(** [Math.floor] on a real. *)
Definition floor (x : R) : Z := Int_part x.

Definition isCarOrTruck (t : string) : bool :=
  String.eqb t "car" || String.eqb t "truck".

(** [createVehicle(route, vehType)]. *)
Definition createVehicle (r : Road) (route : option (list nat))
  (vehType : string) (d : Draws) : Vehicle :=
  let lane := floor (drawLane d * IZR (nLanes r)) in
  {| Veh.id := floor (drawId d * 1000000);
     Veh.route := route;
     Veh.roadID := None;
     Veh.u := 5;
     Veh.lane := lane;
     Veh.v := IZR lane;
     Veh.speed := Rmax 0 (speedInit r + (drawSpeed d - 0.5) * 5);
     Veh.acc := 0;
     Veh.len := if String.eqb vehType "truck" then 10 else 5;
     Veh.length := None;
     Veh.width := if String.eqb vehType "truck" then 3 else 2.5;
     Veh.type := vehType;
     Veh.dt_LC := 4;
     Veh.dt_afterLC := 10;
     Veh.fracLaneOptical := 1;
     Veh.laneOld := lane;
     Veh.dvdt := 0;
     Veh.idmModel := IDM.newDefault (drawIdm d);
     Veh.mandatoryLaneChange := false;
     Veh.tacticalLaneChange := false;
     Veh.isRegularVeh := Some isCarOrTruck |}.

(** [canSpawnVehicle(newVeh)]. *)
Definition canSpawnVehicle (r : Road) (newVeh : Vehicle) : bool :=
  let spawnZone := 15 in
  forallb
    (fun existingVeh =>
       negb (Z.eqb (Veh.lane existingVeh) (Veh.lane newVeh)
             && Rltb (Rabs (Veh.u existingVeh - Veh.u newVeh)) spawnZone))
    (veh r).

(** [possibleRoutes[Math.floor(Math.random() * possibleRoutes.length)]]. *)
Definition selectRoute (possibleRoutes : list (list nat)) (d : Draws)
  : option (list nat) :=
  let i := floor (drawRoute d * INR (List.length possibleRoutes)) in
  if (i <? 0)%Z then None else nth_error possibleRoutes (Z.to_nat i).

(** [updateBCup(flow, dt, possibleRoutes)]; the counter is a real, the
    source rounds each operation on it. *)
Definition updateBCup (flow dt : R) (possibleRoutes : list (list nat))
  (d : Draws) (r : Road) : Road :=
  let r1 := set_inVehBuffer (inVehBuffer r + flow * dt / 3600) r in
  if Rgeb (inVehBuffer r1) 1
  then
    let selectedRoute := selectRoute possibleRoutes d in
    let newVeh := createVehicle r1 selectedRoute "car" d in
    if canSpawnVehicle r1 newVeh
    then set_inVehBuffer (inVehBuffer r1 - 1) (set_veh (veh r1 ++ [newVeh]) r1)
    else r1
  else r1.

(** Replace the road at a position of the store. *)
Fixpoint updRoad (i : nat) (f : Road -> Road) (net : Network) : Network :=
  match net, i with
  | [], _ => []
  | r :: net', O => f r :: net'
  | r :: net', S j => r :: updRoad j f net'
  end.

(** [array.splice(index, 1)]. *)
Fixpoint removeAt {A : Type} (index : nat) (l : list A) : list A :=
  match l, index with
  | [], _ => []
  | _ :: l', O => l'
  | x :: l', S j => x :: removeAt j l'
  end.

(** [connection.targetRoad.roadID]. *)
Definition targetRoadID (net : Network) (c : Connection) : option nat :=
  option_map roadID (nth_error net (targetRoad c)).

(** [shouldUseConnection(veh, connection)] evaluated on road [this]. *)
Definition shouldUseConnection (net : Network) (this : Road) (w : Vehicle)
  (c : Connection) : bool :=
  match targetRoadID net c with
  | None => false
  | Some tid =>
      match Veh.route w with
      | Some (_ :: nextRoadID :: _) => Nat.eqb tid nextRoadID
      | _ => Nat.eqb tid (roadID this)
      end
  end.

(** [veh.route.slice(1)] under the guard [veh.route && veh.route.length > 1]. *)
Definition popRoute (route : option (list nat)) : option (list nat) :=
  match route with
  | Some (_ :: next :: rest) => Some (next :: rest)
  | other => other
  end.

(** [transferVehicle(veh, connection, index)] on the road at position [ir]. *)
Definition transferVehicle (ir : nat) (w : Vehicle) (c : Connection)
  (index : nat) (net : Network) : Network :=
  let net1 := updRoad ir (fun r => set_veh (removeAt index (veh r)) r) net in
  let w1 := Veh.set_u (uTarget c) w in
  let w2 := Veh.set_roadID (targetRoadID net c) w1 in
  let w3 := Veh.set_route (popRoute (Veh.route w2)) w2 in
  updRoad (targetRoad c) (fun r => set_veh (veh r ++ [w3]) r) net1.

(** Inner loop of [processConnections]: [n] is the number of indices left,
    the index visited is [n - 1], down to 0; [this.veh] is read again at
    every iteration. *)
Fixpoint connectionLoop (ir : nat) (c : Connection) (n : nat) (net : Network)
  : Network :=
  match n with
  | O => net
  | S i =>
      let net' :=
        match nth_error net ir with
        | None => net
        | Some this =>
            match nth_error (veh this) i with
            | None => net
            | Some w =>
                if Rgeb (Veh.u w) (uSource c)
                then if shouldUseConnection net this w c
                     then transferVehicle ir w c i net
                     else net
                else net
            end
        end in
      connectionLoop ir c i net'
  end.

(** [processConnections()] of the road at position [ir]. *)
Definition processConnections (ir : nat) (net : Network) : Network :=
  match nth_error net ir with
  | None => net
  | Some this =>
      fold_left
        (fun net c =>
           match nth_error net ir with
           | None => net
           | Some this' => connectionLoop ir c (List.length (veh this')) net
           end)
        (connects this) net
  end.

(** [reset()]. *)
Definition reset (r : Road) : Road :=
  mkRoad (roadID r) (roadLen r) (laneWidth r) (nLanes r) [] 0 0
    (speedInit r) (speedmax r) (connects r).

(** [getVehicleCount(uStart, uEnd, lane)]; the default [lane = null] is
    [None]. *)
Definition getVehicleCount (uStart uEnd : R) (lane : option Z) (r : Road) : nat :=
  fold_left
    (fun count w =>
       if Rgeb (Veh.u w) uStart && Rleb (Veh.u w) uEnd
       then match lane with
            | None => S count
            | Some l => if Z.eqb (Veh.lane w) l then S count else count
            end
       else count)
    (veh r) 0%nat.

(** The two accumulators of [getAverageSpeed] after the loop. *)
Definition speedTotals (uStart uEnd : R) (lane : option Z) (r : Road)
  : R * nat :=
  fold_left
    (fun (st : R * nat) w =>
       if Rgeb (Veh.u w) uStart && Rleb (Veh.u w) uEnd
       then match lane with
            | None => (fst st + Veh.speed w, S (snd st))
            | Some l =>
                if Z.eqb (Veh.lane w) l
                then (fst st + Veh.speed w, S (snd st)) else st
            end
       else st)
    (veh r) (0, 0%nat).

(** [getAverageSpeed(uStart, uEnd, lane)]; the sum and the quotient are
    those of the reals, the source rounds each operation. *)
Definition getAverageSpeed (uStart uEnd : R) (lane : option Z) (r : Road) : R :=
  let totalSpeed := fst (speedTotals uStart uEnd lane r) in
  let count := snd (speedTotals uStart uEnd lane r) in
  if Nat.ltb 0 count then totalSpeed / INR count else 0.

Definition set_acc (x : R) (w : Vehicle) : Vehicle :=
  Veh.mkVehicle (Veh.id w) (Veh.route w) (Veh.roadID w) (Veh.u w) (Veh.lane w)
    (Veh.v w) (Veh.speed w) x (Veh.len w) (Veh.length w) (Veh.width w)
    (Veh.type w) (Veh.dt_LC w) (Veh.dt_afterLC w) (Veh.fracLaneOptical w)
    (Veh.laneOld w) (Veh.dvdt w) (Veh.idmModel w) (Veh.mandatoryLaneChange w)
    (Veh.tacticalLaneChange w) (Veh.isRegularVeh w).

Definition set_dt_afterLC (x : R) (w : Vehicle) : Vehicle :=
  Veh.mkVehicle (Veh.id w) (Veh.route w) (Veh.roadID w) (Veh.u w) (Veh.lane w)
    (Veh.v w) (Veh.speed w) (Veh.acc w) (Veh.len w) (Veh.length w) (Veh.width w)
    (Veh.type w) (Veh.dt_LC w) x (Veh.fracLaneOptical w)
    (Veh.laneOld w) (Veh.dvdt w) (Veh.idmModel w) (Veh.mandatoryLaneChange w)
    (Veh.tacticalLaneChange w) (Veh.isRegularVeh w).

(** [array[index] = x] for an index of the array. *)
Fixpoint replaceAt {A : Type} (index : nat) (x : A) (l : list A) : list A :=
  match l, index with
  | [], _ => []
  | _ :: l', O => x :: l'
  | y :: l', S j => y :: replaceAt j x l'
  end.

(** [laneVehicles.sort((a, b) => a.u - b.u)]: the sort is stable, vehicles
    with equal [u] keep their order.  The vehicles travel with their
    position in [this.veh], which stands for the identity of the object. *)
Fixpoint insertByU (x : nat * Vehicle) (l : list (nat * Vehicle))
  : list (nat * Vehicle) :=
  match l with
  | [] => [x]
  | y :: l' =>
      if Rleb (Veh.u (snd x)) (Veh.u (snd y))
      then x :: y :: l'
      else y :: insertByU x l'
  end.

Definition sortByU (l : list (nat * Vehicle)) : list (nat * Vehicle) :=
  fold_right insertByU [] l.

(** Inner loop of [calcAccelerations] over the sorted vehicles of a lane:
    the accelerations to write, with the position of each vehicle.  The
    leader of a vehicle is the first later element with a larger [u]; its
    [acc] is still the 0 of the reset when it is read.  Every vehicle of
    the model has an [idmModel]. *)
Fixpoint laneAccelerations (laneVehicles : list (nat * Vehicle))
  : list (nat * R) :=
  match laneVehicles with
  | [] => []
  | (k, w) :: rest =>
      let acc :=
        match find (fun c => Rgtb (Veh.u (snd c)) (Veh.u w)) rest with
        | Some (_, leader) =>
            let gap := Veh.u leader - Veh.u w - Veh.len leader in
            IDM.calcAccDet (Veh.idmModel w) (Some (Rmax 0.1 gap))
              (Veh.speed w) (Veh.speed leader) (Veh.acc leader)
        | None =>
            IDM.calcAccDet (Veh.idmModel w) (Some 1000)
              (Veh.speed w) (Veh.speed w) 0
        end in
      (k, Rmax (-6) (Rmin 3 acc)) :: laneAccelerations rest
  end.

(** The values of the loop variable [lane] of [calcAccelerations]. *)
Definition laneIndices (r : Road) : list Z :=
  map Z.of_nat (seq 0 (Z.to_nat (nLanes r))).

(** [calcAccelerations()]: reset of every [acc], then one pass per lane
    writing the clamped car-following acceleration into each vehicle. *)
Definition calcAccelerations (r : Road) : Road :=
  let vs0 := map (set_acc 0) (veh r) in
  let indexed := combine (seq 0 (List.length vs0)) vs0 in
  let writes :=
    flat_map
      (fun lane =>
         laneAccelerations
           (sortByU (filter (fun c => Z.eqb (Veh.lane (snd c)) lane) indexed)))
      (laneIndices r) in
  set_veh
    (fold_left
       (fun vs (ka : nat * R) =>
          match nth_error vs (fst ka) with
          | Some w => replaceAt (fst ka) (set_acc (snd ka) w) vs
          | None => vs
          end)
       writes vs0)
    r.

Inductive TurnType : Type := turnLeft | turnRight.

(** An element of [Road.trajAlt] without its two coordinate functions
    (drawing geometry). *)
Record TrajAlt : Type := mkTrajAlt {
  altRoadID : nat;
  umin : R;
  umax : R;
  laneMin : Z;
  laneMax : Z;
  turnType : TurnType
}.

(** [executeLaneChange(veh, targetLane)]. *)
Definition executeLaneChange (w : Vehicle) (targetLane : Z) : Vehicle :=
  Veh.mkVehicle (Veh.id w) (Veh.route w) (Veh.roadID w) (Veh.u w) targetLane
    (Veh.v w) (Veh.speed w) (Veh.acc w) (Veh.len w) (Veh.length w) (Veh.width w)
    (Veh.type w) 4 0 1 (Veh.lane w) (Veh.dvdt w) (Veh.idmModel w) false false
    (Veh.isRegularVeh w).

(** The loop over [this.trajAlt] in [evaluateLaneChangeNeed]: the first
    alternative trajectory to the target road that asks for another lane
    decides. *)
Fixpoint requiredLane (r : Road) (trajAlt : list TrajAlt) (targetRoadID : nat)
  (w : Vehicle) : option Z :=
  match trajAlt with
  | [] => None
  | t :: rest =>
      if Nat.eqb (altRoadID t) targetRoadID
      then
        if Z.eqb (laneMin t) 0 && negb (Z.eqb (Veh.lane w) 0)
        then Some 0%Z
        else if Z.eqb (laneMax t) (nLanes r - 1)
                && negb (Z.eqb (Veh.lane w) (nLanes r - 1))
             then Some (nLanes r - 1)%Z
             else requiredLane r rest targetRoadID w
      else requiredLane r rest targetRoadID w
  end.

(** [evaluateLaneChangeNeed(veh)]: the lane returned and the vehicle, whose
    flag [mandatoryLaneChange] the function may set.  [trajAlt] is
    [this.trajAlt]. *)
Definition evaluateLaneChangeNeed (r : Road) (trajAlt : list TrajAlt)
  (w : Vehicle) : Z * Vehicle :=
  match Veh.route w with
  | Some (first :: second :: rest) =>
      let targetRoadID := List.last (second :: rest) first in
      let turningZoneStart := roadLen r - 50 in
      if Rgtb (Veh.u w) turningZoneStart
      then match requiredLane r trajAlt targetRoadID w with
           | Some l => (l, Veh.set_mandatoryLaneChange true w)
           | None => (Veh.lane w, w)
           end
      else (Veh.lane w, w)
  | _ => (Veh.lane w, w)
  end.

(** Body of the loop of [changeLanes] for the vehicle at position [i] of
    [this.veh]; the array is the store, so that the lane filters see the
    vehicles as the earlier iterations left them.  Every vehicle of the
    model has a [dt_afterLC], so the branch for an undefined one is not
    taken. *)
Definition changeLaneAt (r : Road) (trajAlt : list TrajAlt)
  (vs : list Vehicle) (i : nat) : list Vehicle :=
  match nth_error vs i with
  | None => vs
  | Some w0 =>
      let w1 := set_dt_afterLC (Veh.dt_afterLC w0 + DT) w0 in
      if Rltb (Veh.dt_afterLC w1) (Veh.dt_LC w1)
      then replaceAt i (update_v_dvdt_optical w1) vs
      else
        let '(targetLane, w2) := evaluateLaneChangeNeed r trajAlt w1 in
        let vs2 := replaceAt i w2 vs in
        let w3 :=
          if negb (Z.eqb targetLane (Veh.lane w2))
             && Z.leb 0 targetLane && Z.ltb targetLane (nLanes r)
          then
            let currentLaneVehicles :=
              filter (fun x => Z.eqb (Veh.lane x) (Veh.lane w2)) vs2 in
            let targetLaneVehicles :=
              filter (fun x => Z.eqb (Veh.lane x) targetLane) vs2 in
            let direction := if Z.gtb targetLane (Veh.lane w2) then 1%Z else (-1)%Z in
            let mobilModel :=
              if Veh.mandatoryLaneChange w2
              then if Z.gtb direction 0
                   then LCModelMandatoryRight else LCModelMandatoryLeft
              else if Veh.tacticalLaneChange w2
                   then LCModelTactical else LCModelNormal in
            let laneChangeDecision :=
              MOBIL.shouldChangeLanes mobilModel w2 currentLaneVehicles
                targetLaneVehicles direction in
            if MOBIL.shouldChange laneChangeDecision
            then executeLaneChange w2 targetLane
            else w2
          else w2 in
        replaceAt i (update_v_dvdt_optical w3) vs
  end.

(** [changeLanes()]. *)
Definition changeLanes (trajAlt : list TrajAlt) (r : Road) : Road :=
  set_veh
    (fold_left (changeLaneAt r trajAlt) (seq 0 (List.length (veh r))) (veh r))
    r.

End RoadSystem.

(* ------------------------------------------------------------------ *)
(** * intersection.js : the road network *)

Module Intersection.
Local Open Scope R_scope.

(** [createRoad(roadID, type)]: 200 m, and [nLanesMain = nLanesSec = 2]. *)
Definition createRoad (roadID : nat) : RoadSystem.Road :=
  RoadSystem.new roadID 200 3 2.

(** The six roads of [initializeRoads()] after [setupConnections()],
    carrying the given vehicles. *)
Definition networkWith (l0 l1 l2 l3 l4 l5 : list Vehicle) : RoadSystem.Network :=
  [ RoadSystem.set_veh l0 (RoadSystem.connect 0 190 10 (createRoad 0));  (* east-bound  *)
    RoadSystem.set_veh l1 (RoadSystem.connect 1 190 10 (createRoad 1));  (* west-bound  *)
    RoadSystem.set_veh l2 (RoadSystem.connect 3 190 10 (createRoad 2));  (* north-bound *)
    RoadSystem.set_veh l3 (createRoad 3);                                (* north-exit  *)
    RoadSystem.set_veh l4 (RoadSystem.connect 5 190 10 (createRoad 4));  (* south-bound *)
    RoadSystem.set_veh l5 (createRoad 5) ].                              (* south-exit  *)

(** The one connection of road 0, pushed by
    [this.network[0].connect(this.network[0], 190, 10)]: onto road 0 itself. *)
Definition eastStraight : RoadSystem.Connection :=
  RoadSystem.mkConnection 0 190 10 0.

(** The network as the constructor leaves it: no vehicle yet. *)
Definition network : RoadSystem.Network := networkWith [] [] [] [] [] [].

(** [CONFIG.ROUTES.ROUTE_05]: east to south, the right turn. *)
Definition ROUTE_05 : list nat := [0%nat; 5%nat].

(** [CONFIG.ROUTES.ROUTE_45]: south-bound straight on. *)
Definition ROUTE_45 : list nat := [4%nat; 5%nat].

End Intersection.

(* ------------------------------------------------------------------ *)
(** * config.js : directions, light states, settings *)

Module Config.
Local Open Scope Q_scope.

(** [CONFIG.DIRECTIONS]. *)
Inductive Direction : Type := north | south | east | west.

(** [Object.values(CONFIG.DIRECTIONS)], in insertion order. *)
Definition DIRECTIONS : list Direction := [north; south; east; west].

(** [CONFIG.LIGHT_STATES]. *)
Inductive Color : Type := red | yellow | green.

(** [CONFIG.MODES]. *)
Inductive Mode : Type := fixed | adaptive.

Definition Direction_eqb (d1 d2 : Direction) : bool :=
  match d1, d2 with
  | north, north | south, south | east, east | west, west => true
  | _, _ => false
  end.

Definition Color_eqb (c1 c2 : Color) : bool :=
  match c1, c2 with
  | red, red | yellow, yellow | green, green => true
  | _, _ => false
  end.

(** An object with one property per direction. *)
Record perDir (A : Type) : Type := mkPerDir {
  atNorth : A; atSouth : A; atEast : A; atWest : A
}.

Arguments mkPerDir {A} _ _ _ _.
Arguments atNorth {A} _.
Arguments atSouth {A} _.
Arguments atEast {A} _.
Arguments atWest {A} _.

Definition get {A : Type} (d : Direction) (m : perDir A) : A :=
  match d with
  | north => atNorth m
  | south => atSouth m
  | east => atEast m
  | west => atWest m
  end.

Definition set {A : Type} (d : Direction) (x : A) (m : perDir A) : perDir A :=
  match d with
  | north => mkPerDir x (atSouth m) (atEast m) (atWest m)
  | south => mkPerDir (atNorth m) x (atEast m) (atWest m)
  | east => mkPerDir (atNorth m) (atSouth m) x (atWest m)
  | west => mkPerDir (atNorth m) (atSouth m) (atEast m) x
  end.

Definition constPerDir {A : Type} (x : A) : perDir A := mkPerDir x x x x.

Record Settings : Type := mkSettings {
  GREEN_DURATION : Q;
  YELLOW_DURATION : Q;
  RED_DURATION : Q;
  CAR_SPAWN_RATE : Q;
  CAR_SPEED : Q;
  TURN_RATE : Q;
  DETECTOR_DISTANCE : Q;
  MIN_GREEN_TIME : Q
}.

(** [CONFIG.DEFAULT_SETTINGS]. *)
Definition DEFAULT_SETTINGS : Settings :=
  {| GREEN_DURATION := 100000; YELLOW_DURATION := 5000;
     RED_DURATION := 100000; CAR_SPAWN_RATE := 4; CAR_SPEED := 25;
     TURN_RATE := 4 # 10; DETECTOR_DISTANCE := 500; MIN_GREEN_TIME := 5000 |}.

(** [CONFIG.ROAD_WIDTH], [CONFIG.INTERSECTION_SIZE]. *)
Definition ROAD_WIDTH : Q := 60.
Definition INTERSECTION_SIZE : Q := 120.

(** [x > y] and [x >= y] on numbers. *)
Definition Qgtb (x y : Q) : bool := negb (Qle_bool x y).
Definition Qgeb (x y : Q) : bool := Qle_bool y x.
Definition Qltb (x y : Q) : bool := negb (Qle_bool y x).

End Config.

(* ------------------------------------------------------------------ *)
(** * sensors.js : class SensorSystem *)

Module Sensor.
Import Config.
Local Open Scope Q_scope.

Inductive CarState : Type :=
  approaching | waiting | crossing | turning | exiting | completed.

(** The part of a [Car] object the sensors read or write. *)
Record Car : Type := mkCar {
  id : Z;
  fromDirection : Direction;
  x : Q;
  y : Q;
  state : CarState;
  totalWaitTime : Q;
  _countedInDetector : bool
}.

Definition getDirection (c : Car) : Direction := fromDirection c.
Definition getWaitTime (c : Car) : Q := totalWaitTime c.
Definition isWaiting (c : Car) : bool :=
  match state c with waiting => true | _ => false end.

Definition set_countedInDetector (b : bool) (c : Car) : Car :=
  mkCar (id c) (fromDirection c) (x c) (y c) (state c) (totalWaitTime c) b.

(** An entry of [sensorData]. *)
Record SensorDatum : Type := mkDatum {
  carsWaiting : nat;
  waitTime : Q;
  detectedCars : list Car;
  firstCarWaitStart : option Q;
  totalCarsDetected : nat
}.

(** A rectangle [{x1, y1, x2, y2}]: a stop line or a detection zone. *)
Record Rect : Type := mkRect { x1 : Q; y1 : Q; x2 : Q; y2 : Q }.

(** The [SensorSystem] object.  Its cumulative counters live in the
    property [totalCarsDetected] of the system (named [totals] here, the
    name being taken by the field of [SensorDatum]); [sensorData] holds a
    copy per direction, written when a vehicle is newly counted. *)
Record SensorSystem : Type := mkSensor {
  centerX : Q;                       (* intersection.centerX *)
  centerY : Q;                       (* intersection.centerY *)
  detectorDistance : Q;
  sensorData : perDir SensorDatum;
  carCounts : perDir nat;
  waitingCars : perDir (option Car);
  totals : perDir nat;               (* this.totalCarsDetected *)
  shouldResetCounts : bool
}.

Definition set_sensorData (x : perDir SensorDatum) (s : SensorSystem) :=
  mkSensor (centerX s) (centerY s) (detectorDistance s) x (carCounts s)
    (waitingCars s) (totals s) (shouldResetCounts s).
Definition set_waitingCars (x : perDir (option Car)) (s : SensorSystem) :=
  mkSensor (centerX s) (centerY s) (detectorDistance s) (sensorData s)
    (carCounts s) x (totals s) (shouldResetCounts s).
Definition set_totals (x : perDir nat) (s : SensorSystem) :=
  mkSensor (centerX s) (centerY s) (detectorDistance s) (sensorData s)
    (carCounts s) (waitingCars s) x (shouldResetCounts s).
Definition set_shouldResetCounts (x : bool) (s : SensorSystem) :=
  mkSensor (centerX s) (centerY s) (detectorDistance s) (sensorData s)
    (carCounts s) (waitingCars s) (totals s) x.

(** Update the entry of one direction in [sensorData]. *)
Definition updDatum (d : Direction) (f : SensorDatum -> SensorDatum)
  (s : SensorSystem) : SensorSystem :=
  set_sensorData (set d (f (get d (sensorData s))) (sensorData s)) s.

Definition initialDatum : SensorDatum := mkDatum 0 0 [] None 0.

(** [initializeSensors()]. *)
Definition initializeSensors (s : SensorSystem) : SensorSystem :=
  mkSensor (centerX s) (centerY s) (detectorDistance s)
    (constPerDir initialDatum) (constPerDir 0%nat) (constPerDir None)
    (constPerDir 0%nat) (shouldResetCounts s).

(** [new SensorSystem(intersection)]. *)
Definition new (cx cy : Q) : SensorSystem :=
  initializeSensors
    (mkSensor cx cy (DETECTOR_DISTANCE DEFAULT_SETTINGS)
       (constPerDir initialDatum) (constPerDir 0%nat) (constPerDir None)
       (constPerDir 0%nat) false).

(** [initialize(detectorDistance)]. *)
Definition initialize (dist : Q) (s : SensorSystem) : SensorSystem :=
  initializeSensors
    (mkSensor (centerX s) (centerY s) dist (sensorData s) (carCounts s)
       (waitingCars s) (totals s) (shouldResetCounts s)).

(** [reset()]. *)
Definition reset (s : SensorSystem) : SensorSystem := initializeSensors s.

(** [resetCarCount(direction)]. *)
Definition resetCarCount (d : Direction) (s : SensorSystem) : SensorSystem :=
  set_totals (set d 0%nat (totals s)) s.

(** [resetAllCarCounts()]. *)
Definition resetAllCarCounts (s : SensorSystem) : SensorSystem :=
  fold_left (fun s d => set_totals (set d 0%nat (totals s)) s) DIRECTIONS s.

(** [triggerCountReset()]. *)
Definition triggerCountReset (s : SensorSystem) : SensorSystem :=
  set_shouldResetCounts true s.

(** [intersection.getStopLinePosition(direction)], from
    [Intersection.calculatePositions]. *)
Definition getStopLinePosition (s : SensorSystem) (d : Direction) : Rect :=
  let intersectionSize := INTERSECTION_SIZE / 2 in
  let roadWidth := ROAD_WIDTH / 2 in
  let stopLineOffset := intersectionSize + 5 in
  match d with
  | north => mkRect (centerX s - roadWidth) (centerY s - stopLineOffset)
                    (centerX s + roadWidth) (centerY s - stopLineOffset)
  | east => mkRect (centerX s + stopLineOffset) (centerY s - roadWidth)
                   (centerX s + stopLineOffset) (centerY s + roadWidth)
  | south => mkRect (centerX s - roadWidth) (centerY s + stopLineOffset)
                    (centerX s + roadWidth) (centerY s + stopLineOffset)
  | west => mkRect (centerX s - stopLineOffset) (centerY s - roadWidth)
                   (centerX s - stopLineOffset) (centerY s + roadWidth)
  end.

(** [getDetectionZone(direction)]. *)
Definition getDetectionZone (s : SensorSystem) (d : Direction) : Rect :=
  let stopLine := getStopLinePosition s d in
  let roadWidth := ROAD_WIDTH in
  match d with
  | north => mkRect (centerX s - roadWidth / 2)
                    (y1 stopLine - detectorDistance s)
                    (centerX s + roadWidth / 2)
                    (y1 stopLine)
  | east => mkRect (x1 stopLine)
                   (centerY s - roadWidth / 2)
                   (x1 stopLine + detectorDistance s)
                   (centerY s + roadWidth / 2)
  | south => mkRect (centerX s - roadWidth / 2)
                    (y1 stopLine)
                    (centerX s + roadWidth / 2)
                    (y1 stopLine + detectorDistance s)
  | west => mkRect (x1 stopLine - detectorDistance s)
                   (centerY s - roadWidth / 2)
                   (x1 stopLine)
                   (centerY s + roadWidth / 2)
  end.

(** [isCarInDetectionZone(car, zone)]. *)
Definition isCarInDetectionZone (c : Car) (zone : Rect) : bool :=
  Qgeb (x c) (x1 zone) && Qle_bool (x c) (x2 zone)
  && Qgeb (y c) (y1 zone) && Qle_bool (y c) (y2 zone).

(** [isCarCloserToStopLine(car1, car2, direction)]. *)
Definition isCarCloserToStopLine (s : SensorSystem) (car1 car2 : Car)
  (d : Direction) : bool :=
  let stopLine := getStopLinePosition s d in
  match d with
  | north | south =>
      Qltb (Qabs (y car1 - y1 stopLine)) (Qabs (y car2 - y1 stopLine))
  | east | west =>
      Qltb (Qabs (x car1 - x1 stopLine)) (Qabs (x car2 - x1 stopLine))
  end.

(** First loop of [update]: the per-tick detection data is cleared, the
    cumulative counters are kept. *)
Definition clearDetection (s : SensorSystem) : SensorSystem :=
  fold_left
    (fun s d =>
       set_waitingCars (set d None (waitingCars s))
         (updDatum d
            (fun sd => mkDatum 0 0 [] None (totalCarsDetected sd)) s))
    DIRECTIONS s.

(** Second loop of [update], run when both light-state objects are given:
    on a colour change of a direction, [resetCarCount(direction)] and the
    waiting data of that direction are zeroed. *)
Definition resetOnLightChange (lightStates prevLightStates : perDir Color)
  (s : SensorSystem) : SensorSystem :=
  fold_left
    (fun s d =>
       if negb (Color_eqb (get d lightStates) (get d prevLightStates))
       then
         updDatum d
           (fun sd => mkDatum 0 0 (detectedCars sd) (firstCarWaitStart sd)
                        (totalCarsDetected sd))
           (resetCarCount d s)
       else s)
    DIRECTIONS s.

(** The manual trigger. *)
Definition manualReset (s : SensorSystem) : SensorSystem :=
  if shouldResetCounts s
  then set_shouldResetCounts false (resetAllCarCounts s)
  else s.

(** [!this.sensorData[direction].firstCarWaitStart]: [null] and 0 are
    falsy. *)
Definition unsetStart (t : option Q) : bool :=
  match t with
  | None => true
  | Some t => Qeq_bool t 0
  end.

(** First statement of the body of [cars.forEach], for a car met under a
    red light: [if (!car._countedInDetector && inZone) { ... }]. *)
Definition countIfNew (direction : Direction) (inZone : bool)
  (s : SensorSystem) (car : Car) : SensorSystem * Car :=
  if negb (_countedInDetector car) && inZone
  then
    let s := set_totals
               (set direction (S (get direction (totals s))) (totals s)) s in
    (updDatum direction
       (fun sd => mkDatum (carsWaiting sd) (waitTime sd)
                    (detectedCars sd) (firstCarWaitStart sd)
                    (get direction (totals s))) s,
     set_countedInDetector true car)
  else (s, car).

(** [if (!inZone && car._countedInDetector) { ... }]. *)
Definition uncountIfLeft (inZone : bool) (car : Car) : Car :=
  if negb inZone && _countedInDetector car
  then set_countedInDetector false car else car.

(** [if (inZone) { detectedCars.push(car) }]. *)
Definition recordDetected (direction : Direction) (inZone : bool) (car : Car)
  (s : SensorSystem) : SensorSystem :=
  if inZone
  then updDatum direction
         (fun sd => mkDatum (carsWaiting sd) (waitTime sd)
                      (detectedCars sd ++ [car]) (firstCarWaitStart sd)
                      (totalCarsDetected sd)) s
  else s.

(** [if (car.isWaiting() && inZone) { ... }]; [now] is [Date.now()]. *)
Definition recordWaiting (direction : Direction) (inZone : bool) (now : Q)
  (car : Car) (s : SensorSystem) : SensorSystem :=
  if isWaiting car && inZone
  then
    let s := updDatum direction
               (fun sd => mkDatum (S (carsWaiting sd)) (waitTime sd)
                            (detectedCars sd) (firstCarWaitStart sd)
                            (totalCarsDetected sd)) s in
    let s :=
      match get direction (waitingCars s) with
      | None => set_waitingCars (set direction (Some car) (waitingCars s)) s
      | Some other =>
          if isCarCloserToStopLine s car other direction
          then set_waitingCars (set direction (Some car) (waitingCars s)) s
          else s
      end in
    if unsetStart (firstCarWaitStart (get direction (sensorData s)))
    then updDatum direction
           (fun sd => mkDatum (carsWaiting sd) (waitTime sd)
                        (detectedCars sd) (Some (now - getWaitTime car))
                        (totalCarsDetected sd)) s
    else s
  else s.

(** Body of [cars.forEach] for one car; returns the system and the car,
    whose flag [_countedInDetector] the body may write. *)
Definition processCar (lightStates : option (perDir Color)) (now : Q)
  (s : SensorSystem) (car : Car) : SensorSystem * Car :=
  let direction := getDirection car in
  let detectionZone := getDetectionZone s direction in
  match lightStates with
  | None => (s, car)
  | Some ls =>
      if Color_eqb (get direction ls) red
      then
        let inZone := isCarInDetectionZone car detectionZone in
        let '(s1, car1) := countIfNew direction inZone s car in
        let car2 := uncountIfLeft inZone car1 in
        let s2 := recordDetected direction inZone car2 s1 in
        let s3 := recordWaiting direction inZone now car2 s2 in
        (s3, car2)
      else (s, car)
  end.

(** [cars.forEach(...)]: the cars are visited in order. *)
Fixpoint processCars (lightStates : option (perDir Color)) (now : Q)
  (s : SensorSystem) (cars : list Car) : SensorSystem * list Car :=
  match cars with
  | [] => (s, [])
  | car :: rest =>
      let '(s1, car1) := processCar lightStates now s car in
      let '(s2, rest2) := processCars lightStates now s1 rest in
      (s2, car1 :: rest2)
  end.

(** Last loop of [update]: wait time of the tracked car of each direction. *)
Definition setWaitTimes (s : SensorSystem) : SensorSystem :=
  fold_left
    (fun s d =>
       match get d (waitingCars s) with
       | Some c =>
           updDatum d
             (fun sd => mkDatum (carsWaiting sd) (getWaitTime c)
                          (detectedCars sd) (firstCarWaitStart sd)
                          (totalCarsDetected sd)) s
       | None => s
       end)
    DIRECTIONS s.

(** The state of the system after the resets of [update] and before the
    cars are visited. *)
Definition afterResets (lightStates prevLightStates : option (perDir Color))
  (s : SensorSystem) : SensorSystem :=
  let s := clearDetection s in
  let s :=
    match lightStates, prevLightStates with
    | Some ls, Some pls => resetOnLightChange ls pls s
    | _, _ => s
    end in
  manualReset s.

(** [update(cars, lightStates, prevLightStates)]; returns the system, the
    cars with their flags, and the value returned, [this.sensorData]. *)
Definition update (cars : list Car)
  (lightStates prevLightStates : option (perDir Color)) (now : Q)
  (s : SensorSystem) : SensorSystem * list Car * perDir SensorDatum :=
  let s := afterResets lightStates prevLightStates s in
  let '(s, cars') := processCars lightStates now s cars in
  let s := setWaitTimes s in
  (s, cars', sensorData s).

(** [getTotalCarsDetected()]. *)
Definition getTotalCarsDetected (s : SensorSystem) : perDir nat := totals s.

(** [getSensorData()]. *)
Definition getSensorData (s : SensorSystem) : perDir SensorDatum := sensorData s.

End Sensor.

(* ------------------------------------------------------------------ *)
(** * trafficLights.js : class TrafficLightController *)

Module TrafficLights.
Import Config.
Local Open Scope Q_scope.

(** An entry of [this.lights]. *)
Record Light : Type := mkLight { state : Color; timer : Q }.

(** The adaptive pairs ['WE'] and ['NS']; [null] is [None]. *)
Inductive Pair : Type := WE | NS.

Definition Pair_eqb (p1 p2 : Pair) : bool :=
  match p1, p2 with
  | WE, WE | NS, NS => true
  | _, _ => false
  end.

(** [this.fixedState]. *)
Module Fixed.
Record State : Type := mkState {
  currentPhase : nat;
  phaseTimer : Q;
  isActive : bool
}.
End Fixed.

(** [priorityScores]. *)
Record Scores : Type := mkScores { scoreWE : Q; scoreNS : Q }.

Definition score (p : Pair) (sc : Scores) : Q :=
  match p with WE => scoreWE sc | NS => scoreNS sc end.

(** [this.adaptiveState]. *)
Module Adaptive.
Record State : Type := mkState {
  currentPair : option Pair;
  currentPhase : Color;
  phaseTimer : Q;
  isActive : bool;
  priorityScores : Scores;
  lastSwitchTime : Q;
  firstCarTriggered : bool
}.
End Adaptive.

Record Controller : Type := mkController {
  lights : perDir Light;
  mode : Mode;
  settings : Settings;
  fixedState : Fixed.State;
  adaptiveState : Adaptive.State;
  lastPhase : option Color
}.

Definition set_lights (x : perDir Light) (c : Controller) : Controller :=
  mkController x (mode c) (settings c) (fixedState c) (adaptiveState c)
    (lastPhase c).
Definition set_fixedState (x : Fixed.State) (c : Controller) : Controller :=
  mkController (lights c) (mode c) (settings c) x (adaptiveState c)
    (lastPhase c).
Definition set_adaptiveState (x : Adaptive.State) (c : Controller) : Controller :=
  mkController (lights c) (mode c) (settings c) (fixedState c) x
    (lastPhase c).
Definition set_mode_settings (m : Mode) (s : Settings) (c : Controller)
  : Controller :=
  mkController (lights c) m s (fixedState c) (adaptiveState c) (lastPhase c).

(** [this.lights[direction].state = color]. *)
Definition setLight (d : Direction) (color : Color) (c : Controller)
  : Controller :=
  set_lights (set d (mkLight color (timer (get d (lights c)))) (lights c)) c.

(** [setAllLightsRed()]. *)
Definition setAllLightsRed (c : Controller) : Controller :=
  fold_left (fun c d => setLight d red c) DIRECTIONS c.

(** [getLightStates()]. *)
Definition getLightStates (c : Controller) : perDir Color :=
  mkPerDir (state (atNorth (lights c))) (state (atSouth (lights c)))
           (state (atEast (lights c))) (state (atWest (lights c))).

(** [setFixedLightState()]. *)
Definition setFixedLightState (c : Controller) : Controller :=
  let c := setAllLightsRed c in
  match Fixed.currentPhase (fixedState c) with
  | 0%nat => setLight south green (setLight north green c)
  | 1%nat => setLight south yellow (setLight north yellow c)
  | 2%nat => c
  | 3%nat => setLight east green (setLight west green c)
  | 4%nat => setLight east yellow (setLight west yellow c)
  | 5%nat => c
  | _ => c
  end.

(** [initializeFixedMode()]. *)
Definition initializeFixedMode (c : Controller) : Controller :=
  setFixedLightState (set_fixedState (Fixed.mkState 0 0 true) c).

(** [initializeAdaptiveMode()]. *)
Definition initializeAdaptiveMode (c : Controller) : Controller :=
  setAllLightsRed
    (set_adaptiveState
       (Adaptive.mkState None red 0 true (mkScores 0 0) 0 false) c).

(** [new TrafficLightController()]. *)
Definition new : Controller :=
  mkController (constPerDir (mkLight red 0)) fixed DEFAULT_SETTINGS
    (Fixed.mkState 0 0 false)
    (Adaptive.mkState None red 0 false (mkScores 0 0) 0 false)
    None.

(** [initialize(mode, settings)]. *)
Definition initialize (m : Mode) (s : Settings) (c : Controller) : Controller :=
  let c := set_mode_settings m s c in
  match m with
  | fixed => initializeFixedMode c
  | adaptive => initializeAdaptiveMode c
  end.

(** [advanceFixedPhase()]. *)
Definition advanceFixedPhase (c : Controller) : Controller :=
  let fs := fixedState c in
  setFixedLightState
    (set_fixedState
       (Fixed.mkState ((Fixed.currentPhase fs + 1) mod 6) 0 (Fixed.isActive fs))
       c).

(** [updateFixedMode(deltaTime)]. *)
Definition updateFixedMode (deltaTime : Q) (c : Controller) : Controller :=
  let fs := fixedState c in
  let c := set_fixedState
             (Fixed.mkState (Fixed.currentPhase fs)
                (Fixed.phaseTimer fs + deltaTime) (Fixed.isActive fs)) c in
  let timer := Fixed.phaseTimer (fixedState c) in
  match Fixed.currentPhase (fixedState c) with
  | 0%nat => (* NS green *)
      if Qgeb timer (GREEN_DURATION (settings c)) then advanceFixedPhase c else c
  | 1%nat => (* NS yellow *)
      if Qgeb timer (YELLOW_DURATION (settings c)) then advanceFixedPhase c else c
  | 2%nat => (* NS red (wait) *)
      if Qgeb timer 3000 then advanceFixedPhase c else c
  | 3%nat => (* WE green *)
      if Qgeb timer (GREEN_DURATION (settings c)) then advanceFixedPhase c else c
  | 4%nat => (* WE yellow *)
      if Qgeb timer (YELLOW_DURATION (settings c)) then advanceFixedPhase c else c
  | 5%nat => (* WE red (wait) *)
      if Qgeb timer 3000 then advanceFixedPhase c else c
  | _ => c
  end.

(** [x || 0] on a number. *)
Definition orZero (x : Q) : Q := if Qeq_bool x 0 then 0 else x.

(** [shouldSwitchInAdaptive()]; it is called with an active pair only. *)
Definition shouldSwitchInAdaptive (c : Controller) : bool :=
  let st := adaptiveState c in
  let otherPair :=
    match Adaptive.currentPair st with
    | Some WE => NS
    | _ => WE
    end in
  let currentScore :=
    match Adaptive.currentPair st with
    | Some p => orZero (score p (Adaptive.priorityScores st))
    | None => 0
    end in
  let otherScore := orZero (score otherPair (Adaptive.priorityScores st)) in
  Qgtb otherScore (currentScore * (15 # 10)) && Qgtb otherScore 10.

(** [getHighestPriorityPair()]. *)
Definition getHighestPriorityPair (c : Controller) : option Pair :=
  let weScore := orZero (scoreWE (Adaptive.priorityScores (adaptiveState c))) in
  let nsScore := orZero (scoreNS (Adaptive.priorityScores (adaptiveState c))) in
  if Qgtb weScore nsScore && Qgtb weScore 0 then Some WE
  else if Qgtb nsScore weScore && Qgtb nsScore 0 then Some NS
  else None.

(** [setAdaptiveLightState()]. *)
Definition setAdaptiveLightState (c : Controller) : Controller :=
  let c := setAllLightsRed c in
  let st := Adaptive.currentPhase (adaptiveState c) in
  match Adaptive.currentPair (adaptiveState c) with
  | Some WE => setLight east st (setLight west st c)
  | Some NS => setLight south st (setLight north st c)
  | None => c
  end.

Definition set_phase (ph : Color) (t : Q) (st : Adaptive.State) : Adaptive.State :=
  Adaptive.mkState (Adaptive.currentPair st) ph t (Adaptive.isActive st)
    (Adaptive.priorityScores st) (Adaptive.lastSwitchTime st)
    (Adaptive.firstCarTriggered st).

(** [startAdaptiveGreen()]. *)
Definition startAdaptiveGreen (c : Controller) : Controller :=
  setAdaptiveLightState
    (set_adaptiveState (set_phase green 0 (adaptiveState c)) c).

(** [startAdaptiveYellow()]. *)
Definition startAdaptiveYellow (c : Controller) : Controller :=
  setAdaptiveLightState
    (set_adaptiveState (set_phase yellow 0 (adaptiveState c)) c).

(** [startAdaptiveRed()]; [now] is [Date.now()]. *)
Definition startAdaptiveRed (now : Q) (c : Controller) : Controller :=
  let st := adaptiveState c in
  setAllLightsRed
    (set_adaptiveState
       (Adaptive.mkState (Adaptive.currentPair st) red 0 (Adaptive.isActive st)
          (Adaptive.priorityScores st) now (Adaptive.firstCarTriggered st))
       c).

(** [switchToAdaptivePair(pair)]. *)
Definition switchToAdaptivePair (pair : Pair) (c : Controller) : Controller :=
  let st := adaptiveState c in
  startAdaptiveGreen
    (set_adaptiveState
       (Adaptive.mkState (Some pair) (Adaptive.currentPhase st)
          (Adaptive.phaseTimer st) (Adaptive.isActive st)
          (Adaptive.priorityScores st) (Adaptive.lastSwitchTime st)
          (Adaptive.firstCarTriggered st))
       c).

(** [updateAdaptiveMode(deltaTime)]. *)
Definition updateAdaptiveMode (deltaTime now : Q) (c : Controller) : Controller :=
  let st := adaptiveState c in
  let c := set_adaptiveState
             (set_phase (Adaptive.currentPhase st)
                (Adaptive.phaseTimer st + deltaTime) st) c in
  match Adaptive.currentPair (adaptiveState c) with
  | None =>
      match getHighestPriorityPair c with
      | Some highestPriorityPair =>
          if Qgtb (score highestPriorityPair
                     (Adaptive.priorityScores (adaptiveState c))) 0
          then switchToAdaptivePair highestPriorityPair c
          else c
      | None => c
      end
  | Some currentPair =>
      match Adaptive.currentPhase (adaptiveState c) with
      | green =>
          if shouldSwitchInAdaptive c then startAdaptiveYellow c else c
      | yellow =>
          if Qgeb (Adaptive.phaseTimer (adaptiveState c))
                  (YELLOW_DURATION (settings c))
          then startAdaptiveRed now c
          else c
      | red =>
          if Qgeb (Adaptive.phaseTimer (adaptiveState c)) 2000
          then
            match getHighestPriorityPair c with
            | Some nextPair =>
                if negb (Pair_eqb nextPair currentPair)
                then switchToAdaptivePair nextPair c
                else startAdaptiveGreen c
            | None => c
            end
          else c
      end
  end.

(** [update(deltaTime, mode, settings)]. *)
Definition update (deltaTime : Q) (m : Mode) (s : Settings) (now : Q)
  (c : Controller) : Controller :=
  let c := set_mode_settings m s c in
  match m with
  | fixed =>
      let c := if Fixed.isActive (fixedState c) then c
               else initializeFixedMode c in
      updateFixedMode deltaTime c
  | adaptive =>
      let c := if Adaptive.isActive (adaptiveState c) then c
               else initializeAdaptiveMode c in
      updateAdaptiveMode deltaTime now c
  end.

(** [calculatePairScore(pair, sensorData)]. *)
Definition calculatePairScore (pair : Pair)
  (sensorData : perDir Sensor.SensorDatum) : Q :=
  let term (d : Direction) :=
    inject_Z (Z.of_nat (Sensor.carsWaiting (get d sensorData)))
    * (Sensor.waitTime (get d sensorData) / 1000) in
  let total (d : Direction) :=
    inject_Z (Z.of_nat (Sensor.totalCarsDetected (get d sensorData))) in
  match pair with
  | WE => term west + term east + total west + total east
  | NS => term north + term south + total north + total south
  end.

(** [updateAdaptiveLogic(sensorData, deltaTime)]. *)
Definition updateAdaptiveLogic (sensorData : perDir Sensor.SensorDatum)
  (c : Controller) : Controller :=
  match mode c with
  | adaptive =>
      if Adaptive.isActive (adaptiveState c)
      then
        let st := adaptiveState c in
        let weScore := calculatePairScore WE sensorData in
        let nsScore := calculatePairScore NS sensorData in
        mkController (lights c) (mode c) (settings c) (fixedState c)
          (Adaptive.mkState (Adaptive.currentPair st) (Adaptive.currentPhase st)
             (Adaptive.phaseTimer st) (Adaptive.isActive st)
             (mkScores weScore nsScore) (Adaptive.lastSwitchTime st)
             (Adaptive.firstCarTriggered st))
          (Some (Adaptive.currentPhase st))
      else c
  | fixed => c
  end.

(** Successive calls of [updateFixedMode], one per element of the list. *)
Definition runFixed (deltas : list Q) (c : Controller) : Controller :=
  fold_left (fun c dt => updateFixedMode dt c) deltas c.

(** Total time handed to the controller by a list of updates. *)
Definition accumulated (deltas : list Q) : Q := fold_right Qplus 0 deltas.

(** The duration a phase of the fixed cycle has to last before its
    transition: green for phases 0 and 3, yellow for 1 and 4, the 3 s
    clearance for 2 and 5. *)
Definition requiredDuration (s : Settings) (phase : nat) : option Q :=
  match phase with
  | 0%nat | 3%nat => Some (GREEN_DURATION s)
  | 1%nat | 4%nat => Some (YELLOW_DURATION s)
  | 2%nat | 5%nat => Some 3000
  | _ => None
  end.

(** The colours of the four approaches in a phase of the fixed cycle
    (0: NS green, 1: NS yellow, 2: all red, 3: WE green, 4: WE yellow,
    5: all red), in the order north, south, east, west. *)
Definition fixedColors (phase : nat) : perDir Color :=
  match phase with
  | 0%nat => mkPerDir green green red red
  | 1%nat => mkPerDir yellow yellow red red
  | 3%nat => mkPerDir red red green green
  | 4%nat => mkPerDir red red yellow yellow
  | _ => mkPerDir red red red red
  end.

(** A run of updates that takes a phase timer standing at [t] exactly to
    the duration [D]: every update but the last leaves the timer below
    [D], the last one brings it to [D]. *)
Fixpoint reachesExactly (D t : Q) (deltas : list Q) : bool :=
  match deltas with
  | [] => false
  | dt :: rest =>
      match rest with
      | [] => Qeq_bool (t + dt) D
      | _ => Qltb (t + dt) D && reachesExactly D (t + dt) rest
      end
  end.

(** The pair competing with a pair. *)
Definition otherPair (p : Pair) : Pair :=
  match p with WE => NS | NS => WE end.

(** The approaches of a pair. *)
Definition inPair (p : Pair) (d : Direction) : bool :=
  match p, d with
  | WE, west | WE, east | NS, north | NS, south => true
  | _, _ => false
  end.

(** One tick of the engine in adaptive mode as far as the controller is
    concerned: [update], then [updateAdaptiveLogic] with the sensor data of
    the tick ([GameEngine.update]). *)
Record Tick : Type := mkTick {
  tickDelta : Q;
  tickSettings : Settings;
  tickNow : Q;
  tickSensorData : perDir Sensor.SensorDatum
}.

Definition adaptiveTick (c : Controller) (t : Tick) : Controller :=
  updateAdaptiveLogic (tickSensorData t)
    (update (tickDelta t) adaptive (tickSettings t) (tickNow t) c).

Definition runAdaptive (ticks : list Tick) (c : Controller) : Controller :=
  fold_left adaptiveTick ticks c.

(** [setMode(mode)]. *)
Definition setMode (m : Mode) (c : Controller) : Controller :=
  let c := set_mode_settings m (settings c) c in
  match m with
  | fixed =>
      if negb (Fixed.isActive (fixedState c)) then initializeFixedMode c else c
  | adaptive =>
      if negb (Adaptive.isActive (adaptiveState c))
      then initializeAdaptiveMode c else c
  end.

(** [reset()]. *)
Definition reset (c : Controller) : Controller :=
  match mode c with
  | fixed =>
      let fs := fixedState c in
      initializeFixedMode
        (set_fixedState
           (Fixed.mkState (Fixed.currentPhase fs) (Fixed.phaseTimer fs) false) c)
  | adaptive =>
      let st := adaptiveState c in
      initializeAdaptiveMode
        (set_adaptiveState
           (Adaptive.mkState (Adaptive.currentPair st) (Adaptive.currentPhase st)
              (Adaptive.phaseTimer st) false (Adaptive.priorityScores st)
              (Adaptive.lastSwitchTime st) (Adaptive.firstCarTriggered st))
           c)
  end.

End TrafficLights.

(* ------------------------------------------------------------------ *)
(** * utils.js *)

Module Utils.
Local Open Scope R_scope.

(** [getDistance(x1, y1, x2, y2)]. *)
Definition getDistance (x1 y1 x2 y2 : R) : R :=
  let dx := x2 - x1 in
  let dy := y2 - y1 in
  sqrt (dx * dx + dy * dy).

(** [lerp(start, end, factor)]. *)
Definition lerp (start finish factor : R) : R :=
  start + (finish - start) * factor.

(** [clamp(value, min, max)]. *)
Definition clamp (value min max : R) : R := Rmin (Rmax value min) max.

(** [randomBetween(min, max)], the draw of [Math.random()] explicit; the
    arithmetic is that of the reals, the source rounds each operation. *)
Definition randomBetween (min max rnd : R) : R := rnd * (max - min) + min.

(** [randomInt(min, max)] on integer bounds. *)
Definition randomInt (min max : Z) (rnd : R) : Z :=
  (Int_part (rnd * IZR (max - min + 1)) + min)%Z.

(** [isPointInRect(px, py, rx, ry, rw, rh)]. *)
Definition isPointInRect (px py rx ry rw rh : R) : bool :=
  Rgeb px rx && Rleb px (rx + rw) && Rgeb py ry && Rleb py (ry + rh).

(** [smoothStep(edge0, edge1, x)]. *)
Definition smoothStep (edge0 edge1 x : R) : R :=
  let t := clamp ((x - edge0) / (edge1 - edge0)) 0 1 in
  t * t * (3 - 2 * t).

(** A point [{x, y}]. *)
Record Point : Type := mkPoint { x : R; y : R }.

(** [getBezierPoint(t, p0, p1, p2, p3)]; the arithmetic is that of the
    reals, the source rounds each operation. *)
Definition getBezierPoint (t : R) (p0 p1 p2 p3 : Point) : Point :=
  let cx := 3 * (x p1 - x p0) in
  let bx := 3 * (x p2 - x p1) - cx in
  let ax := x p3 - x p0 - cx - bx in
  let cy := 3 * (y p1 - y p0) in
  let by_ := 3 * (y p2 - y p1) - cy in
  let ay := y p3 - y p0 - cy - by_ in
  let tSquared := t * t in
  let tCubed := tSquared * t in
  {| x := ax * tCubed + bx * tSquared + cx * t + x p0;
     y := ay * tCubed + by_ * tSquared + cy * t + y p0 |}.

End Utils.

(* ------------------------------------------------------------------ *)
(** * Predicates on the lane-change search used by the statements *)

Module MobilSpec.
Local Open Scope R_scope.

(** The state of the search loop of [findLeadingVehicle] after the
    vehicles [seen]: the best vehicle so far and its distance. *)
Definition leaderState (vehicle : Vehicle) (seen : list Vehicle)
  (st : option Vehicle * option R) : Prop :=
  match st with
  | (Some leader, Some d) =>
      In leader seen
      /\ Veh.id leader <> Veh.id vehicle
      /\ Veh.u vehicle < Veh.u leader
      /\ d = Veh.u leader - Veh.u vehicle
      /\ (forall other, In other seen ->
            Veh.id other <> Veh.id vehicle -> Veh.u vehicle < Veh.u other ->
            Veh.u leader <= Veh.u other)
  | (None, None) =>
      forall other, In other seen ->
        Veh.id other = Veh.id vehicle \/ Veh.u other <= Veh.u vehicle
  | _ => False
  end.

End MobilSpec.

(* ------------------------------------------------------------------ *)
(** * Predicates on the sensors used by the statements *)

Module SensorSpec.
Import Config.

(** A car that [update] counts during the tick for the direction [d]: it
    comes from [d], the light of [d] is red, the car is in the detection
    zone and its flag says it has not been counted yet. *)
Definition newlyCounted (s : Sensor.SensorSystem) (lightStates : perDir Color)
  (d : Direction) (car : Sensor.Car) : bool :=
  Direction_eqb (Sensor.getDirection car) d
  && Color_eqb (get d lightStates) red
  && negb (Sensor._countedInDetector car)
  && Sensor.isCarInDetectionZone car (Sensor.getDetectionZone s d).

(** Two states of the system with the same geometry (the detection zones
    depend on nothing else). *)
Definition sameGeometry (s s' : Sensor.SensorSystem) : Prop :=
  Sensor.centerX s' = Sensor.centerX s
  /\ Sensor.centerY s' = Sensor.centerY s
  /\ Sensor.detectorDistance s' = Sensor.detectorDistance s.

(** [s'] differs from [s] at most in the entries of the direction [d]. *)
Definition touchesOnly (d : Direction) (s s' : Sensor.SensorSystem) : Prop :=
  sameGeometry s s'
  /\ forall d', d' <> d ->
       get d' (Sensor.sensorData s') = get d' (Sensor.sensorData s)
       /\ get d' (Sensor.totals s') = get d' (Sensor.totals s)
       /\ get d' (Sensor.waitingCars s') = get d' (Sensor.waitingCars s).

End SensorSpec.

(* ------------------------------------------------------------------ *)
(** * Predicates on the adaptive controller used by the statements *)

Module AdaptiveSpec.
Import Config.
Local Open Scope Q_scope.

(** What a controller in the clearance of an active pair looks like. *)
Definition inClearance (p : TrafficLights.Pair) (c : TrafficLights.Controller)
  : Prop :=
  TrafficLights.Adaptive.isActive (TrafficLights.adaptiveState c) = true
  /\ TrafficLights.Adaptive.currentPair (TrafficLights.adaptiveState c) = Some p
  /\ TrafficLights.Adaptive.currentPhase (TrafficLights.adaptiveState c) = red
  /\ TrafficLights.getLightStates c = constPerDir red.

Definition tied (c : TrafficLights.Controller) : Prop :=
  TrafficLights.scoreWE
    (TrafficLights.Adaptive.priorityScores (TrafficLights.adaptiveState c))
  == TrafficLights.scoreNS
       (TrafficLights.Adaptive.priorityScores (TrafficLights.adaptiveState c)).

Definition tiedTick (t : TrafficLights.Tick) : Prop :=
  TrafficLights.calculatePairScore TrafficLights.WE (TrafficLights.tickSensorData t)
  == TrafficLights.calculatePairScore TrafficLights.NS (TrafficLights.tickSensorData t).

End AdaptiveSpec.

(* ------------------------------------------------------------------ *)
(** * Sample objects used to run the definitions *)

Module Sample.
Local Open Scope R_scope.

(** A car as [Road.createVehicle] builds it (5 m long, no [length]
    property, default car-following model with [driverfactor = 1]), placed
    at [u] with the given identifier, lane, speed and flag. *)
Definition car (id : Z) (route : list nat) (lane : Z) (u speed : R)
  (mandatory : bool) : Vehicle :=
  {| Veh.id := id;
     Veh.route := Some route;
     Veh.roadID := None;
     Veh.u := u;
     Veh.lane := lane;
     Veh.v := IZR lane;
     Veh.speed := speed;
     Veh.acc := 0;
     Veh.len := 5;
     Veh.length := None;
     Veh.width := 2.5;
     Veh.type := "car";
     Veh.dt_LC := 4;
     Veh.dt_afterLC := 10;
     Veh.fracLaneOptical := 1;
     Veh.laneOld := lane;
     Veh.dvdt := 0;
     Veh.idmModel := IDM.newDefault 0.5;
     Veh.mandatoryLaneChange := mandatory;
     Veh.tacticalLaneChange := false;
     Veh.isRegularVeh := Some RoadSystem.isCarOrTruck |}.

(** Five draws of [Math.random()]. *)
Definition draws : RoadSystem.Draws := RoadSystem.mkDraws 0.5 0.5 0.3 0.5 0.5.

(** A lane-change model with threshold 0.1 and right bias 0.05. *)
Definition lowBiasModel : MOBIL.MOBILModel :=
  MOBIL.new 0.2 0.1 0.05 MOBIL.safeDecelDefault.

(** A lane-change model with a safe-deceleration limit of 2 m/s^2. *)
Definition strictModel : MOBIL.MOBILModel := MOBIL.new 0.2 0.1 0.3 2.

(** Sensor data with the given numbers of detected vehicles on the north,
    south, east and west approaches and nobody waiting. *)
Definition detected (n s e w : nat) : Config.perDir Sensor.SensorDatum :=
  Config.mkPerDir (Sensor.mkDatum 0 0 [] None n) (Sensor.mkDatum 0 0 [] None s)
                  (Sensor.mkDatum 0 0 [] None e) (Sensor.mkDatum 0 0 [] None w).

(** A car coming from the north, standing in the detection zone of the
    approach at the given ordinate, not yet counted. *)
Definition northCar (id : Z) (y : Q) : Sensor.Car :=
  Sensor.mkCar id Config.north 600 y Sensor.waiting 0 false.

(** Light states: all red, and north green with the others red. *)
Definition allRed : Config.perDir Config.Color := Config.constPerDir Config.red.
Definition northGreen : Config.perDir Config.Color :=
  Config.set Config.north Config.green allRed.

(** The adaptive controller after initialisation and the first-vehicle
    trigger for north-south: the pair NS is green. *)
Definition nsGreen : TrafficLights.Controller :=
  TrafficLights.switchToAdaptivePair TrafficLights.NS
    (TrafficLights.initialize Config.adaptive Config.DEFAULT_SETTINGS
       TrafficLights.new).

(** The same controller in the all-red clearance that follows the yellow
    of the pair NS. *)
Definition nsClearance : TrafficLights.Controller :=
  TrafficLights.startAdaptiveRed 0
    (TrafficLights.startAdaptiveYellow nsGreen).

End Sample.

(* ------------------------------------------------------------------ *)
(** * Predicates on the road segment used by the statements *)

Module RoadSpec.
Local Open Scope R_scope.

(** The test of [processConnections] on a vehicle of road [this] for the
    connection [c]: past the source offset and routed through [c]. *)
Definition moves (net : RoadSystem.Network) (this : RoadSystem.Road)
  (c : RoadSystem.Connection) (w : Vehicle) : bool :=
  Rgeb (Veh.u w) (RoadSystem.uSource c)
  && RoadSystem.shouldUseConnection net this w c.

(** The vehicle as [transferVehicle] hands it to the target road. *)
Definition transferred (net : RoadSystem.Network) (c : RoadSystem.Connection)
  (w : Vehicle) : Vehicle :=
  Veh.set_route (RoadSystem.popRoute (Veh.route w))
    (Veh.set_roadID (RoadSystem.targetRoadID net c)
       (Veh.set_u (RoadSystem.uTarget c) w)).

(** [network.reduce((sum, road) => sum + road.veh.length, 0)]. *)
Definition totalVehicles (net : RoadSystem.Network) : nat :=
  fold_left (fun sum road => (sum + List.length (RoadSystem.veh road))%nat)
    net 0%nat.

End RoadSpec.

(* ------------------------------------------------------------------ *)
(** * Relations between a vehicle before and after a pass of the road *)

Module PassSpec.
Local Open Scope R_scope.

(** [w'] is [w] with another acceleration, within the limits of
    [calcAccelerations]. *)
Definition accUpdated (w w' : Vehicle) : Prop :=
  w' = RoadSystem.set_acc (Veh.acc w') w /\ -6 <= Veh.acc w' <= 3.

(** [w'] is [w] after the pass of [changeLanes] on a road of [n] lanes:
    same identity, position, speed, acceleration and route; the lane is
    kept, or it is a lane of the road taken by a change that starts now,
    which the vehicle was free to make. *)
Definition laneChanged (n : Z) (w w' : Vehicle) : Prop :=
  Veh.id w' = Veh.id w
  /\ Veh.u w' = Veh.u w
  /\ Veh.speed w' = Veh.speed w
  /\ Veh.acc w' = Veh.acc w
  /\ Veh.route w' = Veh.route w
  /\ (Veh.lane w' = Veh.lane w
      \/ ((0 <= Veh.lane w' < n)%Z
          /\ Veh.laneOld w' = Veh.lane w
          /\ Veh.dt_afterLC w' = 0
          /\ Veh.dt_LC w' = 4
          /\ Veh.dt_LC w <= Veh.dt_afterLC w + RoadSystem.DT)).

End PassSpec.

(* ------------------------------------------------------------------ *)
(** * simulationLoop.js : the physics step *)

Module SimulationLoop.
Local Open Scope R_scope.

(** [CONFIG.TURN_PROBABILITIES], which [setTurnProbabilities] may
    overwrite. *)
Record TurnProbabilities : Type := mkTurnProbabilities {
  STRAIGHT : R;
  RIGHT : R;
  LEFT : R
}.

Definition TURN_PROBABILITIES : TurnProbabilities :=
  mkTurnProbabilities 0.6 0.25 0.15.

(** [CONFIG.GEOMETRIC.LANE_CHANGE_DISTANCE]. *)
Definition LANE_CHANGE_DISTANCE : R := 50.

(** The three route options of an entrance: straight, right, left. *)
Record RouteOptions : Type := mkRouteOptions {
  optStraight : list nat;
  optRight : list nat;
  optLeft : list nat
}.

(** The table [routes] of [updateVehicleInflow]. *)
Definition routesEast : RouteOptions := (mkRouteOptions [0] [0; 5] [0; 3])%nat.
Definition routesWest : RouteOptions := (mkRouteOptions [1] [1; 3] [1; 5])%nat.
Definition routesNorth : RouteOptions := (mkRouteOptions [2; 3] [2; 0] [2; 1])%nat.
Definition routesSouth : RouteOptions := (mkRouteOptions [4; 5] [4; 1] [4; 0])%nat.

(** The closure [selectRoute] of [updateVehicleInflow], its draw [r]
    explicit. *)
Definition selectRoute (p : TurnProbabilities) (routeOptions : RouteOptions)
  (r : R) : list nat :=
  if Rltb r (STRAIGHT p) then optStraight routeOptions
  else if Rltb r (STRAIGHT p + RIGHT p) then optRight routeOptions
  else optLeft routeOptions.

(** The draws of one call of [updateVehicleInflow]: for each entrance the
    draw of [selectRoute] and those of [updateBCup]. *)
Record InflowDraws : Type := mkInflowDraws {
  pickEast : R;  spawnEast : RoadSystem.Draws;
  pickWest : R;  spawnWest : RoadSystem.Draws;
  pickNorth : R; spawnNorth : RoadSystem.Draws;
  pickSouth : R; spawnSouth : RoadSystem.Draws
}.

(** [updateVehicleInflow(dt)]: the four entrances are the roads 0, 1, 2 and
    4 of the network of the intersection, which has six roads. *)
Definition updateVehicleInflow (p : TurnProbabilities) (dt : R)
  (d : InflowDraws) (net : RoadSystem.Network) : RoadSystem.Network :=
  let net0 :=
    RoadSystem.updRoad 0
      (RoadSystem.updateBCup 1200 dt [selectRoute p routesEast (pickEast d)]
         (spawnEast d)) net in
  let net1 :=
    RoadSystem.updRoad 1
      (RoadSystem.updateBCup 1000 dt [selectRoute p routesWest (pickWest d)]
         (spawnWest d)) net0 in
  let net2 :=
    RoadSystem.updRoad 2
      (RoadSystem.updateBCup 800 dt [selectRoute p routesNorth (pickNorth d)]
         (spawnNorth d)) net1 in
  RoadSystem.updRoad 4
    (RoadSystem.updateBCup 800 dt [selectRoute p routesSouth (pickSouth d)]
       (spawnSouth d)) net2.

(** Body of [enforceLaneAssignments] for one vehicle of [road]: every
    alternative trajectory to the next road of the route is looked at. *)
Definition enforceVehicle (road : RoadSystem.Road)
  (trajAlt : list RoadSystem.TrajAlt) (w : Vehicle) : Vehicle :=
  match Veh.route w with
  | Some (_ :: targetRoadID :: _) =>
      fold_left
        (fun (w : Vehicle) (t : RoadSystem.TrajAlt) =>
           if Nat.eqb (RoadSystem.altRoadID t) targetRoadID
           then
             let distanceToTurn := RoadSystem.umin t - Veh.u w in
             if Rltb distanceToTurn LANE_CHANGE_DISTANCE
                && Rgtb distanceToTurn 0
             then
               match RoadSystem.turnType t with
               | RoadSystem.turnLeft =>
                   if negb (Z.eqb (Veh.lane w) 0)
                   then Veh.set_mandatoryLaneChange true w else w
               | RoadSystem.turnRight =>
                   if negb (Z.eqb (Veh.lane w) (RoadSystem.nLanes road - 1))
                   then Veh.set_mandatoryLaneChange true w else w
               end
             else w
           else w)
        trajAlt w
  | _ => w
  end.

(** A pass over the network with the position of each road. *)
Definition mapRoads (f : nat -> RoadSystem.Road -> RoadSystem.Road)
  (net : RoadSystem.Network) : RoadSystem.Network :=
  map (fun ir_road => f (fst ir_road) (snd ir_road))
    (combine (seq 0 (List.length net)) net).

(** [enforceLaneAssignments()]; [trajAlt ir] is the array [trajAlt] of the
    road at position [ir], filled once by the intersection. *)
Definition enforceLaneAssignments (trajAlt : nat -> list RoadSystem.TrajAlt)
  (net : RoadSystem.Network) : RoadSystem.Network :=
  mapRoads
    (fun ir road =>
       RoadSystem.set_veh
         (map (enforceVehicle road (trajAlt ir)) (RoadSystem.veh road)) road)
    net.

(** [cleanupVehicles()]. *)
Definition cleanupVehicles (net : RoadSystem.Network) : RoadSystem.Network :=
  map (fun road =>
         RoadSystem.set_veh
           (filter (fun w => Rleb (Veh.u w) (RoadSystem.roadLen road + 10))
              (RoadSystem.veh road))
           road)
    net.

(** [updatePhysics(dt)]: the seven passes in their order. *)
Definition updatePhysics (p : TurnProbabilities)
  (trajAlt : nat -> list RoadSystem.TrajAlt) (dt : R) (d : InflowDraws)
  (net : RoadSystem.Network) : RoadSystem.Network :=
  let net1 := map RoadSystem.calcAccelerations net in
  let net2 := updateVehicleInflow p dt d net1 in
  let net3 :=
    fold_left (fun n ir => RoadSystem.processConnections ir n)
      (seq 0 (List.length net2)) net2 in
  let net4 := enforceLaneAssignments trajAlt net3 in
  let net5 := mapRoads (fun ir road => RoadSystem.changeLanes (trajAlt ir) road) net4 in
  let net6 := map RoadSystem.updateSpeedPositions net5 in
  cleanupVehicles net6.

End SimulationLoop.

(* ------------------------------------------------------------------ *)
(** * Predicates on the light states used by the statements *)

Module LightSpec.
Import Config.

(** No two crossing approaches are open together: the approaches of a pair
    show the same colour and one of the two pairs is red. *)
Definition conflictFree (colors : perDir Color) : Prop :=
  get north colors = get south colors
  /\ get east colors = get west colors
  /\ (get north colors = red \/ get east colors = red).

(** A fixed-mode controller in step with its phase. *)
Definition inFixedCycle (c : TrafficLights.Controller) : Prop :=
  TrafficLights.Fixed.isActive (TrafficLights.fixedState c) = true
  /\ (TrafficLights.Fixed.currentPhase (TrafficLights.fixedState c) < 6)%nat
  /\ TrafficLights.getLightStates c
     = TrafficLights.fixedColors
         (TrafficLights.Fixed.currentPhase (TrafficLights.fixedState c)).

End LightSpec.

(* ------------------------------------------------------------------ *)
(** * simulationLoop.js : the frame loop *)

Module GameLoop.
Import Config.
Local Open Scope Q_scope.

(** The timing fields of a [SimulationLoop]; times in the units of the
    source (timestamps and [maxFrameTime] in ms, the others in s). *)
Record Clock : Type := mkClock {
  isRunning : bool;
  lastTimestamp : Q;
  totalSimulationTime : Q;
  physicsDt : Q;
  accumulator : Q;
  maxFrameTime : Q
}.

(** The fields as the constructor sets them; [CONFIG.PHYSICS.DT] is
    [3.5 / 30]. *)
Definition new : Clock := mkClock false 0 0 (35 # 300) 0 50.

(** [start()], [now] being [performance.now()]. *)
Definition start (now : Q) (k : Clock) : Clock :=
  if isRunning k then k
  else mkClock true now (totalSimulationTime k) (physicsDt k) (accumulator k)
         (maxFrameTime k).

(** The [while] loop of [gameLoop]: [left] is the number of iterations the
    bound [physicsIterations < 5] still allows; [updatePhysics i] is the
    physics step of iteration [i] on the world.  The times are rationals,
    the source rounds each operation. *)
Fixpoint physicsLoop {W : Type} (updatePhysics : nat -> W -> W) (left : nat)
  (physicsIterations : nat) (k : Clock) (w : W) : Clock * W :=
  match left with
  | O => (k, w)
  | S left' =>
      if Qgeb (accumulator k) (physicsDt k)
      then
        physicsLoop updatePhysics left' (S physicsIterations)
          (mkClock (isRunning k) (lastTimestamp k)
             (totalSimulationTime k + physicsDt k) (physicsDt k)
             (accumulator k - physicsDt k) (maxFrameTime k))
          (updatePhysics physicsIterations w)
      else (k, w)
  end.

(** [Math.min] on two numbers. *)
Definition min (a b : Q) : Q := if Qle_bool a b then a else b.

(** The frame time of [gameLoop], in seconds. *)
Definition frameTime (currentTimestamp : Q) (k : Clock) : Q :=
  min ((currentTimestamp - lastTimestamp k) / 1000) (maxFrameTime k / 1000).

(** [gameLoop(currentTimestamp)] without its performance counters: the
    clock, the world, and the interpolation factor handed to [render]
    ([None] when the loop is not running and returns at once). *)
Definition gameLoop {W : Type} (updatePhysics : nat -> W -> W)
  (currentTimestamp : Q) (k : Clock) (w : W) : Clock * W * option Q :=
  if negb (isRunning k) then (k, w, None)
  else
    let k1 := mkClock (isRunning k) currentTimestamp (totalSimulationTime k)
                (physicsDt k) (accumulator k + frameTime currentTimestamp k)
                (maxFrameTime k) in
    let '(k2, w2) := physicsLoop updatePhysics 5 0 k1 w in
    let alpha := accumulator k2 / physicsDt k2 in
    (k2, w2, Some alpha).

End GameLoop.

(* ------------------------------------------------------------------ *)
(** * cars.js : the route of a [Car] *)

Module Cars.
Import Config.
Local Open Scope R_scope.

(** [CONFIG.TURN_TYPES]. *)
Inductive TurnType : Type := LEFT | RIGHT | STRAIGHT.

(** An element of a route array: a direction name, the string
    ['intersection'], or a road identifier. *)
Inductive RouteElem : Type :=
| dirElem (d : Direction)
| intersectionElem
| roadElem (id : nat).

Definition Route : Type := list RouteElem.

(** [from === to] on two elements. *)
Definition RouteElem_eqb (a b : RouteElem) : bool :=
  match a, b with
  | dirElem x, dirElem y => Direction_eqb x y
  | intersectionElem, intersectionElem => true
  | roadElem i, roadElem j => Nat.eqb i j
  | _, _ => false
  end.

(** A route of [CONFIG.ROUTES]. *)
Definition ofRoads (ids : list nat) : Route := map roadElem ids.

(** The array [directions] of [calculateToDirection] and the index of a
    direction in it. *)
Definition directions : list Direction := [north; east; south; west].

Definition indexOf (d : Direction) : nat :=
  match d with north => 0 | east => 1 | south => 2 | west => 3 end.

(** [calculateToDirection()]; [turnType] is [this.turnType], which is
    [undefined] ([None]) until the constructor assigns it. *)
Definition calculateToDirection (fromDirection : Direction)
  (turnType : option TurnType) : Direction :=
  let fromIndex := indexOf fromDirection in
  match turnType with
  | Some LEFT => nth ((fromIndex + 3) mod 4) directions fromDirection
  | Some RIGHT => nth ((fromIndex + 1) mod 4) directions fromDirection
  | _ => fromDirection
  end.

(** [calculateTurnType()], the draw explicit. *)
Definition calculateTurnType (p : SimulationLoop.TurnProbabilities)
  (turnChance : R) : TurnType :=
  if Rltb turnChance (SimulationLoop.LEFT p) then LEFT
  else if Rltb turnChance (SimulationLoop.LEFT p + SimulationLoop.RIGHT p)
       then RIGHT
       else STRAIGHT.

(** [getRoadIdFromDirection(direction, isExit)]. *)
Definition getRoadIdFromDirection (e : RouteElem) (isExit : bool) : nat :=
  match e with
  | dirElem east => 0
  | dirElem west => 1
  | dirElem north => if isExit then 3 else 2
  | dirElem south => if isExit then 5 else 4
  | _ => 0
  end.

(** [convertRouteFormat()] as a function of [this.route]. *)
Definition convertRouteFormat (route : Route) : Route :=
  match route with
  | [from; intersectionElem; to] =>
      if RouteElem_eqb from to
      then
        match from with
        | dirElem east => ofRoads [0]
        | dirElem west => ofRoads [1]
        | dirElem north => ofRoads [2; 3]
        | dirElem south => ofRoads [4; 5]
        | _ => route
        end
      else
        match getRoadIdFromDirection from false,
              getRoadIdFromDirection to true with
        | 0, 5 => ofRoads [0; 5]
        | 0, 3 => ofRoads [0; 3]
        | 1, 3 => ofRoads [1; 3]
        | 1, 5 => ofRoads [1; 5]
        | 2, 0 => ofRoads [2; 0]
        | 2, 1 => ofRoads [2; 1]
        | 4, 1 => ofRoads [4; 1]
        | 4, 0 => ofRoads [4; 0]
        | _, _ => route
        end
  | _ => route
  end%nat.

(** The part of a [Car] that the constructor derives from the direction,
    the route and the draw of the turn type. *)
Record Car : Type := mkCar {
  fromDirection : Direction;
  route : Route;
  lane : Z;
  turnType : TurnType;
  toDirection : option RouteElem;
  roadId : nat
}.

(** [new Car({ direction, route, lane, roadId })]: the statements of the
    constructor that set the fields above, in their order.  [route] and
    [roadId] default to [null]; a road identifier 0 is falsy. *)
Definition new (direction : Direction) (route : option Route) (lane : Z)
  (roadId : option nat) (p : SimulationLoop.TurnProbabilities)
  (turnChance : R) : Car :=
  let route0 :=
    match route with
    | Some r => r
    | None =>
        [dirElem direction; intersectionElem;
         dirElem (calculateToDirection direction None)]
    end in
  let turnType := calculateTurnType p turnChance in
  let toDirection := nth_error route0 2 in
  let roadId :=
    match roadId with
    | Some (S n) => S n
    | _ => getRoadIdFromDirection (dirElem direction) false
    end in
  mkCar direction (convertRouteFormat route0) lane turnType toDirection roadId.

End Cars.

(* ------------------------------------------------------------------ *)
(** * The route tables used by the statements *)

Module CarSpec.
Import Config.

(** The route of the inflow table of [updateVehicleInflow] for an entrance
    and a turn. *)
Definition tableRoute (d : Direction) (t : Cars.TurnType) : list nat :=
  let options :=
    match d with
    | east => SimulationLoop.routesEast
    | west => SimulationLoop.routesWest
    | north => SimulationLoop.routesNorth
    | south => SimulationLoop.routesSouth
    end in
  match t with
  | Cars.STRAIGHT => SimulationLoop.optStraight options
  | Cars.RIGHT => SimulationLoop.optRight options
  | Cars.LEFT => SimulationLoop.optLeft options
  end.

End CarSpec.

(* ------------------------------------------------------------------ *)
(** * statistics.js : class Statistics *)

Module Statistics.
Import Config.
Local Open Scope Q_scope.

Record Statistics : Type := mkStatistics {
  totalCarsPassed : nat;
  totalWaitTime : Q;
  currentCars : nat;
  waitTimes : list Q
}.

(** [reset()]; the constructor and [initialize()] call it. *)
Definition reset : Statistics := mkStatistics 0 0 0 [].

(** [update(cars, deltaTime)]. *)
Definition update (cars : list Sensor.Car) (s : Statistics) : Statistics :=
  mkStatistics (totalCarsPassed s) (totalWaitTime s) (List.length cars)
    (waitTimes s).

(** [recordCarCompletion(car)]. *)
Definition recordCarCompletion (s : Statistics) (car : Sensor.Car) : Statistics :=
  let waitTime := Sensor.getWaitTime car in
  if Qgtb waitTime 0
  then mkStatistics (S (totalCarsPassed s)) (totalWaitTime s + waitTime)
         (currentCars s) (waitTimes s ++ [waitTime])
  else mkStatistics (S (totalCarsPassed s)) (totalWaitTime s)
         (currentCars s) (waitTimes s).

(** The object returned by [getStats()]. *)
Record Stats : Type := mkStats {
  statsTotalCarsPassed : nat;
  averageWaitTime : Q;
  statsCurrentCars : nat
}.

(** [getStats()]; the sum and the quotients are those of the rationals,
    the source rounds each operation. *)
Definition getStats (s : Statistics) : Stats :=
  let avgWaitTime :=
    if Nat.ltb 0 (List.length (waitTimes s))
    then fold_left (fun sum time => sum + time) (waitTimes s) 0
         / inject_Z (Z.of_nat (List.length (waitTimes s)))
    else 0 in
  mkStats (totalCarsPassed s) (avgWaitTime / 1000) (currentCars s).

End Statistics.

(* ------------------------------------------------------------------ *)
(** * Quantities on completed cars used by the statements *)

Module StatisticsSpec.
Import Config.
Local Open Scope Q_scope.

(** The wait times of the cars that waited, in the order of the cars. *)
Definition positiveWaits (cars : list Sensor.Car) : list Q :=
  filter (fun t => Qgtb t 0) (map Sensor.getWaitTime cars).

(** The numbers of a list added up from 0 in the order of the list. *)
Definition sum (l : list Q) : Q := fold_left Qplus l 0.

End StatisticsSpec.

(* ------------------------------------------------------------------ *)
(** * Quantities on a zone of a road used by the statements *)

Module ZoneSpec.
Local Open Scope R_scope.

(** The test of the loops of [getVehicleCount] and [getAverageSpeed]:
    position in [[uStart, uEnd]] and, when a lane is given, that lane. *)
Definition inZone (uStart uEnd : R) (lane : option Z) (w : Vehicle) : bool :=
  Rgeb (Veh.u w) uStart && Rleb (Veh.u w) uEnd
  && match lane with
     | None => true
     | Some l => Z.eqb (Veh.lane w) l
     end.

(** The vehicles of the zone, in the order of the road. *)
Definition zone (uStart uEnd : R) (lane : option Z) (r : RoadSystem.Road)
  : list Vehicle :=
  filter (inZone uStart uEnd lane) (RoadSystem.veh r).

(** The speeds added up from 0 in the order of the list. *)
Definition totalSpeed (l : list Vehicle) : R :=
  fold_left (fun total w => total + Veh.speed w) l 0.

End ZoneSpec.

(* ------------------------------------------------------------------ *)
(** * Series of inflow calls used by the statements *)

Module InflowSpec.
Local Open Scope R_scope.

(** The arguments of one call of [updateBCup] and the values it draws. *)
Record Call : Type := mkCall {
  flow : R;
  dt : R;
  possibleRoutes : list (list nat);
  draws : RoadSystem.Draws
}.

(** A series of calls of [updateBCup] on one road. *)
Definition run (calls : list Call) (r : RoadSystem.Road) : RoadSystem.Road :=
  fold_left
    (fun r c => RoadSystem.updateBCup (flow c) (dt c) (possibleRoutes c) (draws c) r)
    calls r.

End InflowSpec.

(* ================================================================== *)
(** * Properties *)

(* ------------------------------------------------------------------ *)
(** ** Car-following law *)

Section CarFollowing.
Local Open Scope R_scope.

Lemma Rltb_true (x y : R) : Rltb x y = true <-> x < y.
Proof. unfold Rltb; destruct (Rlt_dec x y); split; intros; try lra; congruence. Qed.

Lemma Rltb_false (x y : R) : Rltb x y = false <-> y <= x.
Proof. unfold Rltb; destruct (Rlt_dec x y); split; intros; try lra; congruence. Qed.

Lemma Rleb_true (x y : R) : Rleb x y = true <-> x <= y.
Proof. unfold Rleb; destruct (Rle_dec x y); split; intros; try lra; congruence. Qed.

Lemma Rleb_false (x y : R) : Rleb x y = false <-> y < x.
Proof. unfold Rleb; destruct (Rle_dec x y); split; intros; try lra; congruence. Qed.

(** The value returned by [calcAccDet] never falls below [-bmax], for any
    gap (a [NaN] gap included). *)
Lemma calcAccDet_ge_bmax (m : IDM.IDMModel) (s : option R) (v vl al : R) :
  - IDM.bmax m <= IDM.calcAccDet m s v vl al.
Proof. unfold IDM.calcAccDet. apply Rmax_l. Qed.

(** With a positive gap and a non-negative speed the interaction branch is
    the one taken. *)
Lemma accInt_active (m : IDM.IDMModel) (s v vl : R) :
  0 < s -> 0 <= v ->
  IDM.accInt m (Some s) v vl
  = - IDM.aeff m * (IDM.sstar m v vl / Rmax s (IDM.s0 m)) ^ 2.
Proof.
  intros Hs Hv. unfold IDM.accInt, Rgtb, Rgeb.
  assert (E1 : Rltb 0 s = true) by (apply Rltb_true; exact Hs).
  assert (E2 : Rleb 0 v = true) by (apply Rleb_true; exact Hv).
  rewrite E1, E2. reflexivity.
Qed.

(** The free-flow term is bounded above by the effective acceleration
    [aeff = a * driverfactor]. *)
Lemma accFree_le_aeff (m : IDM.IDMModel) (v : R) :
  0 <= IDM.aeff m -> 0 < IDM.v0eff m -> IDM.accFree m v <= IDM.aeff m.
Proof.
  intros Ha Hv0. unfold IDM.accFree.
  destruct (Rlt_dec v (IDM.v0eff m)) as [Hlt | Hge].
  - assert (H4 : 0 <= (v / IDM.v0eff m) ^ 4).
    { replace ((v / IDM.v0eff m) ^ 4)
        with (((v / IDM.v0eff m) ^ 2) * ((v / IDM.v0eff m) ^ 2)) by ring.
      apply Rmult_le_pos; apply pow2_ge_0. }
    assert (H : IDM.aeff m * (v / IDM.v0eff m) ^ 4 >= 0).
    { apply Rle_ge. apply Rmult_le_pos; assumption. }
    lra.
  - assert (Hq : 1 <= v / IDM.v0eff m).
    { apply Rmult_le_reg_r with (r := IDM.v0eff m); [exact Hv0 |].
      unfold Rdiv. rewrite Rmult_assoc, Rinv_l by lra. lra. }
    assert (H : IDM.aeff m * (v / IDM.v0eff m - 1) >= 0).
    { apply Rle_ge. apply Rmult_le_pos; lra. }
    lra.
Qed.

End CarFollowing.

Section CarFollowingClaims.
Local Open Scope R_scope.

(** C1 (as amended).  For every gap [s > 0], own speed [v >= 0] and leader
    speed [vl], [calcAccDet] returns [max(-bmax, accFree + accInt)] with
    [accFree = aeff*(1 - (v/v0eff)^4)] below the effective desired speed and
    [aeff*(1 - v/v0eff)] otherwise, [accInt = -aeff*(sstar/max(s,s0))^2] and
    [sstar = s0 + max(0, v*T + 0.5*v*(v - vl)/sqrt(aeff*b))]; the result is
    at least [-bmax]; and, for a model with non-negative effective
    acceleration and positive effective desired speed, the free-flow term
    is at most [aeff = a * driverfactor] (not [a]). *)
Theorem calcAccDet_law (m : IDM.IDMModel) (s v vl al : R) :
  0 < s -> 0 <= v ->
  0 <= IDM.a m * IDM.driverfactor m ->
  0 < Rmin (Rmin (IDM.v0 m * IDM.driverfactor m * IDM.alpha_v0 m)
                 (IDM.speedlimit m)) (IDM.speedmax m) ->
  let v0eff := Rmin (Rmin (IDM.v0 m * IDM.driverfactor m * IDM.alpha_v0 m)
                          (IDM.speedlimit m)) (IDM.speedmax m) in
  let aeff := IDM.a m * IDM.driverfactor m in
  let accFree := if Rlt_dec v v0eff
                 then aeff * (1 - (v / v0eff) ^ 4)
                 else aeff * (1 - v / v0eff) in
  let sstar := IDM.s0 m
               + Rmax 0 (v * IDM.T m
                         + 0.5 * v * (v - vl) / sqrt (aeff * IDM.b m)) in
  let accInt := - aeff * (sstar / Rmax s (IDM.s0 m)) ^ 2 in
  IDM.calcAccDet m (Some s) v vl al = Rmax (- IDM.bmax m) (accFree + accInt)
  /\ - IDM.bmax m <= IDM.calcAccDet m (Some s) v vl al
  /\ accFree <= aeff.
Proof.
  intros Hs Hv Ha Hv0. cbv zeta.
  split; [| split].
  - unfold IDM.calcAccDet. rewrite (accInt_active m s v vl Hs Hv). reflexivity.
  - apply calcAccDet_ge_bmax.
  - exact (accFree_le_aeff m v Ha Hv0).
Qed.

(** The default model with the random draw 0.75: [driverfactor = 1.05]. *)
Lemma v0eff_default_075 : IDM.v0eff (IDM.newDefault 0.75) = 15.75.
Proof.
  unfold IDM.v0eff, IDM.newDefault, IDM.new; simpl.
  rewrite (Rmin_left (15 * (1 + 0.2 * (0.75 - 0.5)) * 1) 50) by lra.
  rewrite Rmin_left by lra. lra.
Qed.

Lemma calcAccDet_law_witness :
  let m := IDM.newDefault 0.75 in
  - IDM.bmax m <= IDM.calcAccDet m (Some 10) 5 5 0
  /\ IDM.accFree m 5 <= IDM.a m * IDM.driverfactor m.
Proof.
  intro m.
  assert (Ha : 0 <= IDM.a m * IDM.driverfactor m) by (subst m; simpl; lra).
  assert (Hv0 : 0 < Rmin (Rmin (IDM.v0 m * IDM.driverfactor m * IDM.alpha_v0 m)
                               (IDM.speedlimit m)) (IDM.speedmax m)).
  { change (0 < IDM.v0eff m). subst m. rewrite v0eff_default_075. lra. }
  destruct (calcAccDet_law m 10 5 5 0 ltac:(lra) ltac:(lra) Ha Hv0)
    as [_ [Hb Hf]].
  split; [exact Hb | exact Hf].
Defined.

(** C1, counterexample to the bound by [a]: the default model with
    [Math.random() = 0.75] has [a = 2] and [driverfactor = 1.05]; at gap
    10 and speed 0 the free-flow term of [calcAccDet] is 2.1. *)
Lemma accFree_exceeds_a :
  let m := IDM.newDefault 0.75 in
  (0 < 10 /\ 0 <= 0) /\ IDM.a m = 2 /\ IDM.accFree m 0 = 2.1
  /\ ~ (IDM.accFree m 0 <= IDM.a m).
Proof.
  intro m.
  assert (E : IDM.accFree m 0 = 2.1).
  { unfold IDM.accFree. subst m. rewrite v0eff_default_075.
    destruct (Rlt_dec 0 15.75) as [_ | H]; [| lra].
    unfold IDM.aeff, IDM.newDefault, IDM.new; simpl.
    replace (0 / 15.75) with 0 by lra. lra. }
  split; [lra |]. split; [reflexivity |]. split; [exact E |].
  rewrite E. subst m; simpl. lra.
Qed.

End CarFollowingClaims.

(* ------------------------------------------------------------------ *)
(** ** Lane-change decision *)

Section LaneChange.
Local Open Scope R_scope.

(** The search loops leave their state alone on a lane where no vehicle
    qualifies. *)
Lemma findFollowingVehicle_none (vehicle : Vehicle) (laneVehicles : list Vehicle) :
  (forall other, In other laneVehicles ->
     Veh.id other = Veh.id vehicle \/ Veh.u vehicle <= Veh.u other) ->
  MOBIL.findFollowingVehicle vehicle laneVehicles = None.
Proof.
  intro H. unfold MOBIL.findFollowingVehicle.
  assert (G : forall (st : option Vehicle * option R),
             fold_left
               (fun (st : option Vehicle * option R) (other : Vehicle) =>
                  if negb (Z.eqb (Veh.id other) (Veh.id vehicle))
                     && Rltb (Veh.u other) (Veh.u vehicle)
                  then
                    let distance := Veh.u vehicle - Veh.u other in
                    if MOBIL.belowMin distance (snd st)
                    then (Some other, Some distance)
                    else st
                  else st)
               laneVehicles st = st).
  { induction laneVehicles as [| o l IH]; intro st; simpl; [reflexivity |].
    destruct (H o (or_introl eq_refl)) as [E | E].
    - rewrite E, Z.eqb_refl. simpl. apply IH. intros; apply H; right; assumption.
    - assert (F : Rltb (Veh.u o) (Veh.u vehicle) = false)
        by (apply Rltb_false; exact E).
      rewrite F, andb_false_r. apply IH. intros; apply H; right; assumption. }
  rewrite G. reflexivity.
Qed.

(** The follower search and the leader search read [id] and [u] of the
    candidate only. *)
Lemma findFollowingVehicle_flag (bf : bool) (vehicle : Vehicle) (l : list Vehicle) :
  MOBIL.findFollowingVehicle (Veh.set_mandatoryLaneChange bf vehicle) l
  = MOBIL.findFollowingVehicle vehicle l.
Proof. reflexivity. Qed.

Lemma findLeadingVehicle_flag (bf : bool) (vehicle : Vehicle) (l : list Vehicle) :
  MOBIL.findLeadingVehicle (Veh.set_mandatoryLaneChange bf vehicle) l
  = MOBIL.findLeadingVehicle vehicle l.
Proof. reflexivity. Qed.

Lemma calculateFollowerImpact_flag (bf : bool) (vehicle : Vehicle) (l : list Vehicle) :
  MOBIL.calculateFollowerImpact (Veh.set_mandatoryLaneChange bf vehicle) l
  = MOBIL.calculateFollowerImpact vehicle l.
Proof. reflexivity. Qed.

Lemma baseIncentive_flag (m : MOBIL.MOBILModel) (bf : bool) (vehicle : Vehicle)
  (cur tgt : list Vehicle) (direction : Z) :
  MOBIL.baseIncentive m (Veh.set_mandatoryLaneChange bf vehicle) cur tgt direction
  = MOBIL.baseIncentive m vehicle cur tgt direction.
Proof. reflexivity. Qed.

(** The decision on the far side of the safety criterion. *)
Lemma shouldChangeLanes_unsafe (m : MOBIL.MOBILModel) (vehicle : Vehicle)
  (cur tgt : list Vehicle) (direction : Z) :
  MOBIL.calculateFollowerImpact vehicle tgt < - MOBIL.bSafe m ->
  MOBIL.shouldChangeLanes m vehicle cur tgt direction
  = MOBIL.mkDecision false 0 MOBIL.unsafe_follower None None.
Proof.
  intro H. unfold MOBIL.shouldChangeLanes.
  assert (E : Rltb (MOBIL.calculateFollowerImpact vehicle tgt) (- MOBIL.bSafe m) = true)
    by (apply Rltb_true; exact H).
  rewrite E. reflexivity.
Qed.

Lemma shouldChangeLanes_safe (m : MOBIL.MOBILModel) (vehicle : Vehicle)
  (cur tgt : list Vehicle) (direction : Z) :
  - MOBIL.bSafe m <= MOBIL.calculateFollowerImpact vehicle tgt ->
  MOBIL.safety (MOBIL.shouldChangeLanes m vehicle cur tgt direction)
  = Some (MOBIL.calculateFollowerImpact vehicle tgt)
  /\ MOBIL.shouldChange (MOBIL.shouldChangeLanes m vehicle cur tgt direction)
     = Rgtb (if Veh.mandatoryLaneChange vehicle
             then MOBIL.baseIncentive m vehicle cur tgt direction + MOBIL.aThr m
             else MOBIL.baseIncentive m vehicle cur tgt direction)
            (MOBIL.aThr m * (if Veh.mandatoryLaneChange vehicle then 2 else 1)).
Proof.
  intro H. unfold MOBIL.shouldChangeLanes.
  assert (E : Rltb (MOBIL.calculateFollowerImpact vehicle tgt) (- MOBIL.bSafe m) = false)
    by (apply Rltb_false; exact H).
  rewrite E. simpl. split; reflexivity.
Qed.

End LaneChange.

Section LaneChangeClaims.
Local Open Scope R_scope.

(** A follower arriving at 60 m/s behind the candidate: with the absent
    [length] property the gap is [NaN], the interaction term is skipped and
    the computed acceleration is [max(-4, -6) = -4]. *)
Lemma fast_follower_impact :
  MOBIL.calculateFollowerImpact (Sample.car 1 [0%nat] 0 100 10 false)
    [Sample.car 2 [0%nat] 1 90 60 false] = -4.
Proof.
  unfold MOBIL.calculateFollowerImpact, MOBIL.findFollowingVehicle. simpl.
  assert (E : Rltb 90 100 = true) by (apply Rltb_true; lra).
  rewrite E. simpl.
  unfold IDM.calcAccDet, IDM.accFree, IDM.accInt, IDM.v0eff, IDM.aeff. simpl.
  rewrite (Rmin_left (15 * (1 + 0.2 * (0.5 - 0.5)) * 1) 50) by lra.
  rewrite (Rmin_left (15 * (1 + 0.2 * (0.5 - 0.5)) * 1) 60) by lra.
  destruct (Rlt_dec 60 (15 * (1 + 0.2 * (0.5 - 0.5)) * 1)) as [H | _]; [lra |].
  rewrite Rmax_left; lra.
Qed.

(** The follower found by the search is a vehicle of the lane. *)
Lemma findFollowingVehicle_In (vehicle : Vehicle) (laneVehicles : list Vehicle)
  (follower : Vehicle) :
  MOBIL.findFollowingVehicle vehicle laneVehicles = Some follower ->
  In follower laneVehicles.
Proof.
  unfold MOBIL.findFollowingVehicle.
  assert (G : forall (l : list Vehicle) (st : option Vehicle * option R),
             fst (fold_left
                    (fun (st : option Vehicle * option R) (other : Vehicle) =>
                       if negb (Z.eqb (Veh.id other) (Veh.id vehicle))
                          && Rltb (Veh.u other) (Veh.u vehicle)
                       then
                         let distance := Veh.u vehicle - Veh.u other in
                         if MOBIL.belowMin distance (snd st)
                         then (Some other, Some distance)
                         else st
                       else st)
                    l st) = Some follower ->
             fst st = Some follower \/ In follower l).
  { induction l as [| o l IH]; intros st H; simpl in H; [left; exact H |].
    apply IH in H. destruct H as [H | H]; [| right; right; exact H].
    destruct (negb (Z.eqb (Veh.id o) (Veh.id vehicle))
              && Rltb (Veh.u o) (Veh.u vehicle)); [| left; exact H].
    cbv zeta in H.
    destruct (MOBIL.belowMin (Veh.u vehicle - Veh.u o) (snd st)); [| left; exact H].
    simpl in H. injection H as ->. right. left. reflexivity. }
  intro H. destruct (G laneVehicles (None, None) H) as [E | E];
    [discriminate E | exact E].
Qed.

(** [calcAccDet] never returns less than [-bmax], and the car-following
    models are all built with [bmax = 4], the default of [bSafe]: with a
    limit [bSafe] not below the [bmax] of the vehicles of the target lane
    the safety criterion rejects no change. *)
Remark safety_criterion_idle (m : MOBIL.MOBILModel) (vehicle : Vehicle)
  (currentLane targetLane : list Vehicle) (direction : Z) :
  0 <= MOBIL.bSafe m ->
  (forall other, In other targetLane ->
     IDM.bmax (Veh.idmModel other) <= MOBIL.bSafe m) ->
  MOBIL.safety (MOBIL.shouldChangeLanes m vehicle currentLane targetLane direction)
  = Some (MOBIL.calculateFollowerImpact vehicle targetLane).
Proof.
  intros Hb Hall.
  apply (shouldChangeLanes_safe m vehicle currentLane targetLane direction).
  unfold MOBIL.calculateFollowerImpact.
  destruct (MOBIL.findFollowingVehicle vehicle targetLane) as [follower |] eqn:E;
    [| lra].
  pose proof (Hall follower (findFollowingVehicle_In vehicle targetLane follower E)).
  pose proof (calcAccDet_ge_bmax (Veh.idmModel follower)
                (MOBIL.minusLength (Veh.u vehicle - Veh.u follower)
                                   (Veh.length vehicle))
                (Veh.speed follower) (Veh.speed vehicle) (Veh.acc vehicle)).
  lra.
Qed.

(** C8 (what the code does).  The bonus [aThr] added to the incentive of a
    mandatory change and the doubled multiplier cancel: whatever the model,
    the vehicles and the direction, the decision with the flag
    [mandatoryLaneChange] set is the decision with the flag cleared.  No
    base incentive is accepted as mandatory and rejected as normal. *)
Theorem mandatory_bonus_cancels (m : MOBIL.MOBILModel) (vehicle : Vehicle)
  (currentLane targetLane : list Vehicle) (direction : Z) :
  MOBIL.shouldChange
    (MOBIL.shouldChangeLanes m (Veh.set_mandatoryLaneChange true vehicle)
       currentLane targetLane direction)
  = MOBIL.shouldChange
      (MOBIL.shouldChangeLanes m (Veh.set_mandatoryLaneChange false vehicle)
         currentLane targetLane direction).
Proof.
  unfold MOBIL.shouldChangeLanes.
  rewrite !calculateFollowerImpact_flag, !baseIncentive_flag.
  destruct (Rltb (MOBIL.calculateFollowerImpact vehicle targetLane) (- MOBIL.bSafe m));
    [reflexivity |].
  simpl. unfold Rgtb, Rltb.
  set (inc := MOBIL.baseIncentive m vehicle currentLane targetLane direction).
  destruct (Rlt_dec (MOBIL.aThr m * 2) (inc + MOBIL.aThr m));
    destruct (Rlt_dec (MOBIL.aThr m * 1) inc); try reflexivity; lra.
Qed.

(** The decision in terms of the base incentive: with or without the
    flag, a change past the safety criterion is accepted exactly when the
    base incentive exceeds [aThr]. *)
Lemma acceptance_threshold (m : MOBIL.MOBILModel) (vehicle : Vehicle)
  (currentLane targetLane : list Vehicle) (direction : Z) :
  - MOBIL.bSafe m <= MOBIL.calculateFollowerImpact vehicle targetLane ->
  (MOBIL.shouldChange
     (MOBIL.shouldChangeLanes m vehicle currentLane targetLane direction) = true
   <-> MOBIL.aThr m < MOBIL.baseIncentive m vehicle currentLane targetLane direction).
Proof.
  intro H.
  destruct (shouldChangeLanes_safe m vehicle currentLane targetLane direction H)
    as [_ E].
  rewrite E. unfold Rgtb. rewrite Rltb_true.
  destruct (Veh.mandatoryLaneChange vehicle); split; intro; lra.
Qed.

(** On an empty road, moving right under a model with threshold 0.1 and
    right bias 0.05, the base incentive is 0.05: with the bonus the test
    of the mandatory change is 0.15 > 0.2, and the change is rejected, as
    the same change without the flag is (0.05 > 0.1). *)
Example mandatory_rejected_like_normal :
  MOBIL.baseIncentive Sample.lowBiasModel
    (Sample.car 1 [0%nat; 5%nat] 0 160 10 true) [] [] 1 = 0.05
  /\ MOBIL.shouldChange
       (MOBIL.shouldChangeLanes Sample.lowBiasModel
          (Sample.car 1 [0%nat; 5%nat] 0 160 10 true) [] [] 1) = false
  /\ MOBIL.shouldChange
       (MOBIL.shouldChangeLanes Sample.lowBiasModel
          (Sample.car 1 [0%nat; 5%nat] 0 160 10 false) [] [] 1) = false.
Proof.
  assert (B : forall bf,
             MOBIL.baseIncentive Sample.lowBiasModel
               (Sample.car 1 [0%nat; 5%nat] 0 160 10 bf) [] [] 1 = 0.05).
  { intro bf. unfold MOBIL.baseIncentive, MOBIL.calculateOthersGain. simpl. lra. }
  assert (G : forall bf,
             MOBIL.shouldChange
               (MOBIL.shouldChangeLanes Sample.lowBiasModel
                  (Sample.car 1 [0%nat; 5%nat] 0 160 10 bf) [] [] 1) = false).
  { intro bf.
    destruct (MOBIL.shouldChange
                (MOBIL.shouldChangeLanes Sample.lowBiasModel
                   (Sample.car 1 [0%nat; 5%nat] 0 160 10 bf) [] [] 1)) eqn:E;
      [| reflexivity].
    apply acceptance_threshold in E.
    - rewrite B in E. simpl in E. lra.
    - unfold MOBIL.calculateFollowerImpact, MOBIL.findFollowingVehicle.
      simpl. unfold MOBIL.safeDecelDefault. lra. }
  split; [apply B |]. split; apply G.
Qed.

(** The acceleration the code computes for the new follower of a candidate
    without [length]: the free-flow term of the follower, floored at
    [-bmax]; 0 when no vehicle of the target lane is behind the candidate. *)
Lemma calculateFollowerImpact_without_length (vehicle : Vehicle)
  (targetLane : list Vehicle) :
  Veh.length vehicle = None ->
  MOBIL.calculateFollowerImpact vehicle targetLane
  = match MOBIL.findFollowingVehicle vehicle targetLane with
    | Some follower =>
        Rmax (- IDM.bmax (Veh.idmModel follower))
             (IDM.accFree (Veh.idmModel follower) (Veh.speed follower))
    | None => 0
    end.
Proof.
  intro Hlen. unfold MOBIL.calculateFollowerImpact.
  destruct (MOBIL.findFollowingVehicle vehicle targetLane) as [follower |];
    [| reflexivity].
  rewrite Hlen. simpl MOBIL.minusLength. unfold IDM.calcAccDet.
  simpl IDM.accInt. rewrite Rplus_0_r. reflexivity.
Qed.

(** C2 (what the code does).  The safety criterion does not see the gap.
    The vehicle objects of the repository carry [len] and no [length], so
    the gap [vehicle.u - follower.u - vehicle.length] is [NaN] and
    [calcAccDet] skips its interaction term: the acceleration computed for
    the new follower is [max(-bmax, accFree)] at the follower's own speed,
    whatever its distance to the candidate and the candidate's speed, and 0
    when the target lane has no vehicle behind the candidate.  The change
    is rejected as unsafe exactly when that number is below [-bSafe];
    otherwise the criterion is passed, the decision is taken on the
    incentive alone, and the change is accepted as soon as the base
    incentive exceeds [aThr], however close the follower is. *)
Theorem safety_gate_ignores_gap (m : MOBIL.MOBILModel) (vehicle : Vehicle)
  (currentLane targetLane : list Vehicle) (direction : Z) :
  Veh.length vehicle = None ->
  let computed :=
    match MOBIL.findFollowingVehicle vehicle targetLane with
    | Some follower =>
        Rmax (- IDM.bmax (Veh.idmModel follower))
             (IDM.accFree (Veh.idmModel follower) (Veh.speed follower))
    | None => 0
    end in
  let decision := MOBIL.shouldChangeLanes m vehicle currentLane targetLane direction in
  MOBIL.calculateFollowerImpact vehicle targetLane = computed
  /\ (computed < - MOBIL.bSafe m ->
      decision = MOBIL.mkDecision false 0 MOBIL.unsafe_follower None None)
  /\ (- MOBIL.bSafe m <= computed ->
      MOBIL.safety decision = Some computed
      /\ MOBIL.reason decision <> MOBIL.unsafe_follower
      /\ (MOBIL.shouldChange decision = true
          <-> MOBIL.aThr m
              < MOBIL.baseIncentive m vehicle currentLane targetLane direction)).
Proof.
  intro Hlen. cbv zeta.
  pose proof (calculateFollowerImpact_without_length vehicle targetLane Hlen) as E.
  split; [exact E |]. split.
  - intro H. apply shouldChangeLanes_unsafe. rewrite E. exact H.
  - intro H.
    assert (H' : - MOBIL.bSafe m <= MOBIL.calculateFollowerImpact vehicle targetLane)
      by (rewrite E; exact H).
    destruct (shouldChangeLanes_safe m vehicle currentLane targetLane direction H')
      as [Hs _].
    split; [rewrite Hs, E; reflexivity |]. split.
    + unfold MOBIL.shouldChangeLanes.
      assert (Eb : Rltb (MOBIL.calculateFollowerImpact vehicle targetLane)
                        (- MOBIL.bSafe m) = false)
        by (apply Rltb_false; exact H').
      rewrite Eb. cbv zeta. cbn [MOBIL.reason].
      destruct (Rgtb _ _); discriminate.
    + apply acceptance_threshold. exact H'.
Qed.

Lemma v0eff_default_05 : IDM.v0eff (IDM.newDefault 0.5) = 15.
Proof.
  unfold IDM.v0eff, IDM.newDefault, IDM.new; simpl.
  rewrite (Rmin_left (15 * (1 + 0.2 * (0.5 - 0.5)) * 1) 50) by lra.
  rewrite Rmin_left by lra. lra.
Qed.

Lemma accFree_default_15 : IDM.accFree (IDM.newDefault 0.5) 15 = 0.
Proof.
  unfold IDM.accFree. rewrite v0eff_default_05.
  destruct (Rlt_dec 15 15) as [H | _]; [lra |].
  unfold IDM.aeff. simpl. field.
Qed.

Lemma follower_of_cut_in :
  MOBIL.findFollowingVehicle (Sample.car 1 [0%nat] 0 100 10 false)
    [Sample.car 2 [0%nat] 1 93 15 false]
  = Some (Sample.car 2 [0%nat] 1 93 15 false).
Proof.
  unfold MOBIL.findFollowingVehicle. simpl.
  assert (E : Rltb 93 100 = true) by (apply Rltb_true; lra).
  rewrite E. reflexivity.
Qed.

(** With the follower's free-flow acceleration at 0 and an empty road
    ahead in both lanes, the base incentive of the cut-in to the right is
    the right bias of the model. *)
Lemma baseIncentive_cut_in (politeness threshold biasRight safeDecel : R) :
  MOBIL.baseIncentive (MOBIL.new politeness threshold biasRight safeDecel)
    (Sample.car 1 [0%nat] 0 100 10 false)
    [Sample.car 1 [0%nat] 0 100 10 false]
    [Sample.car 2 [0%nat] 1 93 15 false] 1 = biasRight.
Proof.
  unfold MOBIL.baseIncentive, MOBIL.calculateOthersGain,
    MOBIL.calculateLaneAcceleration, MOBIL.findLeadingVehicle.
  rewrite follower_of_cut_in.
  unfold MOBIL.findFollowingVehicle. simpl.
  assert (E1 : Rltb 100 100 = false) by (apply Rltb_false; lra).
  assert (E2 : Rgtb 93 100 = false) by (apply Rltb_false; lra).
  rewrite ?E1, ?E2. simpl.
  unfold IDM.calcAccDet at 3. simpl IDM.accInt.
  change (IDM.new 15 1 2 2 2 0.2 0.5) with (IDM.newDefault 0.5).
  rewrite accFree_default_15.
  rewrite (Rmax_right (- IDM.bmax (IDM.newDefault 0.5)) (0 + 0)) by (simpl; lra).
  lra.
Qed.

Lemma accFree_default_60 : IDM.accFree (IDM.newDefault 0.5) 60 = -6.
Proof.
  unfold IDM.accFree. rewrite v0eff_default_05.
  destruct (Rlt_dec 60 15) as [H | _]; [lra |].
  unfold IDM.aeff. simpl. field.
Qed.

Lemma follower_of_fast_car :
  MOBIL.findFollowingVehicle (Sample.car 1 [0%nat] 0 100 10 false)
    [Sample.car 2 [0%nat] 1 90 60 false]
  = Some (Sample.car 2 [0%nat] 1 90 60 false).
Proof.
  unfold MOBIL.findFollowingVehicle. simpl.
  assert (E : Rltb 90 100 = true) by (apply Rltb_true; lra).
  rewrite E. reflexivity.
Qed.

(** A car at 100 m and 10 m/s moves in front of a car at 93 m and
    15 m/s: the code accepts the change under a limit [bSafe] of 2 m/s^2,
    and under the model of the mandatory changes to the right as the road
    builds it.  Under the limit of 2 m/s^2 a follower arriving at 60 m/s
    is refused, on its own speed; on an empty target lane the criterion
    is passed with impact 0. *)
Lemma safety_gate_ignores_gap_witness :
  MOBIL.shouldChange
    (MOBIL.shouldChangeLanes Sample.strictModel
       (Sample.car 1 [0%nat] 0 100 10 false)
       [Sample.car 1 [0%nat] 0 100 10 false]
       [Sample.car 2 [0%nat] 1 93 15 false] 1) = true
  /\ MOBIL.shouldChange
       (MOBIL.shouldChangeLanes RoadSystem.LCModelMandatoryRight
          (Sample.car 1 [0%nat] 0 100 10 false)
          [Sample.car 1 [0%nat] 0 100 10 false]
          [Sample.car 2 [0%nat] 1 93 15 false] 1) = true
  /\ MOBIL.shouldChangeLanes Sample.strictModel
       (Sample.car 1 [0%nat] 0 100 10 false)
       [Sample.car 1 [0%nat] 0 100 10 false]
       [Sample.car 2 [0%nat] 1 90 60 false] 1
     = MOBIL.mkDecision false 0 MOBIL.unsafe_follower None None
  /\ MOBIL.safety
       (MOBIL.shouldChangeLanes Sample.strictModel
          (Sample.car 1 [0%nat] 0 100 10 false)
          [Sample.car 1 [0%nat] 0 100 10 false] [] 1) = Some 0.
Proof.
  assert (Accepted : forall politeness threshold biasRight safeDecel : R,
             0 <= safeDecel -> threshold < biasRight ->
             MOBIL.shouldChange
               (MOBIL.shouldChangeLanes
                  (MOBIL.new politeness threshold biasRight safeDecel)
                  (Sample.car 1 [0%nat] 0 100 10 false)
                  [Sample.car 1 [0%nat] 0 100 10 false]
                  [Sample.car 2 [0%nat] 1 93 15 false] 1) = true).
  { intros politeness threshold biasRight safeDecel Hs Hb.
    destruct (safety_gate_ignores_gap
                (MOBIL.new politeness threshold biasRight safeDecel)
                (Sample.car 1 [0%nat] 0 100 10 false)
                [Sample.car 1 [0%nat] 0 100 10 false]
                [Sample.car 2 [0%nat] 1 93 15 false] 1 eq_refl) as [_ [_ H]].
    rewrite follower_of_cut_in in H.
    simpl Veh.idmModel in H. simpl Veh.speed in H.
    rewrite accFree_default_15 in H.
    rewrite (Rmax_right (- IDM.bmax (IDM.newDefault 0.5)) 0) in H by (simpl; lra).
    destruct H as [_ [_ Hiff]]; [simpl; lra |].
    apply Hiff. rewrite baseIncentive_cut_in. simpl. exact Hb. }
  split; [| split; [| split]].
  - apply Accepted; lra.
  - apply Accepted; [unfold MOBIL.safeDecelDefault |]; lra.
  - destruct (safety_gate_ignores_gap Sample.strictModel
                (Sample.car 1 [0%nat] 0 100 10 false)
                [Sample.car 1 [0%nat] 0 100 10 false]
                [Sample.car 2 [0%nat] 1 90 60 false] 1 eq_refl) as [_ [H _]].
    apply H. rewrite follower_of_fast_car.
    simpl Veh.idmModel. simpl Veh.speed. rewrite accFree_default_60.
    rewrite (Rmax_left (- IDM.bmax (IDM.newDefault 0.5)) (- 6)) by (simpl; lra).
    simpl. lra.
  - destruct (safety_gate_ignores_gap Sample.strictModel
                (Sample.car 1 [0%nat] 0 100 10 false)
                [Sample.car 1 [0%nat] 0 100 10 false] [] 1 eq_refl) as [_ [_ H]].
    destruct H as [Hs _]; [simpl; lra | exact Hs].
Defined.

(** At the gap the follower really has behind the candidate,
    [100 - 93 - 5 = 2] m, the car-following law gives it the full braking
    [-bmax = -4], below [-bSafe = -2]. *)
Example cut_in_deceleration :
  let candidate := Sample.car 1 [0%nat] 0 100 10 false in
  let follower := Sample.car 2 [0%nat] 1 93 15 false in
  IDM.calcAccDet (Veh.idmModel follower)
    (Some (Veh.u candidate - Veh.u follower - Veh.len candidate))
    (Veh.speed follower) (Veh.speed candidate) (Veh.acc candidate) = -4
  /\ -4 < - MOBIL.bSafe Sample.strictModel.
Proof.
  cbv zeta. split; [| simpl; lra].
  simpl Veh.idmModel. simpl Veh.u. simpl Veh.len. simpl Veh.speed. simpl Veh.acc.
  unfold IDM.calcAccDet.
  rewrite accFree_default_15.
  rewrite accInt_active by lra.
  assert (Hs : 17 <= IDM.sstar (IDM.newDefault 0.5) 15 10).
  { unfold IDM.sstar. simpl IDM.s0. simpl IDM.T.
    assert (Hq : 0 <= 0.5 * 15 * (15 - 10)
                      / sqrt (IDM.aeff (IDM.newDefault 0.5) * IDM.b (IDM.newDefault 0.5))).
    { unfold Rdiv. apply Rmult_le_pos; [lra |].
      assert (Hpos : 0 < sqrt (IDM.aeff (IDM.newDefault 0.5)
                               * IDM.b (IDM.newDefault 0.5))).
      { apply sqrt_lt_R0. unfold IDM.aeff. simpl. lra. }
      left. apply Rinv_0_lt_compat. exact Hpos. }
    pose proof (Rmax_r 0 (15 * 1 + 0.5 * 15 * (15 - 10)
                   / sqrt (IDM.aeff (IDM.newDefault 0.5)
                           * IDM.b (IDM.newDefault 0.5)))).
    lra. }
  simpl IDM.s0. simpl IDM.bmax.
  replace (Rmax (100 - 93 - 5) 2) with 2 by (rewrite Rmax_right; lra).
  set (q := IDM.sstar (IDM.newDefault 0.5) 15 10 / 2).
  assert (Hq : 8.5 <= q) by (subst q; lra).
  assert (Hq2 : 72.25 <= q ^ 2) by (simpl; nra).
  assert (Ha : IDM.aeff (IDM.newDefault 0.5) = 2) by (unfold IDM.aeff; simpl; lra).
  rewrite Ha. apply Rmax_left. lra.
Qed.

End LaneChangeClaims.

(* ------------------------------------------------------------------ *)
(** ** Road segment: integration pass *)

Section Integration.
Local Open Scope R_scope.

(** The optical update writes [v] and [dvdt] only. *)
Lemma update_v_dvdt_optical_u (w : Vehicle) :
  Veh.u (RoadSystem.update_v_dvdt_optical w) = Veh.u w.
Proof.
  unfold RoadSystem.update_v_dvdt_optical.
  destruct (Req_dec_T (Veh.dt_LC w) 0); [reflexivity |].
  destruct (Rgtb (Veh.dt_afterLC w) (Veh.dt_LC w)); reflexivity.
Qed.

Lemma update_v_dvdt_optical_speed (w : Vehicle) :
  Veh.speed (RoadSystem.update_v_dvdt_optical w) = Veh.speed w.
Proof.
  unfold RoadSystem.update_v_dvdt_optical.
  destruct (Req_dec_T (Veh.dt_LC w) 0); [reflexivity |].
  destruct (Rgtb (Veh.dt_afterLC w) (Veh.dt_LC w)); reflexivity.
Qed.

(** What the loop body does to a vehicle that passes the guard. *)
Lemma integrate_regular (w : Vehicle) :
  Veh.regular w = true ->
  Veh.u (RoadSystem.integrate w)
  = Veh.u w + Rmax 0 (Veh.speed w * RoadSystem.DT
                      + 0.5 * Veh.acc w * RoadSystem.DT * RoadSystem.DT)
  /\ Veh.speed (RoadSystem.integrate w)
     = Rmax 0 (Veh.speed w + Veh.acc w * RoadSystem.DT).
Proof.
  intro H. unfold RoadSystem.integrate. rewrite H.
  rewrite update_v_dvdt_optical_u, update_v_dvdt_optical_speed.
  split; reflexivity.
Qed.

(** A vehicle that fails the guard is left as it is. *)
Lemma integrate_not_regular (w : Vehicle) :
  Veh.regular w = false -> RoadSystem.integrate w = w.
Proof. intro H. unfold RoadSystem.integrate. rewrite H. reflexivity. Qed.

(** The position never decreases in the pass. *)
Lemma integrate_u_monotone (w : Vehicle) :
  Veh.u w <= Veh.u (RoadSystem.integrate w).
Proof.
  destruct (Veh.regular w) eqn:E.
  - destruct (integrate_regular w E) as [Hu _]. rewrite Hu.
    pose proof (Rmax_l 0 (Veh.speed w * RoadSystem.DT
                          + 0.5 * Veh.acc w * RoadSystem.DT * RoadSystem.DT)).
    lra.
  - rewrite (integrate_not_regular w E). lra.
Qed.

(** C3.  [updateSpeedPositions] moves every regular vehicle by
    [max(0, speed*dt + 0.5*acc*dt*dt)] and then sets its speed to
    [max(0, speed + acc*dt)]; every vehicle found in the segment after the
    pass is the image of a vehicle that was there before, its position is
    not smaller than before, the speed of a regular vehicle is
    non-negative, and its position is at most [roadLen + 10]. *)
Theorem updateSpeedPositions_pass (r : RoadSystem.Road) (w' : Vehicle) :
  In w' (RoadSystem.veh (RoadSystem.updateSpeedPositions r)) ->
  Veh.u w' <= RoadSystem.roadLen r + 10
  /\ exists w,
       In w (RoadSystem.veh r)
       /\ w' = RoadSystem.integrate w
       /\ Veh.u w <= Veh.u w'
       /\ (Veh.regular w = true ->
             Veh.u w' = Veh.u w
                        + Rmax 0 (Veh.speed w * RoadSystem.DT
                                  + 0.5 * Veh.acc w * RoadSystem.DT * RoadSystem.DT)
             /\ Veh.speed w' = Rmax 0 (Veh.speed w + Veh.acc w * RoadSystem.DT)
             /\ 0 <= Veh.speed w')
       /\ (Veh.regular w = false -> w' = w).
Proof.
  unfold RoadSystem.updateSpeedPositions. simpl.
  intro H. apply filter_In in H. destruct H as [Hin Hle].
  apply Rleb_true in Hle. split; [exact Hle |].
  apply in_map_iff in Hin. destruct Hin as [w [Hw Hinw]].
  exists w. subst w'.
  split; [exact Hinw |]. split; [reflexivity |].
  split; [apply integrate_u_monotone |]. split.
  - intro E. destruct (integrate_regular w E) as [Hu Hs].
    split; [exact Hu |]. split; [exact Hs |].
    rewrite Hs. apply Rmax_l.
  - apply integrate_not_regular.
Qed.

(** Conversely no vehicle is lost below the overshoot margin, and the
    pass keeps the order of the vehicles. *)
Lemma updateSpeedPositions_keeps (r : RoadSystem.Road) (w : Vehicle) :
  In w (RoadSystem.veh r) ->
  Veh.u (RoadSystem.integrate w) <= RoadSystem.roadLen r + 10 ->
  In (RoadSystem.integrate w)
     (RoadSystem.veh (RoadSystem.updateSpeedPositions r)).
Proof.
  intros Hin Hle. unfold RoadSystem.updateSpeedPositions. simpl.
  apply filter_In. split.
  - apply in_map. exact Hin.
  - apply Rleb_true. exact Hle.
Qed.

(** When every vehicle of the segment is regular, every speed is
    non-negative after the pass. *)
Corollary updateSpeedPositions_speeds (r : RoadSystem.Road) :
  (forall w, In w (RoadSystem.veh r) -> Veh.regular w = true) ->
  forall w', In w' (RoadSystem.veh (RoadSystem.updateSpeedPositions r)) ->
             0 <= Veh.speed w'.
Proof.
  intros Hreg w' Hin.
  unfold RoadSystem.updateSpeedPositions in Hin. simpl in Hin.
  apply filter_In in Hin. destruct Hin as [Hin _].
  apply in_map_iff in Hin. destruct Hin as [w [Hw Hinw]]. subst w'.
  destruct (integrate_regular w (Hreg w Hinw)) as [_ Hs].
  rewrite Hs. apply Rmax_l.
Qed.

(** A car at 100 m driving at 10 m/s on a 200 m road. *)
Lemma updateSpeedPositions_pass_witness :
  let r := RoadSystem.set_veh [Sample.car 1 [0%nat] 0 100 10 false]
             (Intersection.createRoad 0) in
  let w' := RoadSystem.integrate (Sample.car 1 [0%nat] 0 100 10 false) in
  Veh.u w' <= RoadSystem.roadLen r + 10
  /\ exists w,
       In w (RoadSystem.veh r)
       /\ w' = RoadSystem.integrate w
       /\ Veh.u w <= Veh.u w'
       /\ (Veh.regular w = true ->
             Veh.u w' = Veh.u w
                        + Rmax 0 (Veh.speed w * RoadSystem.DT
                                  + 0.5 * Veh.acc w * RoadSystem.DT * RoadSystem.DT)
             /\ Veh.speed w' = Rmax 0 (Veh.speed w + Veh.acc w * RoadSystem.DT)
             /\ 0 <= Veh.speed w')
       /\ (Veh.regular w = false -> w' = w).
Proof.
  intros r w'.
  apply (updateSpeedPositions_pass r w').
  apply updateSpeedPositions_keeps.
  - left. reflexivity.
  - destruct (integrate_regular (Sample.car 1 [0%nat] 0 100 10 false) eq_refl)
      as [Hu _].
    rewrite Hu. simpl. unfold RoadSystem.DT.
    rewrite Rmax_right by lra. lra.
Defined.

End Integration.

(* ------------------------------------------------------------------ *)
(** ** Road segment: inflow *)

Section Inflow.
Local Open Scope R_scope.

(** [canSpawnVehicle] holds exactly when no vehicle of the segment is in
    the lane of the new one and closer than 15 m to it. *)
Lemma canSpawnVehicle_spec (r : RoadSystem.Road) (newVeh : Vehicle) :
  RoadSystem.canSpawnVehicle r newVeh = true
  <-> (forall e, In e (RoadSystem.veh r) ->
         ~ (Veh.lane e = Veh.lane newVeh
            /\ Rabs (Veh.u e - Veh.u newVeh) < 15)).
Proof.
  unfold RoadSystem.canSpawnVehicle. rewrite forallb_forall.
  split; intros H e He.
  - specialize (H e He). apply negb_true_iff in H.
    intros [Hl Hd]. apply Z.eqb_eq in Hl. apply Rltb_true in Hd.
    rewrite Hl, Hd in H. discriminate H.
  - apply negb_true_iff. apply andb_false_iff.
    destruct (Z.eqb (Veh.lane e) (Veh.lane newVeh)) eqn:El; [| left; reflexivity].
    right. apply Rltb_false.
    destruct (Rlt_dec (Rabs (Veh.u e - Veh.u newVeh)) 15) as [Hd | Hd]; [| lra].
    exfalso. apply (H e He). split; [apply Z.eqb_eq; exact El | exact Hd].
Qed.

(** The vehicle synthesised by a call starts 5 m into the segment. *)
Lemma createVehicle_u (r : RoadSystem.Road) (route : option (list nat))
  (vehType : string) (d : RoadSystem.Draws) :
  Veh.u (RoadSystem.createVehicle r route vehType d) = 5.
Proof. reflexivity. Qed.

(** C9.  [updateBCup] adds [flow*dt/3600] to the inflow counter.  It
    appends the new vehicle and takes exactly 1 off the counter if and only
    if the counter has reached 1 and no vehicle of the segment is in the
    lane of the new vehicle within 15 m of it; otherwise the vehicle set is
    unchanged and the counter keeps its incremented value (in particular
    when the spawn is refused for lack of clearance).  At most one vehicle
    is added per call. *)
Theorem updateBCup_spawn (flow dt : R) (possibleRoutes : list (list nat))
  (d : RoadSystem.Draws) (r : RoadSystem.Road) :
  let counter := RoadSystem.inVehBuffer r + flow * dt / 3600 in
  let newVeh :=
    RoadSystem.createVehicle r (RoadSystem.selectRoute possibleRoutes d) "car" d in
  let clear :=
    forall e, In e (RoadSystem.veh r) ->
      ~ (Veh.lane e = Veh.lane newVeh /\ Rabs (Veh.u e - Veh.u newVeh) < 15) in
  let r' := RoadSystem.updateBCup flow dt possibleRoutes d r in
  ((RoadSystem.veh r' = RoadSystem.veh r ++ [newVeh]
    /\ RoadSystem.inVehBuffer r' = counter - 1)
   <-> (1 <= counter /\ clear))
  /\ (~ (1 <= counter /\ clear) ->
      RoadSystem.veh r' = RoadSystem.veh r
      /\ RoadSystem.inVehBuffer r' = counter)
  /\ (1 <= counter -> ~ clear ->
      RoadSystem.veh r' = RoadSystem.veh r
      /\ RoadSystem.inVehBuffer r' = counter)
  /\ (List.length (RoadSystem.veh r') <= S (List.length (RoadSystem.veh r)))%nat.
Proof.
  cbv zeta.
  set (counter := RoadSystem.inVehBuffer r + flow * dt / 3600).
  set (newVeh := RoadSystem.createVehicle r
                   (RoadSystem.selectRoute possibleRoutes d) "car" d).
  assert (Hspec := canSpawnVehicle_spec r newVeh).
  unfold RoadSystem.updateBCup. simpl.
  fold counter.
  change (RoadSystem.createVehicle
            (RoadSystem.set_inVehBuffer counter r)
            (RoadSystem.selectRoute possibleRoutes d) "car" d) with newVeh.
  change (RoadSystem.canSpawnVehicle (RoadSystem.set_inVehBuffer counter r) newVeh)
    with (RoadSystem.canSpawnVehicle r newVeh).
  unfold Rgeb.
  destruct (Rleb 1 counter) eqn:Ec.
  - apply Rleb_true in Ec.
    destruct (RoadSystem.canSpawnVehicle r newVeh) eqn:Es; simpl.
    + assert (Hclear := proj1 Hspec eq_refl).
      split; [| split; [| split]].
      * split; [intros _; split; assumption | intros _; split; reflexivity].
      * intro Hn. exfalso. apply Hn. split; assumption.
      * intros _ Hn. exfalso. apply Hn. exact Hclear.
      * rewrite length_app. simpl. lia.
    + assert (Hnot : ~ (forall e, In e (RoadSystem.veh r) ->
                          ~ (Veh.lane e = Veh.lane newVeh
                             /\ Rabs (Veh.u e - Veh.u newVeh) < 15))).
      { intro Hc. apply Hspec in Hc. congruence. }
      split; [| split; [| split]].
      * split.
        -- intros [Hv _]. exfalso.
           apply (f_equal (@List.length Vehicle)) in Hv.
           rewrite length_app in Hv. simpl in Hv. lia.
        -- intros [_ Hc]. exfalso. apply Hnot. exact Hc.
      * intros _. split; reflexivity.
      * intros _ _. split; reflexivity.
      * lia.
  - apply Rleb_false in Ec. simpl.
    split; [| split; [| split]].
    + split.
      * intros [Hv _]. exfalso.
        apply (f_equal (@List.length Vehicle)) in Hv.
        rewrite length_app in Hv. simpl in Hv. lia.
      * intros [Hc _]. lra.
    + intros _. split; reflexivity.
    + intros Hc _. lra.
    + lia.
Qed.

End Inflow.

Section InflowExamples.
Local Open Scope R_scope.

(** A counter at 0.99 and a flow of 1200 veh/h: on the empty segment the
    vehicle is spawned; with a vehicle standing at 10 m in the lane drawn
    for the new one, it is not, and the counter stays above 1. *)
Lemma updateBCup_spawn_witness :
  let r := RoadSystem.set_inVehBuffer 0.99 (Intersection.createRoad 0) in
  let blocker :=
    Sample.car 7 [0%nat] (RoadSystem.floor (0.3 * IZR 2)) 10 0 false in
  let counter := 0.99 + 1200 * RoadSystem.DT / 3600 in
  (RoadSystem.veh (RoadSystem.updateBCup 1200 RoadSystem.DT [Intersection.ROUTE_05] Sample.draws r)
   = [RoadSystem.createVehicle r (Some Intersection.ROUTE_05) "car" Sample.draws]
   /\ RoadSystem.inVehBuffer
        (RoadSystem.updateBCup 1200 RoadSystem.DT [Intersection.ROUTE_05] Sample.draws r)
      = counter - 1)
  /\ (RoadSystem.veh
        (RoadSystem.updateBCup 1200 RoadSystem.DT [Intersection.ROUTE_05] Sample.draws
           (RoadSystem.set_veh [blocker] r))
      = [blocker]
      /\ RoadSystem.inVehBuffer
           (RoadSystem.updateBCup 1200 RoadSystem.DT [Intersection.ROUTE_05] Sample.draws
              (RoadSystem.set_veh [blocker] r))
         = counter).
Proof.
  intros r blocker counter.
  assert (Hsel : RoadSystem.selectRoute [Intersection.ROUTE_05] Sample.draws
                 = Some Intersection.ROUTE_05).
  { unfold RoadSystem.selectRoute, RoadSystem.floor. simpl.
    assert (E : Int_part (0.5 * 1) = 0%Z).
    { symmetry. apply Int_part_spec. simpl. lra. }
    rewrite E. reflexivity. }
  assert (Hc : 1 <= counter) by (subst counter; unfold RoadSystem.DT; lra).
  split.
  - destruct (updateBCup_spawn 1200 RoadSystem.DT [Intersection.ROUTE_05] Sample.draws r)
      as [[_ H] _].
    rewrite Hsel in H. apply H. split; [exact Hc |].
    intros e [].
  - destruct (updateBCup_spawn 1200 RoadSystem.DT [Intersection.ROUTE_05] Sample.draws
                (RoadSystem.set_veh [blocker] r)) as [_ [_ [H _]]].
    apply H; [exact Hc |].
    intro Hclear. apply (Hclear blocker (or_introl eq_refl)).
    split; [reflexivity |].
    simpl. rewrite Rabs_right; lra.
Defined.

End InflowExamples.

(* ------------------------------------------------------------------ *)
(** ** Road segment: connections *)

Section Connections.
Local Open Scope R_scope.

Lemma In_removeAt (A : Type) (l : list A) (i : nat) (x w : A) :
  In w l -> nth_error l i = Some x -> x <> w -> In w (RoadSystem.removeAt i l).
Proof.
  revert i. induction l as [| y l IH]; intros i Hin Hnth Hne; [contradiction |].
  destruct i as [| i]; simpl in *.
  - injection Hnth as ->. destruct Hin as [E | Hin]; [contradiction | exact Hin].
  - destruct Hin as [E | Hin]; [left; exact E | right; apply (IH i); assumption].
Qed.

(** On road 0 the connection is used by a vehicle only if its next road
    is road 0 or its route has at most one element: never with the route
    [[0, 5]]. *)
Lemma shouldUseConnection_route05 (l0 l1 l2 l3 l4 l5 : list Vehicle)
  (this : RoadSystem.Road) (w : Vehicle) :
  Veh.route w = Some Intersection.ROUTE_05 ->
  RoadSystem.shouldUseConnection (Intersection.networkWith l0 l1 l2 l3 l4 l5)
    this w Intersection.eastStraight = false.
Proof.
  intro H. unfold RoadSystem.shouldUseConnection. rewrite H. reflexivity.
Qed.

Lemma connectionLoop_route05 (l1 l2 l3 l4 l5 : list Vehicle) (w : Vehicle) :
  Veh.route w = Some Intersection.ROUTE_05 ->
  forall (n : nat) (l0 : list Vehicle),
    In w l0 ->
    exists l0',
      RoadSystem.connectionLoop 0 Intersection.eastStraight n
        (Intersection.networkWith l0 l1 l2 l3 l4 l5)
      = Intersection.networkWith l0' l1 l2 l3 l4 l5
      /\ In w l0'.
Proof.
  intros Hr n. induction n as [| i IH]; intros l0 Hin.
  - exists l0. split; [reflexivity | exact Hin].
  - cbn [RoadSystem.connectionLoop].
    change (nth_error (Intersection.networkWith l0 l1 l2 l3 l4 l5) 0)
      with (Some (RoadSystem.set_veh l0
                    (RoadSystem.connect 0 190 10 (Intersection.createRoad 0)))).
    cbv iota beta.
    change (RoadSystem.veh
              (RoadSystem.set_veh l0
                 (RoadSystem.connect 0 190 10 (Intersection.createRoad 0))))
      with l0.
    destruct (nth_error l0 i) as [x |] eqn:Ex; [| apply IH; exact Hin].
    destruct (Rgeb (Veh.u x) (RoadSystem.uSource Intersection.eastStraight));
      [| apply IH; exact Hin].
    destruct (RoadSystem.shouldUseConnection
                (Intersection.networkWith l0 l1 l2 l3 l4 l5)
                (RoadSystem.set_veh l0
                   (RoadSystem.connect 0 190 10 (Intersection.createRoad 0)))
                x Intersection.eastStraight) eqn:Eu; [| apply IH; exact Hin].
    assert (Hne : x <> w).
    { intro E. subst x.
      rewrite (shouldUseConnection_route05 l0 l1 l2 l3 l4 l5 _ w Hr) in Eu.
      discriminate Eu. }
    set (x' := Veh.set_route (RoadSystem.popRoute (Veh.route x))
                 (Veh.set_roadID (Some 0%nat) (Veh.set_u 10 x))).
    change (RoadSystem.transferVehicle 0 x Intersection.eastStraight i
              (Intersection.networkWith l0 l1 l2 l3 l4 l5))
      with (Intersection.networkWith (RoadSystem.removeAt i l0 ++ [x'])
              l1 l2 l3 l4 l5).
    apply IH. apply in_or_app. left.
    apply (In_removeAt _ l0 i x w Hin Ex Hne).
Qed.

(** C6 (what the code does).  In the network built by [setupConnections]
    the only connection of road 0 leads back to road 0.  Whatever the
    vehicles on the six roads, a vehicle of road 0 whose route is [[0, 5]]
    is still on road 0 after [processConnections], unchanged (same [u],
    same route), and road 5 holds the vehicles it held before: the vehicle
    is not transferred, wherever it stands. *)
Theorem route05_not_transferred (l0 l1 l2 l3 l4 l5 : list Vehicle) (w : Vehicle) :
  In w l0 ->
  Veh.route w = Some Intersection.ROUTE_05 ->
  exists l0',
    RoadSystem.processConnections 0 (Intersection.networkWith l0 l1 l2 l3 l4 l5)
    = Intersection.networkWith l0' l1 l2 l3 l4 l5
    /\ In w l0'.
Proof.
  intros Hin Hr.
  unfold RoadSystem.processConnections.
  change (nth_error (Intersection.networkWith l0 l1 l2 l3 l4 l5) 0)
    with (Some (RoadSystem.set_veh l0
                  (RoadSystem.connect 0 190 10 (Intersection.createRoad 0)))).
  cbv iota beta.
  change (RoadSystem.connects
            (RoadSystem.set_veh l0
               (RoadSystem.connect 0 190 10 (Intersection.createRoad 0))))
    with [Intersection.eastStraight].
  cbn [fold_left].
  change (nth_error (Intersection.networkWith l0 l1 l2 l3 l4 l5) 0)
    with (Some (RoadSystem.set_veh l0
                  (RoadSystem.connect 0 190 10 (Intersection.createRoad 0)))).
  cbv iota beta.
  apply (connectionLoop_route05 l1 l2 l3 l4 l5 w Hr). exact Hin.
Qed.

(** The vehicle of the claim: alone in the network, on road 0 at 195 m,
    past the source offset 190 of the connection, with route [[0, 5]]. *)
Lemma route05_not_transferred_witness :
  let w := Sample.car 1 Intersection.ROUTE_05 1 195 10 false in
  190 <= Veh.u w
  /\ exists l0',
       RoadSystem.processConnections 0 (Intersection.networkWith [w] [] [] [] [] [])
       = Intersection.networkWith l0' [] [] [] [] []
       /\ In w l0'.
Proof.
  intro w. split; [simpl; lra |].
  apply (route05_not_transferred [w] [] [] [] [] [] w).
  - left. reflexivity.
  - reflexivity.
Defined.

(** The sibling path: road 4 is connected to road 5, and a vehicle with
    route [[4, 5]] at 195 m is taken off road 4 and put on road 5 at the
    target offset 10 with the route [[5]]. *)
Example route45_transferred :
  let w := Sample.car 1 Intersection.ROUTE_45 1 195 10 false in
  RoadSystem.processConnections 4 (Intersection.networkWith [] [] [] [] [w] [])
  = Intersection.networkWith [] [] [] [] []
      [Veh.set_route (Some [5%nat]) (Veh.set_roadID (Some 5%nat) (Veh.set_u 10 w))].
Proof.
  intro w.
  assert (E : Rgeb (Veh.u w) 190 = true).
  { unfold Rgeb. apply Rleb_true. simpl. lra. }
  unfold RoadSystem.processConnections, Intersection.networkWith.
  cbn -[Rgeb w].
  rewrite E.
  reflexivity.
Qed.

End Connections.

(* ------------------------------------------------------------------ *)
(** ** Signal controller: fixed mode *)

Section FixedMode.
Import Config.
Local Open Scope Q_scope.

Lemma Qgeb_true (x y : Q) : Qgeb x y = true <-> y <= x.
Proof. unfold Qgeb. apply Qle_bool_iff. Qed.

Lemma Qgtb_true (x y : Q) : Qgtb x y = true <-> y < x.
Proof.
  unfold Qgtb. rewrite negb_true_iff. split; intro H.
  - apply Qnot_le_lt. intro Hle. apply Qle_bool_iff in Hle. congruence.
  - destruct (Qle_bool x y) eqn:E; [| reflexivity].
    apply Qle_bool_iff in E. exfalso. exact (Qlt_not_le _ _ H E).
Qed.

Lemma Qgtb_false (x y : Q) : Qgtb x y = false <-> x <= y.
Proof.
  unfold Qgtb. rewrite negb_false_iff. apply Qle_bool_iff.
Qed.

Lemma Qltb_true (x y : Q) : Qltb x y = true <-> x < y.
Proof. exact (Qgtb_true y x). Qed.

(** The light states after [setFixedLightState] are those of the table,
    whatever they were before. *)
Lemma setFixedLightState_colors (c : TrafficLights.Controller) :
  TrafficLights.getLightStates (TrafficLights.setFixedLightState c)
  = TrafficLights.fixedColors
      (TrafficLights.Fixed.currentPhase (TrafficLights.fixedState c)).
Proof.
  unfold TrafficLights.setFixedLightState.
  change (TrafficLights.Fixed.currentPhase
            (TrafficLights.fixedState (TrafficLights.setAllLightsRed c)))
    with (TrafficLights.Fixed.currentPhase (TrafficLights.fixedState c)).
  destruct (TrafficLights.Fixed.currentPhase (TrafficLights.fixedState c))
    as [| [| [| [| [| [| n]]]]]]; reflexivity.
Qed.

(** One call of [updateFixedMode] in a phase of the cycle: the timer is
    advanced by [deltaTime]; if it has reached the duration of the phase
    the phase index becomes the next one modulo 6, the timer 0 and the
    lights those of the new phase; otherwise nothing else changes. *)
Lemma advanceFixedPhase_state (c : TrafficLights.Controller) :
  let c' := TrafficLights.advanceFixedPhase c in
  let next := ((TrafficLights.Fixed.currentPhase (TrafficLights.fixedState c) + 1)
                 mod 6)%nat in
  TrafficLights.settings c' = TrafficLights.settings c
  /\ TrafficLights.Fixed.currentPhase (TrafficLights.fixedState c') = next
  /\ TrafficLights.Fixed.phaseTimer (TrafficLights.fixedState c') = 0
  /\ TrafficLights.getLightStates c' = TrafficLights.fixedColors next.
Proof.
  cbv zeta. unfold TrafficLights.advanceFixedPhase.
  rewrite setFixedLightState_colors.
  unfold TrafficLights.setFixedLightState.
  set (n := ((TrafficLights.Fixed.currentPhase (TrafficLights.fixedState c) + 1)
               mod 6)%nat).
  cbn [TrafficLights.fixedState TrafficLights.set_fixedState
       TrafficLights.Fixed.currentPhase].
  change (TrafficLights.Fixed.currentPhase
            (TrafficLights.fixedState
               (TrafficLights.setAllLightsRed
                  (TrafficLights.set_fixedState
                     (TrafficLights.Fixed.mkState n 0
                        (TrafficLights.Fixed.isActive (TrafficLights.fixedState c)))
                     c))))
    with n.
  destruct n as [| [| [| [| [| [| n]]]]]]; repeat split; reflexivity.
Qed.

Lemma updateFixedMode_step (dt D : Q) (c : TrafficLights.Controller) :
  TrafficLights.requiredDuration (TrafficLights.settings c)
    (TrafficLights.Fixed.currentPhase (TrafficLights.fixedState c)) = Some D ->
  let t := TrafficLights.Fixed.phaseTimer (TrafficLights.fixedState c) in
  let c' := TrafficLights.updateFixedMode dt c in
  TrafficLights.settings c' = TrafficLights.settings c
  /\ (Qle_bool D (t + dt) = true ->
      TrafficLights.Fixed.currentPhase (TrafficLights.fixedState c')
      = ((TrafficLights.Fixed.currentPhase (TrafficLights.fixedState c) + 1) mod 6)%nat
      /\ TrafficLights.Fixed.phaseTimer (TrafficLights.fixedState c') = 0
      /\ TrafficLights.getLightStates c'
         = TrafficLights.fixedColors
             ((TrafficLights.Fixed.currentPhase (TrafficLights.fixedState c) + 1) mod 6)%nat)
  /\ (Qle_bool D (t + dt) = false ->
      TrafficLights.Fixed.currentPhase (TrafficLights.fixedState c')
      = TrafficLights.Fixed.currentPhase (TrafficLights.fixedState c)
      /\ TrafficLights.Fixed.phaseTimer (TrafficLights.fixedState c') = t + dt
      /\ TrafficLights.lights c' = TrafficLights.lights c).
Proof.
  intro HD. cbv zeta.
  set (c1 := TrafficLights.set_fixedState
               (TrafficLights.Fixed.mkState
                  (TrafficLights.Fixed.currentPhase (TrafficLights.fixedState c))
                  (TrafficLights.Fixed.phaseTimer (TrafficLights.fixedState c) + dt)
                  (TrafficLights.Fixed.isActive (TrafficLights.fixedState c))) c).
  assert (Hadv := advanceFixedPhase_state c1). cbv zeta in Hadv.
  change (TrafficLights.settings c1) with (TrafficLights.settings c) in Hadv.
  change (TrafficLights.Fixed.currentPhase (TrafficLights.fixedState c1))
    with (TrafficLights.Fixed.currentPhase (TrafficLights.fixedState c)) in Hadv.
  assert (Hupd :
    TrafficLights.updateFixedMode dt c
    = if Qle_bool D (TrafficLights.Fixed.phaseTimer (TrafficLights.fixedState c) + dt)
      then TrafficLights.advanceFixedPhase c1 else c1).
  { unfold TrafficLights.updateFixedMode. fold c1.
    change (TrafficLights.Fixed.currentPhase (TrafficLights.fixedState c1))
      with (TrafficLights.Fixed.currentPhase (TrafficLights.fixedState c)).
    change (TrafficLights.Fixed.phaseTimer (TrafficLights.fixedState c1))
      with (TrafficLights.Fixed.phaseTimer (TrafficLights.fixedState c) + dt).
    change (TrafficLights.settings c1) with (TrafficLights.settings c).
    unfold Qgeb.
    destruct (TrafficLights.Fixed.currentPhase (TrafficLights.fixedState c))
      as [| [| [| [| [| [| n]]]]]];
      simpl in HD; try discriminate HD; injection HD as <-; reflexivity. }
  rewrite Hupd.
  destruct (Qle_bool D
              (TrafficLights.Fixed.phaseTimer (TrafficLights.fixedState c) + dt)).
  - destruct Hadv as [Hs [Hp [Ht Hl]]].
    split; [exact Hs |]. split; [intros _ | intro H; discriminate H].
    split; [exact Hp |]. split; [exact Ht | exact Hl].
  - split; [reflexivity |]. split; [intro H; discriminate H | intros _].
    split; [reflexivity |]. split; reflexivity.
Qed.

End FixedMode.

Section FixedModeClaims.
Import Config.
Local Open Scope Q_scope.

Lemma runFixed_app (l1 l2 : list Q) (c : TrafficLights.Controller) :
  TrafficLights.runFixed (l1 ++ l2) c
  = TrafficLights.runFixed l2 (TrafficLights.runFixed l1 c).
Proof. unfold TrafficLights.runFixed. apply fold_left_app. Qed.

Lemma accumulated_app (l1 l2 : list Q) :
  TrafficLights.accumulated (l1 ++ l2)
  == TrafficLights.accumulated l1 + TrafficLights.accumulated l2.
Proof.
  induction l1 as [| d l1 IH]; simpl.
  - ring.
  - rewrite IH. ring.
Qed.

(** A run that reaches the duration exactly adds up to what was missing. *)
Lemma reachesExactly_sum (D : Q) (deltas : list Q) :
  forall t, TrafficLights.reachesExactly D t deltas = true ->
            t + TrafficLights.accumulated deltas == D.
Proof.
  induction deltas as [| dt rest IH]; intros t H; [discriminate H |].
  destruct rest as [| dt' rest'].
  - simpl in H. apply Qeq_bool_iff in H. simpl. rewrite <- H. ring.
  - cbn [TrafficLights.reachesExactly] in H.
    apply andb_true_iff in H. destruct H as [_ H].
    specialize (IH (t + dt) H).
    change (TrafficLights.accumulated (dt :: dt' :: rest'))
      with (dt + TrafficLights.accumulated (dt' :: rest')).
    rewrite <- IH. ring.
Qed.

(** Such a run takes the controller through exactly one transition. *)
Lemma runFixed_phase (D : Q) (deltas : list Q) :
  forall c : TrafficLights.Controller,
    TrafficLights.requiredDuration (TrafficLights.settings c)
      (TrafficLights.Fixed.currentPhase (TrafficLights.fixedState c)) = Some D ->
    TrafficLights.reachesExactly D
      (TrafficLights.Fixed.phaseTimer (TrafficLights.fixedState c)) deltas = true ->
    let c' := TrafficLights.runFixed deltas c in
    let next := ((TrafficLights.Fixed.currentPhase (TrafficLights.fixedState c) + 1)
                   mod 6)%nat in
    TrafficLights.settings c' = TrafficLights.settings c
    /\ TrafficLights.Fixed.currentPhase (TrafficLights.fixedState c') = next
    /\ TrafficLights.Fixed.phaseTimer (TrafficLights.fixedState c') = 0
    /\ TrafficLights.getLightStates c' = TrafficLights.fixedColors next.
Proof.
  induction deltas as [| dt rest IH]; intros c HD H; [discriminate H |].
  destruct (updateFixedMode_step dt D c HD) as [Hs [Hfire Hhold]].
  destruct rest as [| dt' rest'].
  - simpl in H. apply Qeq_bool_iff in H.
    assert (E : Qle_bool D
                  (TrafficLights.Fixed.phaseTimer (TrafficLights.fixedState c) + dt)
                = true).
    { apply Qle_bool_iff. rewrite H. apply Qle_refl. }
    destruct (Hfire E) as [Hp [Ht Hl]].
    cbv zeta. cbn [TrafficLights.runFixed fold_left].
    split; [exact Hs |]. split; [exact Hp |]. split; [exact Ht | exact Hl].
  - cbn [TrafficLights.reachesExactly] in H.
    apply andb_true_iff in H. destruct H as [Hlt H].
    assert (E : Qle_bool D
                  (TrafficLights.Fixed.phaseTimer (TrafficLights.fixedState c) + dt)
                = false).
    { unfold Qltb in Hlt. apply negb_true_iff in Hlt. exact Hlt. }
    destruct (Hhold E) as [Hp [Ht _]].
    change (TrafficLights.runFixed (dt :: dt' :: rest') c)
      with (TrafficLights.runFixed (dt' :: rest')
              (TrafficLights.updateFixedMode dt c)).
    specialize (IH (TrafficLights.updateFixedMode dt c)).
    rewrite Hs, Hp, Ht in IH.
    cbv zeta in IH. cbv zeta. rewrite <- Hs at 1.
    rewrite Hs. apply IH; assumption.
Qed.

(** C4 (as amended).  In fixed mode a call of [updateFixedMode] in a
    phase of the cycle fires the transition exactly when the advanced timer
    has reached the duration of the phase, and then the phase index is the
    next one modulo 6 and the timer is 0.  Starting at phase 0 with timer
    0, if the updates bring the timer of each phase exactly to its
    duration (no update overshoots a transition), then after the
    accumulated time GREEN + YELLOW + 3000 + GREEN + YELLOW + 3000 the
    controller is back at phase 0 with timer 0, north and south green and
    east and west red. *)
Theorem fixed_cycle_closure (c : TrafficLights.Controller)
  (g1 y1 w1 g2 y2 w2 : list Q) :
  let G := GREEN_DURATION (TrafficLights.settings c) in
  let Y := YELLOW_DURATION (TrafficLights.settings c) in
  TrafficLights.Fixed.currentPhase (TrafficLights.fixedState c) = 0%nat ->
  TrafficLights.Fixed.phaseTimer (TrafficLights.fixedState c) = 0 ->
  TrafficLights.reachesExactly G 0 g1 = true ->
  TrafficLights.reachesExactly Y 0 y1 = true ->
  TrafficLights.reachesExactly 3000 0 w1 = true ->
  TrafficLights.reachesExactly G 0 g2 = true ->
  TrafficLights.reachesExactly Y 0 y2 = true ->
  TrafficLights.reachesExactly 3000 0 w2 = true ->
  let deltas := g1 ++ y1 ++ w1 ++ g2 ++ y2 ++ w2 in
  let c' := TrafficLights.runFixed deltas c in
  (forall (dt D : Q) (c0 : TrafficLights.Controller),
      TrafficLights.requiredDuration (TrafficLights.settings c0)
        (TrafficLights.Fixed.currentPhase (TrafficLights.fixedState c0)) = Some D ->
      let t := TrafficLights.Fixed.phaseTimer (TrafficLights.fixedState c0) in
      let c1 := TrafficLights.updateFixedMode dt c0 in
      (D <= t + dt ->
         TrafficLights.Fixed.currentPhase (TrafficLights.fixedState c1)
         = ((TrafficLights.Fixed.currentPhase (TrafficLights.fixedState c0) + 1)
              mod 6)%nat
         /\ TrafficLights.Fixed.phaseTimer (TrafficLights.fixedState c1) = 0)
      /\ (t + dt < D ->
          TrafficLights.Fixed.currentPhase (TrafficLights.fixedState c1)
          = TrafficLights.Fixed.currentPhase (TrafficLights.fixedState c0)
          /\ TrafficLights.Fixed.phaseTimer (TrafficLights.fixedState c1) = t + dt))
  /\ TrafficLights.accumulated deltas == G + Y + 3000 + G + Y + 3000
  /\ TrafficLights.Fixed.currentPhase (TrafficLights.fixedState c') = 0%nat
  /\ TrafficLights.Fixed.phaseTimer (TrafficLights.fixedState c') = 0
  /\ TrafficLights.getLightStates c' = mkPerDir green green red red.
Proof.
  intros G Y Hp Ht Hg1 Hy1 Hw1 Hg2 Hy2 Hw2 deltas c'.
  split; [| split].
  - intros dt D c0 HD. cbv zeta.
    destruct (updateFixedMode_step dt D c0 HD) as [_ [Hfire Hhold]].
    split; intro H.
    + apply Qle_bool_iff in H. destruct (Hfire H) as [H1 [H2 _]].
      split; assumption.
    + assert (E : Qle_bool D
                    (TrafficLights.Fixed.phaseTimer (TrafficLights.fixedState c0) + dt)
                  = false).
      { destruct (Qle_bool D _) eqn:E; [| reflexivity].
        apply Qle_bool_iff in E. exfalso. exact (Qlt_not_le _ _ H E). }
      destruct (Hhold E) as [H1 [H2 _]]. split; assumption.
  - subst deltas. rewrite !accumulated_app.
    rewrite <- (reachesExactly_sum G g1 0 Hg1) at 1.
    rewrite <- (reachesExactly_sum Y y1 0 Hy1) at 1.
    rewrite <- (reachesExactly_sum 3000 w1 0 Hw1) at 1.
    rewrite <- (reachesExactly_sum G g2 0 Hg2).
    rewrite <- (reachesExactly_sum Y y2 0 Hy2).
    rewrite <- (reachesExactly_sum 3000 w2 0 Hw2).
    ring.
  - subst c' deltas. rewrite !runFixed_app.
    (* phase 0 *)
    destruct (runFixed_phase G g1 c) as [S1 [P1 [T1 _]]];
      [rewrite Hp; reflexivity | rewrite Ht; exact Hg1 |].
    rewrite Hp in P1. simpl in P1.
    set (c1 := TrafficLights.runFixed g1 c) in *.
    (* phase 1 *)
    destruct (runFixed_phase Y y1 c1) as [S2 [P2 [T2 _]]];
      [rewrite P1, S1; reflexivity | rewrite T1; exact Hy1 |].
    rewrite P1 in P2. simpl in P2.
    set (c2 := TrafficLights.runFixed y1 c1) in *.
    (* phase 2 *)
    destruct (runFixed_phase 3000 w1 c2) as [S3 [P3 [T3 _]]];
      [rewrite P2; reflexivity | rewrite T2; exact Hw1 |].
    rewrite P2 in P3. simpl in P3.
    set (c3 := TrafficLights.runFixed w1 c2) in *.
    (* phase 3 *)
    destruct (runFixed_phase G g2 c3) as [S4 [P4 [T4 _]]];
      [rewrite P3, S3, S2, S1; reflexivity | rewrite T3; exact Hg2 |].
    rewrite P3 in P4. simpl in P4.
    set (c4 := TrafficLights.runFixed g2 c3) in *.
    (* phase 4 *)
    destruct (runFixed_phase Y y2 c4) as [S5 [P5 [T5 _]]];
      [rewrite P4, S4, S3, S2, S1; reflexivity | rewrite T4; exact Hy2 |].
    rewrite P4 in P5. simpl in P5.
    set (c5 := TrafficLights.runFixed y2 c4) in *.
    (* phase 5 *)
    destruct (runFixed_phase 3000 w2 c5) as [S6 [P6 [T6 L6]]];
      [rewrite P5; reflexivity | rewrite T5; exact Hw2 |].
    rewrite P5 in P6, L6. simpl in P6, L6.
    split; [exact P6 |]. split; [exact T6 | exact L6].
Qed.

(** One-second updates under the default settings: 100 of them for each
    green, 5 for each yellow, 3 for each clearance. *)
Lemma fixed_cycle_closure_witness :
  let c := TrafficLights.initialize fixed DEFAULT_SETTINGS TrafficLights.new in
  let deltas := repeat 1000 100 ++ repeat 1000 5 ++ repeat 1000 3
                ++ repeat 1000 100 ++ repeat 1000 5 ++ repeat 1000 3 in
  TrafficLights.accumulated deltas == 100000 + 5000 + 3000 + 100000 + 5000 + 3000
  /\ TrafficLights.Fixed.currentPhase
       (TrafficLights.fixedState (TrafficLights.runFixed deltas c)) = 0%nat
  /\ TrafficLights.getLightStates (TrafficLights.runFixed deltas c)
     = mkPerDir green green red red.
Proof.
  intros c deltas.
  destruct (fixed_cycle_closure c
              (repeat 1000 100) (repeat 1000 5) (repeat 1000 3)
              (repeat 1000 100) (repeat 1000 5) (repeat 1000 3)
              eq_refl eq_refl
              ltac:(vm_compute; reflexivity) ltac:(vm_compute; reflexivity)
              ltac:(vm_compute; reflexivity) ltac:(vm_compute; reflexivity)
              ltac:(vm_compute; reflexivity) ltac:(vm_compute; reflexivity))
    as [_ [Hsum [Hp [_ Hl]]]].
  split; [exact Hsum |]. split; [exact Hp | exact Hl].
Defined.

(** C4, counterexample.  Default settings (green 100 s, yellow 5 s), phase
    0, timer 0, and four updates of 54 s: the accumulated time is
    GREEN + YELLOW + 3000 + GREEN + YELLOW + 3000 = 216000 ms, yet each
    transition discards what its update overshot, and the controller is at
    phase 3 with east and west green, north and south red. *)
Lemma fixed_cycle_overshoot :
  let c := TrafficLights.initialize fixed DEFAULT_SETTINGS TrafficLights.new in
  let deltas := [54000; 54000; 54000; 54000] in
  TrafficLights.Fixed.currentPhase (TrafficLights.fixedState c) = 0%nat
  /\ TrafficLights.Fixed.phaseTimer (TrafficLights.fixedState c) = 0
  /\ TrafficLights.accumulated deltas
     == GREEN_DURATION DEFAULT_SETTINGS + YELLOW_DURATION DEFAULT_SETTINGS + 3000
        + GREEN_DURATION DEFAULT_SETTINGS + YELLOW_DURATION DEFAULT_SETTINGS + 3000
  /\ TrafficLights.Fixed.currentPhase
       (TrafficLights.fixedState (TrafficLights.runFixed deltas c)) = 3%nat
  /\ TrafficLights.getLightStates (TrafficLights.runFixed deltas c)
     = mkPerDir red red green green.
Proof.
  cbv zeta. repeat split; vm_compute; reflexivity.
Qed.

(** The same with the updates of a display running at 16 ms per frame:
    5000 and 3000 are not multiples of 16, the yellow phases take 313
    updates and the clearances 188, and after the 13500 updates that make
    up 216000 ms the controller is still in the last clearance. *)
Example fixed_cycle_overshoot_frames :
  let c := TrafficLights.initialize fixed DEFAULT_SETTINGS TrafficLights.new in
  let deltas := repeat 16 (135 * 100) in
  TrafficLights.accumulated deltas == 216000
  /\ TrafficLights.Fixed.currentPhase
       (TrafficLights.fixedState (TrafficLights.runFixed deltas c)) = 5%nat
  /\ TrafficLights.getLightStates (TrafficLights.runFixed deltas c)
     = mkPerDir red red red red.
Proof.
  cbv zeta. repeat split; vm_compute; reflexivity.
Qed.

End FixedModeClaims.

(* ------------------------------------------------------------------ *)
(** ** Signal controller: adaptive mode *)

Section AdaptiveMode.
Import Config.
Local Open Scope Q_scope.

Lemma orZero_eq (x : Q) : TrafficLights.orZero x == x.
Proof.
  unfold TrafficLights.orZero. destruct (Qeq_bool x 0) eqn:E.
  - apply Qeq_bool_iff in E. symmetry. exact E.
  - reflexivity.
Qed.

(** The switch test in terms of the scores of the two pairs. *)
Lemma shouldSwitchInAdaptive_spec (c : TrafficLights.Controller)
  (p : TrafficLights.Pair) :
  TrafficLights.Adaptive.currentPair (TrafficLights.adaptiveState c) = Some p ->
  let sc := TrafficLights.Adaptive.priorityScores (TrafficLights.adaptiveState c) in
  TrafficLights.shouldSwitchInAdaptive c = true
  <-> (TrafficLights.score p sc * (15 # 10)
       < TrafficLights.score (TrafficLights.otherPair p) sc
       /\ 10 < TrafficLights.score (TrafficLights.otherPair p) sc).
Proof.
  intro Hp. cbv zeta. unfold TrafficLights.shouldSwitchInAdaptive. rewrite Hp.
  rewrite andb_true_iff, !Qgtb_true.
  assert (E : (match p with
               | TrafficLights.WE => TrafficLights.NS
               | TrafficLights.NS => TrafficLights.WE
               end) = TrafficLights.otherPair p) by (destruct p; reflexivity).
  replace (match Some p with
           | Some TrafficLights.WE => TrafficLights.NS
           | _ => TrafficLights.WE
           end) with (TrafficLights.otherPair p) by (destruct p; reflexivity).
  rewrite !orZero_eq. reflexivity.
Qed.

(** With tied scores no pair has the highest priority. *)
Lemma getHighestPriorityPair_tie (c : TrafficLights.Controller) :
  TrafficLights.scoreWE
    (TrafficLights.Adaptive.priorityScores (TrafficLights.adaptiveState c))
  == TrafficLights.scoreNS
       (TrafficLights.Adaptive.priorityScores (TrafficLights.adaptiveState c)) ->
  TrafficLights.getHighestPriorityPair c = None.
Proof.
  intro H. unfold TrafficLights.getHighestPriorityPair.
  set (we := TrafficLights.orZero _). set (ns := TrafficLights.orZero _).
  assert (E : we == ns) by (subst we ns; rewrite !orZero_eq; exact H).
  assert (E1 : Qgtb we ns = false) by (apply Qgtb_false; rewrite E; apply Qle_refl).
  assert (E2 : Qgtb ns we = false) by (apply Qgtb_false; rewrite E; apply Qle_refl).
  rewrite E1, E2. reflexivity.
Qed.

(** Light states after [setAdaptiveLightState]. *)
Lemma setAdaptiveLightState_colors (c : TrafficLights.Controller)
  (p : TrafficLights.Pair) (d : Direction) :
  TrafficLights.Adaptive.currentPair (TrafficLights.adaptiveState c) = Some p ->
  get d (TrafficLights.getLightStates (TrafficLights.setAdaptiveLightState c))
  = if TrafficLights.inPair p d
    then TrafficLights.Adaptive.currentPhase (TrafficLights.adaptiveState c)
    else red.
Proof.
  intro Hp. unfold TrafficLights.setAdaptiveLightState.
  change (TrafficLights.adaptiveState (TrafficLights.setAllLightsRed c))
    with (TrafficLights.adaptiveState c).
  rewrite Hp. destruct p, d; reflexivity.
Qed.

(** The lights are the only part of the controller written by
    [setAdaptiveLightState]. *)
Lemma setAdaptiveLightState_state (c : TrafficLights.Controller) :
  TrafficLights.adaptiveState (TrafficLights.setAdaptiveLightState c)
  = TrafficLights.adaptiveState c.
Proof.
  unfold TrafficLights.setAdaptiveLightState.
  change (TrafficLights.adaptiveState (TrafficLights.setAllLightsRed c))
    with (TrafficLights.adaptiveState c).
  destruct (TrafficLights.Adaptive.currentPair (TrafficLights.adaptiveState c))
    as [[|] |]; reflexivity.
Qed.

(** C5.  In adaptive mode with an active pair in the green sub-phase, an
    update takes the controller to yellow if and only if the score of the
    competing pair exceeds 1.5 times the score of the active pair and
    exceeds 10; the yellow then starts with timer 0 on the approaches of
    the active pair; while the condition is false the pair stays green,
    the lights are untouched and the timer runs on. *)
Theorem adaptive_green_switch (deltaTime now : Q) (c : TrafficLights.Controller)
  (p : TrafficLights.Pair) :
  TrafficLights.Adaptive.currentPair (TrafficLights.adaptiveState c) = Some p ->
  TrafficLights.Adaptive.currentPhase (TrafficLights.adaptiveState c) = green ->
  let sc := TrafficLights.Adaptive.priorityScores (TrafficLights.adaptiveState c) in
  let currentScore := TrafficLights.score p sc in
  let otherScore := TrafficLights.score (TrafficLights.otherPair p) sc in
  let c' := TrafficLights.updateAdaptiveMode deltaTime now c in
  (TrafficLights.Adaptive.currentPhase (TrafficLights.adaptiveState c') = yellow
   <-> (currentScore * (15 # 10) < otherScore /\ 10 < otherScore))
  /\ TrafficLights.Adaptive.currentPair (TrafficLights.adaptiveState c') = Some p
  /\ (currentScore * (15 # 10) < otherScore /\ 10 < otherScore ->
      TrafficLights.Adaptive.phaseTimer (TrafficLights.adaptiveState c') = 0
      /\ forall d, get d (TrafficLights.getLightStates c')
                   = if TrafficLights.inPair p d then yellow else red)
  /\ (~ (currentScore * (15 # 10) < otherScore /\ 10 < otherScore) ->
      TrafficLights.Adaptive.currentPhase (TrafficLights.adaptiveState c') = green
      /\ TrafficLights.lights c' = TrafficLights.lights c
      /\ TrafficLights.Adaptive.phaseTimer (TrafficLights.adaptiveState c')
         = TrafficLights.Adaptive.phaseTimer (TrafficLights.adaptiveState c)
           + deltaTime).
Proof.
  intros Hp Hg. cbv zeta.
  set (c1 := TrafficLights.set_adaptiveState
               (TrafficLights.set_phase
                  (TrafficLights.Adaptive.currentPhase (TrafficLights.adaptiveState c))
                  (TrafficLights.Adaptive.phaseTimer (TrafficLights.adaptiveState c)
                   + deltaTime)
                  (TrafficLights.adaptiveState c)) c).
  assert (Hp1 : TrafficLights.Adaptive.currentPair (TrafficLights.adaptiveState c1)
                = Some p) by exact Hp.
  assert (Hspec := shouldSwitchInAdaptive_spec c1 p Hp1). cbv zeta in Hspec.
  change (TrafficLights.Adaptive.priorityScores (TrafficLights.adaptiveState c1))
    with (TrafficLights.Adaptive.priorityScores (TrafficLights.adaptiveState c))
    in Hspec.
  assert (Hupd : TrafficLights.updateAdaptiveMode deltaTime now c
                 = if TrafficLights.shouldSwitchInAdaptive c1
                   then TrafficLights.startAdaptiveYellow c1 else c1).
  { unfold TrafficLights.updateAdaptiveMode. fold c1. rewrite Hp1.
    change (TrafficLights.Adaptive.currentPhase (TrafficLights.adaptiveState c1))
      with (TrafficLights.Adaptive.currentPhase (TrafficLights.adaptiveState c)).
    rewrite Hg. reflexivity. }
  rewrite Hupd.
  destruct (TrafficLights.shouldSwitchInAdaptive c1) eqn:Es.
  - assert (Hc := proj1 Hspec eq_refl).
    assert (Hst : TrafficLights.adaptiveState (TrafficLights.startAdaptiveYellow c1)
                  = TrafficLights.set_phase yellow 0 (TrafficLights.adaptiveState c1)).
    { unfold TrafficLights.startAdaptiveYellow.
      rewrite setAdaptiveLightState_state. reflexivity. }
    rewrite Hst.
    split; [split; [intros _; exact Hc | intros _; reflexivity] |].
    split; [exact Hp |].
    split.
    + intros _. split; [reflexivity |]. intro d.
      unfold TrafficLights.startAdaptiveYellow.
      rewrite (setAdaptiveLightState_colors _ p d); [reflexivity | exact Hp].
    + intro Hn. exfalso. exact (Hn Hc).
  - assert (Hn : ~ (TrafficLights.score p
                      (TrafficLights.Adaptive.priorityScores
                         (TrafficLights.adaptiveState c)) * (15 # 10)
                    < TrafficLights.score (TrafficLights.otherPair p)
                        (TrafficLights.Adaptive.priorityScores
                           (TrafficLights.adaptiveState c))
                    /\ 10 < TrafficLights.score (TrafficLights.otherPair p)
                              (TrafficLights.Adaptive.priorityScores
                                 (TrafficLights.adaptiveState c)))).
    { intro Hc. apply Hspec in Hc. congruence. }
    split.
    + split; [| intro Hc; exfalso; exact (Hn Hc)].
      simpl. rewrite Hg. intro H. discriminate H.
    + split; [exact Hp |]. split; [intro Hc; exfalso; exact (Hn Hc) |].
      intros _. simpl. rewrite Hg. repeat split; reflexivity.
Qed.

End AdaptiveMode.

Section AdaptiveModeClaims.
Import Config AdaptiveSpec.
Local Open Scope Q_scope.

(** North-south green with 2 vehicles counted, against 12 counted on the
    west approach: 12 > 2 * 1.5 and 12 > 10. *)
Lemma adaptive_green_switch_witness :
  let c := TrafficLights.updateAdaptiveLogic (Sample.detected 2 0 0 12)
             Sample.nsGreen in
  TrafficLights.Adaptive.currentPhase
    (TrafficLights.adaptiveState (TrafficLights.updateAdaptiveMode 16 0 c))
  = yellow.
Proof.
  intro c.
  destruct (adaptive_green_switch 16 0 c TrafficLights.NS eq_refl eq_refl)
    as [[_ H] _].
  apply H. split; vm_compute; reflexivity.
Defined.

(** [startAdaptiveRed] leads to such a state. *)
Lemma startAdaptiveRed_inClearance (now : Q) (c : TrafficLights.Controller)
  (p : TrafficLights.Pair) :
  TrafficLights.Adaptive.isActive (TrafficLights.adaptiveState c) = true ->
  TrafficLights.Adaptive.currentPair (TrafficLights.adaptiveState c) = Some p ->
  inClearance p (TrafficLights.startAdaptiveRed now c).
Proof.
  intros Ha Hp. unfold inClearance. repeat split; assumption.
Qed.

(** One update in the clearance with tied scores: only the timer moves. *)
Lemma update_clearance_tie (dt now : Q) (s : Settings)
  (c : TrafficLights.Controller) (p : TrafficLights.Pair) :
  inClearance p c -> tied c ->
  let c' := TrafficLights.update dt adaptive s now c in
  inClearance p c' /\ tied c'
  /\ TrafficLights.mode c' = adaptive
  /\ TrafficLights.Adaptive.phaseTimer (TrafficLights.adaptiveState c')
     = TrafficLights.Adaptive.phaseTimer (TrafficLights.adaptiveState c) + dt.
Proof.
  intros [Ha [Hp [Hr Hl]]] Ht. cbv zeta.
  unfold TrafficLights.update.
  change (TrafficLights.Adaptive.isActive
            (TrafficLights.adaptiveState (TrafficLights.set_mode_settings adaptive s c)))
    with (TrafficLights.Adaptive.isActive (TrafficLights.adaptiveState c)).
  rewrite Ha.
  set (c0 := TrafficLights.set_mode_settings adaptive s c).
  unfold TrafficLights.updateAdaptiveMode.
  set (c1 := TrafficLights.set_adaptiveState
               (TrafficLights.set_phase
                  (TrafficLights.Adaptive.currentPhase (TrafficLights.adaptiveState c0))
                  (TrafficLights.Adaptive.phaseTimer (TrafficLights.adaptiveState c0) + dt)
                  (TrafficLights.adaptiveState c0)) c0).
  change (TrafficLights.Adaptive.currentPair (TrafficLights.adaptiveState c1))
    with (TrafficLights.Adaptive.currentPair (TrafficLights.adaptiveState c)).
  change (TrafficLights.Adaptive.currentPhase (TrafficLights.adaptiveState c1))
    with (TrafficLights.Adaptive.currentPhase (TrafficLights.adaptiveState c)).
  rewrite Hp, Hr.
  assert (Hnone : TrafficLights.getHighestPriorityPair c1 = None)
    by (apply getHighestPriorityPair_tie; exact Ht).
  rewrite Hnone.
  assert (G : inClearance p c1 /\ tied c1 /\ TrafficLights.mode c1 = adaptive
              /\ TrafficLights.Adaptive.phaseTimer (TrafficLights.adaptiveState c1)
                 = TrafficLights.Adaptive.phaseTimer (TrafficLights.adaptiveState c) + dt).
  { split; [| split; [exact Ht | split; reflexivity]].
    unfold inClearance. split; [exact Ha |]. split; [exact Hp |].
    split; [simpl; exact Hr | exact Hl]. }
  destruct (Qgeb (TrafficLights.Adaptive.phaseTimer (TrafficLights.adaptiveState c1)) 2000);
    exact G.
Qed.

(** A tick whose sensor data gives tied scores keeps the clearance. *)
Lemma adaptiveTick_clearance_tie (t : TrafficLights.Tick)
  (c : TrafficLights.Controller) (p : TrafficLights.Pair) :
  inClearance p c -> tied c -> tiedTick t ->
  inClearance p (TrafficLights.adaptiveTick c t)
  /\ tied (TrafficLights.adaptiveTick c t)
  /\ TrafficLights.Adaptive.phaseTimer
       (TrafficLights.adaptiveState (TrafficLights.adaptiveTick c t))
     = TrafficLights.Adaptive.phaseTimer (TrafficLights.adaptiveState c)
       + TrafficLights.tickDelta t.
Proof.
  intros Hc Ht Htt. unfold TrafficLights.adaptiveTick.
  destruct (update_clearance_tie (TrafficLights.tickDelta t) (TrafficLights.tickNow t)
              (TrafficLights.tickSettings t) c p Hc Ht)
    as [[Ha [Hp [Hr Hl]]] [_ [Hm Htm]]].
  set (c1 := TrafficLights.update (TrafficLights.tickDelta t) adaptive
               (TrafficLights.tickSettings t) (TrafficLights.tickNow t) c) in *.
  unfold TrafficLights.updateAdaptiveLogic. rewrite Hm, Ha.
  split; [| split].
  - unfold inClearance. simpl. repeat split; assumption.
  - exact Htt.
  - exact Htm.
Qed.

(** C10.  In adaptive mode with an active pair, once the controller is in
    the all-red clearance: with tied scores (both zero in particular)
    [getHighestPriorityPair] returns [null], and for as long as the sensor
    data of the ticks keeps the scores tied the pair stays the same, the
    sub-phase stays red and the four approaches stay red, however long the
    ticks last; the phase timer is never reset, so the 2 s of the
    clearance elapse without a return to green. *)
Theorem adaptive_red_tie_stuck (ticks : list TrafficLights.Tick)
  (c : TrafficLights.Controller) (p : TrafficLights.Pair) :
  TrafficLights.Adaptive.isActive (TrafficLights.adaptiveState c) = true ->
  TrafficLights.Adaptive.currentPair (TrafficLights.adaptiveState c) = Some p ->
  TrafficLights.Adaptive.currentPhase (TrafficLights.adaptiveState c) = red ->
  TrafficLights.getLightStates c = constPerDir red ->
  TrafficLights.scoreWE
    (TrafficLights.Adaptive.priorityScores (TrafficLights.adaptiveState c))
  == TrafficLights.scoreNS
       (TrafficLights.Adaptive.priorityScores (TrafficLights.adaptiveState c)) ->
  Forall (fun t =>
            TrafficLights.calculatePairScore TrafficLights.WE
              (TrafficLights.tickSensorData t)
            == TrafficLights.calculatePairScore TrafficLights.NS
                 (TrafficLights.tickSensorData t)) ticks ->
  let c' := TrafficLights.runAdaptive ticks c in
  TrafficLights.getHighestPriorityPair c = None
  /\ TrafficLights.getHighestPriorityPair c' = None
  /\ TrafficLights.Adaptive.currentPair (TrafficLights.adaptiveState c') = Some p
  /\ TrafficLights.Adaptive.currentPhase (TrafficLights.adaptiveState c') = red
  /\ TrafficLights.getLightStates c' = constPerDir red
  /\ TrafficLights.Adaptive.phaseTimer (TrafficLights.adaptiveState c')
     == TrafficLights.Adaptive.phaseTimer (TrafficLights.adaptiveState c)
        + TrafficLights.accumulated (map TrafficLights.tickDelta ticks).
Proof.
  intros Ha Hp Hr Hl Ht Hticks. cbv zeta.
  split; [apply getHighestPriorityPair_tie; exact Ht |].
  assert (Hc : inClearance p c) by (unfold inClearance; repeat split; assumption).
  assert (Htied : tied c) by exact Ht.
  clear Ha Hp Hr Hl Ht.
  revert c Hc Htied.
  induction Hticks as [| t ticks Htt _ IH]; intros c Hc Htied.
  - simpl. destruct Hc as [_ [Hp [Hr Hl]]].
    split; [apply getHighestPriorityPair_tie; exact Htied |].
    split; [exact Hp |]. split; [exact Hr |]. split; [exact Hl |].
    rewrite Qplus_0_r. reflexivity.
  - destruct (adaptiveTick_clearance_tie t c p Hc Htied Htt) as [Hc1 [Ht1 Htm]].
    change (TrafficLights.runAdaptive (t :: ticks) c)
      with (TrafficLights.runAdaptive ticks (TrafficLights.adaptiveTick c t)).
    destruct (IH _ Hc1 Ht1) as [H0 [H1 [H2 [H3 H4]]]].
    split; [exact H0 |]. split; [exact H1 |]. split; [exact H2 |].
    split; [exact H3 |].
    rewrite H4, Htm. simpl. ring.
Qed.

(** The clearance after the yellow of north-south, no vehicle detected on
    any approach (both scores 0), three ticks of one second: after 3 s, 1 s
    more than the clearance, the controller still shows red everywhere. *)
Lemma adaptive_red_tie_stuck_witness :
  let tick := TrafficLights.mkTick 1000 DEFAULT_SETTINGS 0 (Sample.detected 0 0 0 0) in
  let c' := TrafficLights.runAdaptive [tick; tick; tick] Sample.nsClearance in
  TrafficLights.Adaptive.currentPair (TrafficLights.adaptiveState c')
  = Some TrafficLights.NS
  /\ TrafficLights.Adaptive.currentPhase (TrafficLights.adaptiveState c') = red
  /\ TrafficLights.getLightStates c' = constPerDir red
  /\ TrafficLights.Adaptive.phaseTimer (TrafficLights.adaptiveState c') == 3000.
Proof.
  intros tick c'.
  destruct (adaptive_red_tie_stuck [tick; tick; tick] Sample.nsClearance
              TrafficLights.NS eq_refl eq_refl eq_refl eq_refl
              ltac:(vm_compute; reflexivity)
              ltac:(repeat constructor; vm_compute; reflexivity))
    as [_ [_ [Hp [Hr [Hl Ht]]]]].
  split; [exact Hp |]. split; [exact Hr |]. split; [exact Hl |].
  eapply Qeq_trans; [exact Ht | vm_compute; reflexivity].
Defined.

End AdaptiveModeClaims.

(* ------------------------------------------------------------------ *)
(** ** Detection *)

Section Detection.
Import Config SensorSpec.
Local Open Scope Q_scope.

Lemma get_set_same (A : Type) (d : Direction) (x : A) (m : perDir A) :
  get d (set d x m) = x.
Proof. destruct d; reflexivity. Qed.

Lemma get_set_other (A : Type) (d d' : Direction) (x : A) (m : perDir A) :
  d <> d' -> get d (set d' x m) = get d m.
Proof. destruct d, d'; intro H; try reflexivity; contradiction. Qed.

Lemma Direction_eqb_eq (d d' : Direction) : Direction_eqb d d' = true <-> d = d'.
Proof. destruct d, d'; simpl; split; intro H; try reflexivity; discriminate H. Qed.

Lemma Color_eqb_eq (c c' : Color) : Color_eqb c c' = true <-> c = c'.
Proof. destruct c, c'; simpl; split; intro H; try reflexivity; discriminate H. Qed.

Lemma getDetectionZone_geometry (s s' : Sensor.SensorSystem) (d : Direction) :
  sameGeometry s s' -> Sensor.getDetectionZone s' d = Sensor.getDetectionZone s d.
Proof.
  intros [Hx [Hy Hd]].
  unfold Sensor.getDetectionZone, Sensor.getStopLinePosition.
  rewrite Hx, Hy, Hd. reflexivity.
Qed.

Lemma sameGeometry_refl (s : Sensor.SensorSystem) : sameGeometry s s.
Proof. repeat split. Qed.

Lemma sameGeometry_trans (s1 s2 s3 : Sensor.SensorSystem) :
  sameGeometry s1 s2 -> sameGeometry s2 s3 -> sameGeometry s1 s3.
Proof.
  intros [A1 [A2 A3]] [B1 [B2 B3]]. repeat split; congruence.
Qed.

Lemma touchesOnly_refl (d : Direction) (s : Sensor.SensorSystem) : touchesOnly d s s.
Proof. split; [apply sameGeometry_refl | intros; repeat split]. Qed.

Lemma touchesOnly_trans (d : Direction) (s1 s2 s3 : Sensor.SensorSystem) :
  touchesOnly d s1 s2 -> touchesOnly d s2 s3 -> touchesOnly d s1 s3.
Proof.
  intros [G1 H1] [G2 H2]. split; [eapply sameGeometry_trans; eassumption |].
  intros d' Hd. destruct (H1 d' Hd) as [A1 [A2 A3]].
  destruct (H2 d' Hd) as [B1 [B2 B3]]. repeat split; congruence.
Qed.

(** The three writes of the loop body. *)
Lemma updDatum_touchesOnly (d : Direction)
  (f : Sensor.SensorDatum -> Sensor.SensorDatum) (s : Sensor.SensorSystem) :
  touchesOnly d s (Sensor.updDatum d f s).
Proof.
  split; [repeat split |]. intros d' Hd. simpl.
  rewrite get_set_other by exact Hd. repeat split.
Qed.

Lemma set_totals_touchesOnly (d : Direction) (n : nat) (s : Sensor.SensorSystem) :
  touchesOnly d s (Sensor.set_totals (set d n (Sensor.totals s)) s).
Proof.
  split; [repeat split |]. intros d' Hd. simpl.
  rewrite get_set_other by exact Hd. repeat split.
Qed.

Lemma set_waitingCars_touchesOnly (d : Direction) (c : option Sensor.Car)
  (s : Sensor.SensorSystem) :
  touchesOnly d s (Sensor.set_waitingCars (set d c (Sensor.waitingCars s)) s).
Proof.
  split; [repeat split |]. intros d' Hd. simpl.
  rewrite get_set_other by exact Hd. repeat split.
Qed.

Lemma countIfNew_touchesOnly d inZone s car :
  touchesOnly d s (fst (Sensor.countIfNew d inZone s car)).
Proof.
  unfold Sensor.countIfNew.
  destruct (negb (Sensor._countedInDetector car) && inZone); simpl fst.
  - eapply touchesOnly_trans; [apply set_totals_touchesOnly | apply updDatum_touchesOnly].
  - apply touchesOnly_refl.
Qed.

Lemma countIfNew_totals d inZone s car :
  get d (Sensor.totals (fst (Sensor.countIfNew d inZone s car)))
  = (get d (Sensor.totals s)
     + (if negb (Sensor._countedInDetector car) && inZone then 1 else 0))%nat.
Proof.
  unfold Sensor.countIfNew.
  destruct (negb (Sensor._countedInDetector car) && inZone); simpl.
  - rewrite get_set_same. lia.
  - lia.
Qed.

Lemma recordDetected_touchesOnly d inZone car s :
  touchesOnly d s (Sensor.recordDetected d inZone car s).
Proof.
  unfold Sensor.recordDetected. destruct inZone.
  - apply updDatum_touchesOnly.
  - apply touchesOnly_refl.
Qed.

Lemma recordDetected_totals d inZone car s :
  Sensor.totals (Sensor.recordDetected d inZone car s) = Sensor.totals s.
Proof. unfold Sensor.recordDetected. destruct inZone; reflexivity. Qed.

Lemma recordWaiting_touchesOnly d inZone now car s :
  touchesOnly d s (Sensor.recordWaiting d inZone now car s).
Proof.
  unfold Sensor.recordWaiting.
  destruct (Sensor.isWaiting car && inZone); [| apply touchesOnly_refl].
  cbv zeta.
  set (s1 := Sensor.updDatum d _ s).
  assert (H1 : touchesOnly d s s1) by apply updDatum_touchesOnly.
  set (s2 := match get d (Sensor.waitingCars s1) with
             | Some other => _ | None => _ end).
  assert (H2 : touchesOnly d s1 s2).
  { subst s2. destruct (get d (Sensor.waitingCars s1)).
    - destruct (Sensor.isCarCloserToStopLine s1 car c d);
        [apply set_waitingCars_touchesOnly | apply touchesOnly_refl].
    - apply set_waitingCars_touchesOnly. }
  destruct (Sensor.unsetStart _).
  - eapply touchesOnly_trans; [exact H1 |].
    eapply touchesOnly_trans; [exact H2 | apply updDatum_touchesOnly].
  - eapply touchesOnly_trans; eassumption.
Qed.

Lemma recordWaiting_totals d inZone now car s :
  Sensor.totals (Sensor.recordWaiting d inZone now car s) = Sensor.totals s.
Proof.
  unfold Sensor.recordWaiting.
  destruct (Sensor.isWaiting car && inZone); [| reflexivity].
  cbv zeta.
  set (s1 := Sensor.updDatum d _ s).
  destruct (get d (Sensor.waitingCars s1)) as [c |].
  - destruct (Sensor.isCarCloserToStopLine s1 car c d);
      destruct (Sensor.unsetStart _); reflexivity.
  - destruct (Sensor.unsetStart _); reflexivity.
Qed.

(** The loop body touches the entries of the direction of the car only,
    and nothing at all unless the light of that direction is red. *)
Lemma processCar_touchesOnly ls now s car :
  touchesOnly (Sensor.getDirection car) s (fst (Sensor.processCar ls now s car)).
Proof.
  unfold Sensor.processCar.
  destruct ls as [ls |]; [| apply touchesOnly_refl].
  destruct (Color_eqb (get (Sensor.getDirection car) ls) red);
    [| apply touchesOnly_refl].
  cbv zeta.
  set (inZone := Sensor.isCarInDetectionZone car _).
  pose proof (countIfNew_touchesOnly (Sensor.getDirection car) inZone s car) as H1.
  destruct (Sensor.countIfNew (Sensor.getDirection car) inZone s car) as [s1 car1].
  simpl fst in *.
  eapply touchesOnly_trans; [exact H1 |].
  eapply touchesOnly_trans;
    [apply recordDetected_touchesOnly | apply recordWaiting_touchesOnly].
Qed.

Lemma processCar_not_red ls now s car :
  get (Sensor.getDirection car) ls <> red ->
  fst (Sensor.processCar (Some ls) now s car) = s.
Proof.
  intro H. unfold Sensor.processCar.
  destruct (Color_eqb (get (Sensor.getDirection car) ls) red) eqn:E;
    [| reflexivity].
  apply Color_eqb_eq in E. contradiction.
Qed.

Lemma processCar_totals ls now s car d :
  get d (Sensor.totals (fst (Sensor.processCar (Some ls) now s car)))
  = (get d (Sensor.totals s) + (if newlyCounted s ls d car then 1 else 0))%nat.
Proof.
  unfold newlyCounted.
  destruct (Direction_eqb (Sensor.getDirection car) d) eqn:Ed.
  - apply Direction_eqb_eq in Ed. subst d. simpl andb.
    unfold Sensor.processCar.
    destruct (Color_eqb (get (Sensor.getDirection car) ls) red); simpl andb;
      [| simpl; lia].
    cbv zeta.
    set (inZone := Sensor.isCarInDetectionZone car _).
    pose proof (countIfNew_totals (Sensor.getDirection car) inZone s car) as H1.
    destruct (Sensor.countIfNew (Sensor.getDirection car) inZone s car) as [s1 car1].
    simpl fst in *.
    rewrite recordWaiting_totals, recordDetected_totals. exact H1.
  - simpl andb.
    assert (Hne : d <> Sensor.getDirection car).
    { intro E. subst d.
      assert (X : Direction_eqb (Sensor.getDirection car) (Sensor.getDirection car) = true)
        by (apply Direction_eqb_eq; reflexivity).
      congruence. }
    destruct (processCar_touchesOnly (Some ls) now s car) as [_ H].
    destruct (H d Hne) as [_ [Ht _]]. rewrite Ht. lia.
Qed.

Lemma processCar_geometry ls now s car :
  sameGeometry s (fst (Sensor.processCar ls now s car)).
Proof. exact (proj1 (processCar_touchesOnly ls now s car)). Qed.

Lemma newlyCounted_geometry s s' ls d car :
  sameGeometry s s' -> newlyCounted s' ls d car = newlyCounted s ls d car.
Proof.
  intro H. unfold newlyCounted.
  rewrite (getDetectionZone_geometry s s' d H). reflexivity.
Qed.

(** Over the whole list of cars: the counter of a direction grows by the
    number of cars newly counted for it. *)
Lemma processCars_totals ls now d cars :
  forall s,
    sameGeometry s (fst (Sensor.processCars (Some ls) now s cars))
    /\ get d (Sensor.totals (fst (Sensor.processCars (Some ls) now s cars)))
       = (get d (Sensor.totals s)
          + List.length (filter (newlyCounted s ls d) cars))%nat.
Proof.
  induction cars as [| car rest IH]; intro s.
  - simpl. split; [apply sameGeometry_refl | lia].
  - cbn [Sensor.processCars].
    pose proof (processCar_totals ls now s car d) as H1.
    pose proof (processCar_geometry (Some ls) now s car) as G1.
    destruct (Sensor.processCar (Some ls) now s car) as [s1 car1].
    simpl fst in *.
    destruct (IH s1) as [G2 H2].
    destruct (Sensor.processCars (Some ls) now s1 rest) as [s2 rest2].
    simpl fst in *.
    split; [eapply sameGeometry_trans; eassumption |].
    rewrite H2, H1.
    rewrite (filter_ext _ _ (fun c => newlyCounted_geometry s s1 ls d c G1)).
    cbn [filter]. destruct (newlyCounted s ls d car); simpl; lia.
Qed.

(** A direction whose light is not red is left alone by the loop. *)
Lemma processCars_not_red ls now d cars :
  get d ls <> red ->
  forall s,
    get d (Sensor.sensorData (fst (Sensor.processCars (Some ls) now s cars)))
    = get d (Sensor.sensorData s)
    /\ get d (Sensor.waitingCars (fst (Sensor.processCars (Some ls) now s cars)))
       = get d (Sensor.waitingCars s).
Proof.
  intro Hd. induction cars as [| car rest IH]; intro s.
  - simpl. split; reflexivity.
  - cbn [Sensor.processCars].
    assert (H1 : get d (Sensor.sensorData (fst (Sensor.processCar (Some ls) now s car)))
                 = get d (Sensor.sensorData s)
                 /\ get d (Sensor.waitingCars (fst (Sensor.processCar (Some ls) now s car)))
                    = get d (Sensor.waitingCars s)).
    { destruct (Direction_eqb (Sensor.getDirection car) d) eqn:Ed.
      - apply Direction_eqb_eq in Ed. subst d.
        rewrite (processCar_not_red ls now s car Hd). split; reflexivity.
      - assert (Hne : d <> Sensor.getDirection car).
        { intro E. subst d.
          assert (X : Direction_eqb (Sensor.getDirection car) (Sensor.getDirection car)
                      = true) by (apply Direction_eqb_eq; reflexivity).
          congruence. }
        destruct (processCar_touchesOnly (Some ls) now s car) as [_ H].
        destruct (H d Hne) as [A [_ B]]. split; assumption. }
    destruct (Sensor.processCar (Some ls) now s car) as [s1 car1].
    simpl fst in *.
    destruct (IH s1) as [A2 B2].
    destruct (Sensor.processCars (Some ls) now s1 rest) as [s2 rest2].
    simpl fst in *.
    destruct H1 as [A1 B1]. split; congruence.
Qed.

(** The last loop writes wait times only. *)
Lemma setWaitTimes_totals (s : Sensor.SensorSystem) :
  Sensor.totals (Sensor.setWaitTimes s) = Sensor.totals s.
Proof.
  unfold Sensor.setWaitTimes, DIRECTIONS. cbn [fold_left].
  repeat match goal with
         | |- context [match ?x with Some _ => _ | None => _ end] => destruct x
         end; reflexivity.
Qed.

Lemma setWaitTimes_untracked (s : Sensor.SensorSystem) (d : Direction) :
  get d (Sensor.waitingCars s) = None ->
  get d (Sensor.sensorData (Sensor.setWaitTimes s)) = get d (Sensor.sensorData s).
Proof.
  intro H. unfold Sensor.setWaitTimes, DIRECTIONS. cbn [fold_left].
  destruct d; simpl in H;
  repeat match goal with
         | |- context [match ?x with Some _ => _ | None => _ end] =>
             let E := fresh "E" in destruct x eqn:E
         end; simpl in *; try reflexivity; try congruence.
Qed.

(** The resets at the head of [update]. *)
Lemma clearDetection_state (s : Sensor.SensorSystem) (d : Direction) :
  sameGeometry s (Sensor.clearDetection s)
  /\ Sensor.totals (Sensor.clearDetection s) = Sensor.totals s
  /\ Sensor.shouldResetCounts (Sensor.clearDetection s) = Sensor.shouldResetCounts s
  /\ get d (Sensor.waitingCars (Sensor.clearDetection s)) = None
  /\ get d (Sensor.sensorData (Sensor.clearDetection s))
     = Sensor.mkDatum 0 0 [] None
         (Sensor.totalCarsDetected (get d (Sensor.sensorData s))).
Proof.
  unfold Sensor.clearDetection, DIRECTIONS. cbn [fold_left].
  repeat split; destruct d; reflexivity.
Qed.

Lemma resetOnLightChange_state (ls pls : perDir Color) (s : Sensor.SensorSystem)
  (d : Direction) :
  sameGeometry s (Sensor.resetOnLightChange ls pls s)
  /\ Sensor.shouldResetCounts (Sensor.resetOnLightChange ls pls s)
     = Sensor.shouldResetCounts s
  /\ Sensor.waitingCars (Sensor.resetOnLightChange ls pls s) = Sensor.waitingCars s
  /\ Sensor.totalCarsDetected
       (get d (Sensor.sensorData (Sensor.resetOnLightChange ls pls s)))
     = Sensor.totalCarsDetected (get d (Sensor.sensorData s))
  /\ (get d ls <> get d pls ->
      get d (Sensor.totals (Sensor.resetOnLightChange ls pls s)) = 0%nat
      /\ Sensor.carsWaiting
           (get d (Sensor.sensorData (Sensor.resetOnLightChange ls pls s))) = 0%nat
      /\ Sensor.waitTime
           (get d (Sensor.sensorData (Sensor.resetOnLightChange ls pls s))) = 0)
  /\ (get d ls = get d pls ->
      get d (Sensor.totals (Sensor.resetOnLightChange ls pls s))
      = get d (Sensor.totals s)
      /\ get d (Sensor.sensorData (Sensor.resetOnLightChange ls pls s))
         = get d (Sensor.sensorData s)).
Proof.
  unfold Sensor.resetOnLightChange, DIRECTIONS. cbn [fold_left].
  destruct (Color_eqb (get north ls) (get north pls)) eqn:En;
  destruct (Color_eqb (get south ls) (get south pls)) eqn:Es;
  destruct (Color_eqb (get east ls) (get east pls)) eqn:Ee;
  destruct (Color_eqb (get west ls) (get west pls)) eqn:Ew;
  cbn [negb];
  (split; [repeat split |]);
  (split; [reflexivity |]);
  (split; [reflexivity |]);
  (split; [destruct d; reflexivity |]);
  (split; intro H;
   [ destruct d;
     try (repeat split; reflexivity);
     exfalso; apply H; apply Color_eqb_eq; assumption
   | destruct d;
     try (split; reflexivity);
     apply Color_eqb_eq in H; congruence ]).
Qed.

Lemma manualReset_state (s : Sensor.SensorSystem) (d : Direction) :
  sameGeometry s (Sensor.manualReset s)
  /\ Sensor.sensorData (Sensor.manualReset s) = Sensor.sensorData s
  /\ Sensor.waitingCars (Sensor.manualReset s) = Sensor.waitingCars s
  /\ (get d (Sensor.totals s) = 0%nat ->
      get d (Sensor.totals (Sensor.manualReset s)) = 0%nat).
Proof.
  unfold Sensor.manualReset.
  destruct (Sensor.shouldResetCounts s).
  - unfold Sensor.resetAllCarCounts, DIRECTIONS. cbn [fold_left].
    repeat split. intros _. destruct d; reflexivity.
  - repeat split. intro H; exact H.
Qed.

Lemma afterResets_light_change (ls pls : perDir Color) (s : Sensor.SensorSystem)
  (d : Direction) :
  get d ls <> get d pls ->
  let s1 := Sensor.afterResets (Some ls) (Some pls) s in
  sameGeometry s s1
  /\ Sensor.carsWaiting (get d (Sensor.sensorData s1)) = 0%nat
  /\ Sensor.waitTime (get d (Sensor.sensorData s1)) = 0
  /\ get d (Sensor.waitingCars s1) = None
  /\ get d (Sensor.totals s1) = 0%nat
  /\ Sensor.totalCarsDetected (get d (Sensor.sensorData s1))
     = Sensor.totalCarsDetected (get d (Sensor.sensorData s)).
Proof.
  intro H. cbv zeta. unfold Sensor.afterResets.
  set (s0 := Sensor.clearDetection s).
  destruct (clearDetection_state s d) as [G0 [_ [_ [W0 D0]]]]. fold s0 in G0, W0, D0.
  set (s1 := Sensor.resetOnLightChange ls pls s0).
  destruct (resetOnLightChange_state ls pls s0 d) as [G1 [_ [W1 [T1 [C1 _]]]]].
  fold s1 in G1, W1, T1, C1. destruct (C1 H) as [Z1 [Z2 Z3]].
  destruct (manualReset_state s1 d) as [G2 [D2 [W2 Z4]]].
  split; [eapply sameGeometry_trans; [exact G0 |];
          eapply sameGeometry_trans; eassumption |].
  rewrite D2, W2, W1.
  split; [exact Z2 |]. split; [exact Z3 |]. split; [exact W0 |].
  split; [exact (Z4 Z1) |].
  rewrite T1, D0. reflexivity.
Qed.

(** Nothing is counted for a direction whose light is not red. *)
Lemma filter_newlyCounted_not_red (s : Sensor.SensorSystem) (ls : perDir Color)
  (d : Direction) (cars : list Sensor.Car) :
  get d ls <> red -> filter (newlyCounted s ls d) cars = [].
Proof.
  intro Hd. induction cars as [| c l IH]; [reflexivity |]. simpl.
  assert (F : newlyCounted s ls d c = false).
  { unfold newlyCounted.
    destruct (Color_eqb (get d ls) red) eqn:Ec.
    - apply Color_eqb_eq in Ec. contradiction.
    - rewrite andb_false_r. reflexivity. }
  rewrite F. exact IH.
Qed.

(** C7 (as amended).  When the colour of an approach differs from the
    previous tick, [update] zeroes the waiting count and the wait time of
    the approach and, through [resetCarCount], its cumulative counter
    [totalCarsDetected[direction]] as well, before the cars of the tick are
    visited; only the copy kept in [sensorData] is not written by the
    reset.  At the end of [update] the cumulative counter is the number of
    cars newly counted during the tick, whatever it was before; and when
    the new colour is not red the approach ends the tick with waiting
    count 0, wait time 0 and cumulative counter 0. *)
Theorem light_change_resets (cars : list Sensor.Car) (ls pls : perDir Color)
  (now : Q) (s : Sensor.SensorSystem) (d : Direction) :
  get d ls <> get d pls ->
  let s1 := Sensor.afterResets (Some ls) (Some pls) s in
  let s2 := fst (fst (Sensor.update cars (Some ls) (Some pls) now s)) in
  let data := snd (Sensor.update cars (Some ls) (Some pls) now s) in
  (Sensor.carsWaiting (get d (Sensor.sensorData s1)) = 0%nat
   /\ Sensor.waitTime (get d (Sensor.sensorData s1)) = 0
   /\ get d (Sensor.totals s1) = 0%nat
   /\ Sensor.totalCarsDetected (get d (Sensor.sensorData s1))
      = Sensor.totalCarsDetected (get d (Sensor.sensorData s)))
  /\ get d (Sensor.getTotalCarsDetected s2)
     = List.length (filter (newlyCounted s ls d) cars)
  /\ (get d ls <> red ->
      Sensor.carsWaiting (get d data) = 0%nat
      /\ Sensor.waitTime (get d data) = 0
      /\ get d (Sensor.getTotalCarsDetected s2) = 0%nat
      /\ Sensor.totalCarsDetected (get d data)
         = Sensor.totalCarsDetected (get d (Sensor.sensorData s))).
Proof.
  intro H. cbv zeta.
  destruct (afterResets_light_change ls pls s d H) as [G1 [A1 [A2 [A3 [A4 A5]]]]].
  unfold Sensor.update, Sensor.getTotalCarsDetected.
  set (s1 := Sensor.afterResets (Some ls) (Some pls) s) in *.
  destruct (processCars_totals ls now d cars s1) as [G2 T2].
  pose proof (processCars_not_red ls now d cars) as NR.
  specialize (fun Hd => NR Hd s1).
  destruct (Sensor.processCars (Some ls) now s1 cars) as [s2 cars2].
  simpl fst in *. simpl snd.
  split; [repeat split; assumption |].
  assert (Hcount : get d (Sensor.totals (Sensor.setWaitTimes s2))
                   = List.length (filter (newlyCounted s ls d) cars)).
  { rewrite setWaitTimes_totals, T2, A4.
    rewrite (filter_ext _ _ (fun c => newlyCounted_geometry s s1 ls d c G1)).
    reflexivity. }
  split; [exact Hcount |].
  intro Hd. destruct (NR Hd) as [D2 W2].
  assert (Hw : get d (Sensor.waitingCars s2) = None) by congruence.
  rewrite (setWaitTimes_untracked s2 d Hw), D2.
  split; [exact A1 |]. split; [exact A2 |]. split; [| exact A5].
  rewrite Hcount.
  rewrite (filter_newlyCounted_not_red s ls d cars Hd). reflexivity.
Qed.


(** Three cars wait in the zone of the north approach under red and are
    counted; at the next tick the north light has turned green. *)
Lemma light_change_resets_witness :
  let cars := [Sample.northCar 1 500; Sample.northCar 2 490; Sample.northCar 3 480] in
  let tick1 := Sensor.update cars (Some Sample.allRed) (Some Sample.allRed) 0
                 (Sensor.new 600 600) in
  let tick2 := Sensor.update (snd (fst tick1)) (Some Sample.northGreen)
                 (Some Sample.allRed) 16 (fst (fst tick1)) in
  get north (Sensor.getTotalCarsDetected (fst (fst tick2))) = 0%nat
  /\ Sensor.carsWaiting (get north (snd tick2)) = 0%nat
  /\ Sensor.waitTime (get north (snd tick2)) = 0.
Proof.
  intros cars tick1 tick2.
  destruct (light_change_resets (snd (fst tick1)) Sample.northGreen Sample.allRed
              16 (fst (fst tick1)) north ltac:(discriminate))
    as [_ [_ H]].
  destruct (H ltac:(discriminate)) as [H1 [H2 [H3 _]]].
  split; [exact H3 |]. split; [exact H1 | exact H2].
Defined.

(** C7, counterexample.  Same two ticks: after the first the cumulative
    counter of the north approach is 3; the colour change of the second
    sets it to 0, while the claim has it unchanged.  (The copy in
    [sensorData] still reads 3.) *)
Lemma light_change_resets_total :
  let cars := [Sample.northCar 1 500; Sample.northCar 2 490; Sample.northCar 3 480] in
  let tick1 := Sensor.update cars (Some Sample.allRed) (Some Sample.allRed) 0
                 (Sensor.new 600 600) in
  let tick2 := Sensor.update (snd (fst tick1)) (Some Sample.northGreen)
                 (Some Sample.allRed) 16 (fst (fst tick1)) in
  get north Sample.northGreen <> get north Sample.allRed
  /\ get north (Sensor.getTotalCarsDetected (fst (fst tick1))) = 3%nat
  /\ get north (Sensor.getTotalCarsDetected (fst (fst tick2))) = 0%nat
  /\ get north (Sensor.getTotalCarsDetected (fst (fst tick2)))
     <> get north (Sensor.getTotalCarsDetected (fst (fst tick1)))
  /\ Sensor.totalCarsDetected (get north (snd tick2)) = 3%nat.
Proof.
  cbv zeta. repeat split; try (vm_compute; reflexivity); vm_compute; discriminate.
Qed.

End Detection.


(* ------------------------------------------------------------------ *)
(** ** Further properties: utilities *)

Section UtilsProperties.
Local Open Scope R_scope.

(** X1.  [clamp] never exceeds [max]; with [min <= max] its value lies in
    [[min, max]], and a value already in the interval is returned as it
    is. *)
Theorem clamp_range (value min max : R) :
  Utils.clamp value min max <= max
  /\ (min <= max ->
      min <= Utils.clamp value min max
      /\ (min <= value <= max -> Utils.clamp value min max = value)).
Proof.
  unfold Utils.clamp. split; [apply Rmin_r |].
  intro H. split.
  - apply Rmin_glb; [apply Rmax_r | exact H].
  - intros [H1 H2]. rewrite (Rmax_left value min H1). apply Rmin_left. exact H2.
Qed.

(** X2.  With [edge0 < edge1], [smoothStep] stays in [[0, 1]], is 0 up to
    [edge0] and 1 from [edge1] on. *)
Theorem smoothStep_range (edge0 edge1 x : R) :
  edge0 < edge1 ->
  0 <= Utils.smoothStep edge0 edge1 x <= 1
  /\ (x <= edge0 -> Utils.smoothStep edge0 edge1 x = 0)
  /\ (edge1 <= x -> Utils.smoothStep edge0 edge1 x = 1).
Proof.
  intro He. unfold Utils.smoothStep. cbv zeta.
  set (q := (x - edge0) / (edge1 - edge0)).
  destruct (clamp_range q 0 1) as [Hle Hr].
  destruct (Hr ltac:(lra)) as [Hge Hid].
  set (t := Utils.clamp q 0 1) in *.
  split; [| split].
  - split.
    + apply Rmult_le_pos; [apply Rmult_le_pos; exact Hge | lra].
    + assert (H : 0 <= (1 - t) * (1 - t) * (1 + 2 * t)).
      { apply Rmult_le_pos; [apply Rmult_le_pos; lra | lra]. }
      replace (t * t * (3 - 2 * t))
        with (1 - (1 - t) * (1 - t) * (1 + 2 * t)) by ring.
      lra.
  - intro Hx.
    assert (Hq : q <= 0).
    { subst q. unfold Rdiv.
      replace 0 with (0 * / (edge1 - edge0)) by ring.
      apply Rmult_le_compat_r; [| lra].
      left. apply Rinv_0_lt_compat. lra. }
    assert (Et : t = 0).
    { subst t. unfold Utils.clamp. rewrite (Rmax_right q 0 Hq).
      apply Rmin_left. lra. }
    rewrite Et. ring.
  - intro Hx.
    assert (Hq : 1 <= q).
    { subst q. apply Rmult_le_reg_r with (r := edge1 - edge0); [lra |].
      unfold Rdiv. rewrite Rmult_assoc, Rinv_l by lra. lra. }
    assert (Et : t = 1).
    { subst t. unfold Utils.clamp. rewrite (Rmax_left q 0) by lra.
      apply Rmin_right. exact Hq. }
    rewrite Et. ring.
Qed.

Lemma smoothStep_range_witness :
  0 <= Utils.smoothStep 0 10 4 <= 1
  /\ Utils.smoothStep 0 10 (-1) = 0
  /\ Utils.smoothStep 0 10 12 = 1.
Proof.
  destruct (smoothStep_range 0 10 4 ltac:(lra)) as [H _].
  destruct (smoothStep_range 0 10 (-1) ltac:(lra)) as [_ [H0 _]].
  destruct (smoothStep_range 0 10 12 ltac:(lra)) as [_ [_ H1]].
  split; [exact H |]. split; [apply H0; lra | apply H1; lra].
Defined.

(** X3.  The cubic of [getBezierPoint] starts at [p0], and with the four
    control points at one place it stays there for every [t].  Both hold
    as they stand in the floating-point arithmetic of the source, where the
    products by 0 vanish; that the curve ends at [p3] holds for the
    polynomial over the reals and only up to rounding for the source. *)
Theorem getBezierPoint_start (t : R) (p0 p1 p2 p3 : Utils.Point) :
  Utils.getBezierPoint 0 p0 p1 p2 p3 = p0
  /\ Utils.getBezierPoint t p0 p0 p0 p0 = p0.
Proof.
  destruct p0 as [x0 y0].
  unfold Utils.getBezierPoint. cbn [Utils.x Utils.y].
  split.
  - f_equal; ring.
  - f_equal; ring.
Qed.

(** X4.  For a draw in [[0, 1)], [randomInt] returns an integer of
    [[min, max]] when [min <= max], and [randomBetween] a number of
    [[min, max]] when [min <= max].  The upper end is stated closed: over
    the reals the value stays below [max] when [min < max], but the
    rounding of the source can reach [max] itself. *)
Theorem random_ranges (rnd : R) :
  0 <= rnd < 1 ->
  (forall min max : Z, (min <= max)%Z ->
     (min <= Utils.randomInt min max rnd <= max)%Z)
  /\ (forall min max : R, min <= max ->
        min <= Utils.randomBetween min max rnd <= max).
Proof.
  intros [H0 H1]. split.
  - intros min max Hm. unfold Utils.randomInt.
    set (n := (max - min + 1)%Z).
    assert (Hn : (1 <= n)%Z) by (subst n; lia).
    assert (HnR : 1 <= IZR n) by (apply IZR_le in Hn; exact Hn).
    destruct (base_Int_part (rnd * IZR n)) as [Hlo Hhi].
    assert (Hprod0 : 0 <= rnd * IZR n) by (apply Rmult_le_pos; lra).
    assert (Hprod1 : rnd * IZR n < IZR n).
    { rewrite <- (Rmult_1_l (IZR n)) at 2.
      apply Rmult_lt_compat_r; lra. }
    assert (A : (0 <= Int_part (rnd * IZR n))%Z).
    { apply le_IZR. apply Rnot_lt_le. intro Hneg.
      assert (IZR (Int_part (rnd * IZR n)) <= -1).
      { apply lt_IZR in Hneg. apply IZR_le. lia. }
      lra. }
    assert (B : (Int_part (rnd * IZR n) < n)%Z).
    { apply lt_IZR. lra. }
    subst n. lia.
  - intros min max Hm. unfold Utils.randomBetween.
    assert (0 <= rnd * (max - min)) by (apply Rmult_le_pos; lra).
    assert (rnd * (max - min) <= 1 * (max - min))
      by (apply Rmult_le_compat_r; lra).
    lra.
Qed.

Lemma random_ranges_witness :
  (1 <= Utils.randomInt 1 6 0.5 <= 6)%Z
  /\ 10 <= Utils.randomBetween 10 20 0.5 <= 20.
Proof.
  destruct (random_ranges 0.5 ltac:(lra)) as [HI HB].
  split; [apply HI; lia | apply HB; lra].
Defined.

End UtilsProperties.


(* ------------------------------------------------------------------ *)
(** ** Further properties: car-following model *)

Section CarFollowingMore.
Local Open Scope R_scope.

(** X5.  For a model with positive effective acceleration and positive
    effective desired speed, the free-flow term of [calcAccDet] is
    positive for speeds in [[0, v0eff)], zero at [v0eff] and negative
    above: [v0eff] is the only speed at which a free vehicle neither
    accelerates nor brakes. *)
Theorem accFree_sign (m : IDM.IDMModel) (v : R) :
  0 < IDM.aeff m -> 0 < IDM.v0eff m -> 0 <= v ->
  (v < IDM.v0eff m -> 0 < IDM.accFree m v)
  /\ (v = IDM.v0eff m -> IDM.accFree m v = 0)
  /\ (IDM.v0eff m < v -> IDM.accFree m v < 0).
Proof.
  intros Ha Hv0 Hv. unfold IDM.accFree.
  set (q := v / IDM.v0eff m).
  assert (Hq0 : 0 <= q).
  { subst q. unfold Rdiv. apply Rmult_le_pos; [exact Hv |].
    left. apply Rinv_0_lt_compat. exact Hv0. }
  assert (Hq : q * IDM.v0eff m = v).
  { subst q. unfold Rdiv. rewrite Rmult_assoc, Rinv_l by lra. ring. }
  destruct (Rlt_dec v (IDM.v0eff m)) as [Hlt | Hge].
  - split; [intros _ | split; intro H; lra].
    assert (Hq1 : q < 1).
    { apply Rmult_lt_reg_r with (r := IDM.v0eff m); [exact Hv0 | lra]. }
    assert (H4 : q ^ 4 < 1).
    { replace (q ^ 4) with ((q * q) * (q * q)) by ring.
      assert (q * q < 1) by nra.
      assert (0 <= q * q) by nra.
      nra. }
    apply Rmult_lt_0_compat; lra.
  - split; [intro H; lra |].
    split; intro H.
    + assert (q = 1).
      { apply Rmult_eq_reg_r with (r := IDM.v0eff m); lra. }
      subst q. rewrite H0. ring.
    + assert (Hq1 : 1 < q).
      { apply Rmult_lt_reg_r with (r := IDM.v0eff m); [exact Hv0 | lra]. }
      assert (0 < IDM.aeff m * (q - 1)) by (apply Rmult_lt_0_compat; lra).
      lra.
Qed.

Lemma accFree_sign_witness :
  0 < IDM.accFree (IDM.newDefault 0.75) 10
  /\ IDM.accFree (IDM.newDefault 0.75) 15.75 = 0
  /\ IDM.accFree (IDM.newDefault 0.75) 20 < 0.
Proof.
  assert (Ha : 0 < IDM.aeff (IDM.newDefault 0.75))
    by (unfold IDM.aeff; simpl; lra).
  assert (Hv0 : 0 < IDM.v0eff (IDM.newDefault 0.75))
    by (rewrite v0eff_default_075; lra).
  destruct (accFree_sign (IDM.newDefault 0.75) 10 Ha Hv0 ltac:(lra)) as [H1 _].
  destruct (accFree_sign (IDM.newDefault 0.75) 15.75 Ha Hv0 ltac:(lra)) as [_ [H2 _]].
  destruct (accFree_sign (IDM.newDefault 0.75) 20 Ha Hv0 ltac:(lra)) as [_ [_ H3]].
  rewrite v0eff_default_075 in H1, H2, H3.
  split; [apply H1; lra |]. split; [apply H2; reflexivity | apply H3; lra].
Defined.

(** The interaction term never pushes. *)
Lemma accInt_nonpos (m : IDM.IDMModel) (s : option R) (v vl : R) :
  0 <= IDM.aeff m -> IDM.accInt m s v vl <= 0.
Proof.
  intro Ha. unfold IDM.accInt. destruct s as [s |]; [| lra].
  destruct (Rgtb s 0 && Rgeb v 0); [| lra].
  assert (0 <= (IDM.sstar m v vl / Rmax s (IDM.s0 m)) ^ 2) by apply pow2_ge_0.
  assert (0 <= IDM.aeff m * (IDM.sstar m v vl / Rmax s (IDM.s0 m)) ^ 2)
    by (apply Rmult_le_pos; assumption).
  lra.
Qed.

(** X6.  A leader never makes [calcAccDet] return more than it returns
    without interaction; and a gap that is zero, negative or [NaN] (as
    well as a negative own speed) switches the interaction off: the result
    is then [max(-bmax, accFree)], whatever the leader does. *)
Theorem calcAccDet_interaction (m : IDM.IDMModel) (s : option R) (v vl al : R) :
  (0 <= IDM.aeff m ->
   IDM.calcAccDet m s v vl al <= Rmax (- IDM.bmax m) (IDM.accFree m v))
  /\ ((s = None \/ (exists g, s = Some g /\ g <= 0) \/ v < 0) ->
      IDM.calcAccDet m s v vl al = Rmax (- IDM.bmax m) (IDM.accFree m v)).
Proof.
  split.
  - intro Ha. unfold IDM.calcAccDet.
    pose proof (accInt_nonpos m s v vl Ha).
    apply Rmax_lub.
    + apply Rmax_l.
    + eapply Rle_trans; [| apply Rmax_r]. lra.
  - intro H. unfold IDM.calcAccDet.
    assert (E : IDM.accInt m s v vl = 0).
    { unfold IDM.accInt. destruct H as [-> | [[g [-> Hg]] | Hv]]; [reflexivity | |].
      - assert (F : Rgtb g 0 = false) by (apply Rltb_false; exact Hg).
        rewrite F. reflexivity.
      - destruct s as [g |]; [| reflexivity].
        assert (F : Rgeb v 0 = false) by (apply Rleb_false; exact Hv).
        rewrite F, andb_false_r. reflexivity. }
    rewrite E, Rplus_0_r. reflexivity.
Qed.

(** X7.  [calcAccLaneChange] is bounded below by [-bmax] like
    [calcAccDet], coincides with [calcAccDet] for a zero bias, and for a
    model with [a >= 0] does not decrease when the bias grows. *)
Theorem calcAccLaneChange_bias (m : IDM.IDMModel) (s : option R)
  (v vl al bias bias' : R) :
  - IDM.bmax m <= IDM.calcAccLaneChange m s v vl al bias
  /\ IDM.calcAccLaneChange m s v vl al 0 = IDM.calcAccDet m s v vl al
  /\ (0 <= IDM.a m -> bias <= bias' ->
      IDM.calcAccLaneChange m s v vl al bias
      <= IDM.calcAccLaneChange m s v vl al bias').
Proof.
  unfold IDM.calcAccLaneChange. cbv zeta. split; [apply Rmax_l | split].
  - replace (IDM.calcAccDet m s v vl al + 0.5 * 0 * IDM.a m)
      with (IDM.calcAccDet m s v vl al) by ring.
    apply Rmax_right. apply calcAccDet_ge_bmax.
  - intros Ha Hb.
    assert (0.5 * bias * IDM.a m <= 0.5 * bias' * IDM.a m).
    { apply Rmult_le_compat_r; [exact Ha | lra]. }
    apply Rmax_lub.
    + apply Rmax_l.
    + eapply Rle_trans; [| apply Rmax_r]. lra.
Qed.

(** X8.  The driver factor stays in the band the source fixes: between
    0.7 and 1.3 after [updateDriverCharacteristics], whatever the draw and
    the previous factor; and between [1 - variance/2] and
    [1 + variance/2] at construction, for a draw in [[0, 1)] and a
    non-negative variance. *)
Theorem driverfactor_band (rnd : R) :
  (forall m : IDM.IDMModel,
     0.7 <= IDM.driverfactor (IDM.updateDriverCharacteristics m rnd) <= 1.3)
  /\ (0 <= rnd < 1 ->
      forall v0 T s0 a b driverVariance : R,
        0 <= driverVariance ->
        1 - driverVariance / 2
        <= IDM.driverfactor (IDM.new v0 T s0 a b driverVariance rnd)
        <= 1 + driverVariance / 2).
Proof.
  split.
  - intro m. simpl. split.
    + apply Rmax_l.
    + apply Rmax_lub; [lra | apply Rmin_l].
  - intros [H0 H1] v0 T s0 a b dv Hdv. simpl.
    assert (dv * (rnd - 0.5) <= dv * 0.5) by (apply Rmult_le_compat_l; lra).
    assert (dv * (-0.5) <= dv * (rnd - 0.5)) by (apply Rmult_le_compat_l; lra).
    lra.
Qed.

(** X9.  [isSafeGap] does not depend on the order of the two speeds, and
    a gap it accepts exceeds 1.2 times the safe distance of either
    speed. *)
Theorem isSafeGap_symmetric (m : IDM.IDMModel) (gap v vOther : R) :
  IDM.isSafeGap m gap v vOther = IDM.isSafeGap m gap vOther v
  /\ (IDM.isSafeGap m gap v vOther = true ->
      IDM.getSafeDistance m v * 1.2 < gap
      /\ IDM.getSafeDistance m vOther * 1.2 < gap).
Proof.
  unfold IDM.isSafeGap. split.
  - rewrite (Rmax_comm (IDM.getSafeDistance m v)). reflexivity.
  - intro H. unfold Rgtb in H. apply Rltb_true in H.
    pose proof (Rmax_l (IDM.getSafeDistance m v) (IDM.getSafeDistance m vOther)).
    pose proof (Rmax_r (IDM.getSafeDistance m v) (IDM.getSafeDistance m vOther)).
    split; lra.
Qed.

End CarFollowingMore.


(* ------------------------------------------------------------------ *)
(** ** Further properties: lane-change model *)

Section LaneChangeMore.
Local Open Scope R_scope.

Lemma findLeadingVehicle_loop (vehicle : Vehicle) (rest : list Vehicle) :
  forall (seen : list Vehicle) (st : option Vehicle * option R),
    MobilSpec.leaderState vehicle seen st ->
    MobilSpec.leaderState vehicle (seen ++ rest)
      (fold_left
         (fun (st : option Vehicle * option R) (other : Vehicle) =>
            if negb (Z.eqb (Veh.id other) (Veh.id vehicle))
               && Rgtb (Veh.u other) (Veh.u vehicle)
            then
              let distance := Veh.u other - Veh.u vehicle in
              if MOBIL.belowMin distance (snd st)
              then (Some other, Some distance)
              else st
            else st)
         rest st).
Proof.
  induction rest as [| o rest IH]; intros seen st Hst.
  - simpl. rewrite app_nil_r. exact Hst.
  - cbn [fold_left].
    replace (seen ++ o :: rest) with ((seen ++ [o]) ++ rest)
      by (rewrite <- app_assoc; reflexivity).
    apply IH.
    destruct (Z.eqb (Veh.id o) (Veh.id vehicle)) eqn:Eid.
    { (* same identifier: skipped *)
      apply Z.eqb_eq in Eid. simpl negb. simpl andb.
      destruct st as [[l |] [d |]]; unfold MobilSpec.leaderState in Hst; simpl in Hst |- *; try contradiction.
      - destruct Hst as [Hin [Hid [Hu [Hd Hmin]]]].
        split; [apply in_or_app; left; exact Hin |].
        repeat split; try assumption.
        intros other Ho Hoid Hou. apply in_app_or in Ho.
        destruct Ho as [Ho | [<- | []]]; [apply Hmin; assumption | contradiction].
      - intros other Ho. apply in_app_or in Ho.
        destruct Ho as [Ho | [<- | []]]; [apply Hst; exact Ho | left; exact Eid]. }
    apply Z.eqb_neq in Eid. simpl negb. simpl andb.
    unfold Rgtb.
    destruct (Rltb (Veh.u vehicle) (Veh.u o)) eqn:Eu.
    + apply Rltb_true in Eu. cbv zeta.
      destruct st as [[l |] [d |]]; unfold MobilSpec.leaderState in Hst; simpl in Hst; try contradiction.
      * destruct Hst as [Hin [Hid [Hu [Hd Hmin]]]].
        simpl MOBIL.belowMin. simpl snd.
        destruct (Rltb (Veh.u o - Veh.u vehicle) d) eqn:Eb.
        -- apply Rltb_true in Eb. simpl.
           split; [apply in_or_app; right; left; reflexivity |].
           repeat split; try assumption.
           intros other Ho Hoid Hou. apply in_app_or in Ho.
           destruct Ho as [Ho | [<- | []]]; [| lra].
           pose proof (Hmin other Ho Hoid Hou). lra.
        -- apply Rltb_false in Eb. simpl.
           split; [apply in_or_app; left; exact Hin |].
           repeat split; try assumption.
           intros other Ho Hoid Hou. apply in_app_or in Ho.
           destruct Ho as [Ho | [<- | []]]; [apply Hmin; assumption | lra].
      * simpl.
        split; [apply in_or_app; right; left; reflexivity |].
        repeat split; try assumption.
        intros other Ho Hoid Hou. apply in_app_or in Ho.
        destruct Ho as [Ho | [<- | []]]; [| lra].
        destruct (Hst other Ho) as [E | E]; [contradiction | lra].
    + apply Rltb_false in Eu.
      destruct st as [[l |] [d |]]; unfold MobilSpec.leaderState in Hst; simpl in Hst |- *; try contradiction.
      * destruct Hst as [Hin [Hid [Hu [Hd Hmin]]]].
        split; [apply in_or_app; left; exact Hin |].
        repeat split; try assumption.
        intros other Ho Hoid Hou. apply in_app_or in Ho.
        destruct Ho as [Ho | [<- | []]]; [apply Hmin; assumption | lra].
      * intros other Ho. apply in_app_or in Ho.
        destruct Ho as [Ho | [<- | []]]; [apply Hst; exact Ho | right; exact Eu].
Qed.

(** X10.  [findLeadingVehicle] returns the nearest vehicle ahead: a
    vehicle of the lane with another identifier and a larger [u], no
    farther than any other such vehicle; and it returns [null] exactly when
    the lane holds no vehicle with another identifier and a larger [u]. *)
Theorem findLeadingVehicle_nearest (vehicle : Vehicle) (laneVehicles : list Vehicle) :
  match MOBIL.findLeadingVehicle vehicle laneVehicles with
  | Some leader =>
      In leader laneVehicles
      /\ Veh.id leader <> Veh.id vehicle
      /\ Veh.u vehicle < Veh.u leader
      /\ (forall other, In other laneVehicles ->
            Veh.id other <> Veh.id vehicle -> Veh.u vehicle < Veh.u other ->
            Veh.u leader <= Veh.u other)
  | None =>
      forall other, In other laneVehicles ->
        Veh.id other = Veh.id vehicle \/ Veh.u other <= Veh.u vehicle
  end.
Proof.
  unfold MOBIL.findLeadingVehicle.
  assert (H0 : MobilSpec.leaderState vehicle [] (None, None)) by (intros other []).
  pose proof (findLeadingVehicle_loop vehicle laneVehicles [] (None, None) H0) as H.
  simpl app in H.
  destruct (fold_left _ laneVehicles (None, None)) as [[l |] [d |]];
    simpl in H |- *; try contradiction.
  - destruct H as [Hin [Hid [Hu [_ Hmin]]]]. repeat split; assumption.
  - exact H.
Qed.

(** X11.  A leader without the property [length] (the objects built by
    [Road.createVehicle] and by [Car.update] carry [len]) makes the gap
    [NaN]: the acceleration computed for the lane is then
    [max(-bmax, accFree)] of the vehicle's own speed, whatever the
    position and the speed of the leader. *)
Theorem calculateLaneAcceleration_blind (vehicle leader : Vehicle)
  (laneVehicles : list Vehicle) :
  MOBIL.findLeadingVehicle vehicle laneVehicles = Some leader ->
  Veh.length leader = None ->
  MOBIL.calculateLaneAcceleration vehicle laneVehicles
  = Rmax (- IDM.bmax (Veh.idmModel vehicle))
         (IDM.accFree (Veh.idmModel vehicle) (Veh.speed vehicle)).
Proof.
  intros Hl Hlen. unfold MOBIL.calculateLaneAcceleration.
  rewrite Hl, Hlen. simpl MOBIL.minusLength.
  unfold IDM.calcAccDet. simpl IDM.accInt. rewrite Rplus_0_r. reflexivity.
Qed.

Lemma leader_of_sample :
  MOBIL.findLeadingVehicle (Sample.car 1 [0%nat] 0 100 10 false)
    [Sample.car 2 [0%nat] 0 103 0 false]
  = Some (Sample.car 2 [0%nat] 0 103 0 false).
Proof.
  unfold MOBIL.findLeadingVehicle. simpl.
  assert (E : Rgtb 103 100 = true) by (apply Rltb_true; lra).
  rewrite E. reflexivity.
Qed.

(** A car standing 3 m ahead in the lane does not slow the candidate's
    computed acceleration. *)
Lemma calculateLaneAcceleration_blind_witness :
  MOBIL.calculateLaneAcceleration (Sample.car 1 [0%nat] 0 100 10 false)
    [Sample.car 2 [0%nat] 0 103 0 false]
  = Rmax (- IDM.bmax (IDM.newDefault 0.5))
         (IDM.accFree (IDM.newDefault 0.5) 10).
Proof.
  exact (calculateLaneAcceleration_blind
           (Sample.car 1 [0%nat] 0 100 10 false)
           (Sample.car 2 [0%nat] 0 103 0 false)
           [Sample.car 2 [0%nat] 0 103 0 false]
           leader_of_sample eq_refl).
Defined.

End LaneChangeMore.

(* ------------------------------------------------------------------ *)
(** ** Further properties: road segment *)

Section RoadMore.
Local Open Scope R_scope.

Lemma between_lanes (a b dv : R) :
  0 <= dv <= 1 -> Rmin a b <= a + dv * (b - a) <= Rmax a b.
Proof.
  intros [H0 H1]. destruct (Rle_dec a b) as [Hab | Hab].
  - rewrite (Rmin_left a b Hab), (Rmax_right a b Hab). nra.
  - assert (Hba : b <= a) by lra.
    rewrite (Rmin_right a b Hba), (Rmax_left a b Hba). nra.
Qed.

Lemma floor_range (x : R) (n : Z) :
  0 <= x < IZR n -> (0 <= RoadSystem.floor x < n)%Z.
Proof.
  intros [H0 H1]. unfold RoadSystem.floor.
  destruct (base_Int_part x) as [Hlo Hhi]. split.
  - apply le_IZR. apply Rnot_lt_le. intro Hneg.
    assert (IZR (Int_part x) <= -1).
    { apply lt_IZR in Hneg. apply IZR_le. lia. }
    lra.
  - apply lt_IZR. lra.
Qed.

(** X12.  The optical lane position follows an S-curve: for a change of
    duration [dt_LC > 0] started [dt_afterLC >= 0] ago (with
    [fracLaneOptical = 1], the value [executeLaneChange] and
    [createVehicle] set), [v] lies between the old and the new lane, is the
    old lane at the start, is the new lane from the end of the change on,
    and [dvdt] is 0 once the change is over. *)
Theorem optical_s_curve (w : Vehicle) :
  Veh.fracLaneOptical w = 1 ->
  0 < Veh.dt_LC w ->
  0 <= Veh.dt_afterLC w ->
  let w' := RoadSystem.update_v_dvdt_optical w in
  Rmin (IZR (Veh.laneOld w)) (IZR (Veh.lane w)) <= Veh.v w'
    <= Rmax (IZR (Veh.laneOld w)) (IZR (Veh.lane w))
  /\ (Veh.dt_afterLC w = 0 -> Veh.v w' = IZR (Veh.laneOld w))
  /\ (Veh.dt_LC w <= Veh.dt_afterLC w -> Veh.v w' = IZR (Veh.lane w))
  /\ (Veh.dt_LC w < Veh.dt_afterLC w -> Veh.dvdt w' = 0).
Proof.
  intros Hf HL Ht. cbv zeta. unfold RoadSystem.update_v_dvdt_optical.
  destruct (Req_dec_T (Veh.dt_LC w) 0) as [E | _]; [lra |].
  cbv zeta. rewrite Hf.
  set (L := Veh.dt_LC w) in *. set (t := Veh.dt_afterLC w) in *.
  set (a := IZR (Veh.laneOld w)). set (b := IZR (Veh.lane w)).
  unfold Rgtb.
  destruct (Rltb L t) eqn:Eover.
  { apply Rltb_true in Eover. cbn [Veh.v Veh.dvdt Veh.set_v_dvdt].
    split; [| split; [| split]]; try reflexivity.
    - split; [apply Rmin_r | apply Rmax_r].
    - intro; lra. }
  apply Rltb_false in Eover.
  assert (Hsq : 0 < L * L) by nra.
  assert (Eh : 0.5 = / 2) by lra.
  destruct (Rltb t (0.5 * L)) eqn:Ehalf.
  - apply Rltb_true in Ehalf. cbn [Veh.v Veh.dvdt Veh.set_v_dvdt].
    rewrite Eh.
    set (X := 1 - 1 + / 2 * (1 * 4 / (L * L)) * t * t).
    assert (EX : X * (L * L) = 2 * t * t) by (subst X; field; lra).
    assert (HX : 0 <= X <= 1).
    { split.
      - apply Rmult_le_reg_r with (r := L * L); [exact Hsq |]. nra.
      - apply Rmult_le_reg_r with (r := L * L); [exact Hsq |]. nra. }
    split; [apply between_lanes; exact HX |].
    split; [| split].
    + intro E0. assert (X = 0).
      { apply Rmult_eq_reg_r with (r := L * L); [| lra]. rewrite EX, E0. ring. }
      rewrite H. ring.
    + intro; lra.
    + intro; lra.
  - apply Rltb_false in Ehalf. cbn [Veh.v Veh.dvdt Veh.set_v_dvdt].
    rewrite Eh.
    set (X := 1 - / 2 * (1 * 4 / (L * L)) * (L - t) * (L - t)).
    assert (EX : (1 - X) * (L * L) = 2 * (L - t) * (L - t))
      by (subst X; field; lra).
    assert (HX : 0 <= X <= 1).
    { split.
      - apply Rmult_le_reg_r with (r := L * L); [exact Hsq |]. nra.
      - apply Rmult_le_reg_r with (r := L * L); [exact Hsq |]. nra. }
    split; [apply between_lanes; exact HX |].
    split; [| split].
    + intro E0. lra.
    + intro HLt. assert (E : t = L) by lra.
      assert (X = 1).
      { assert (1 - X = 0); [| lra].
        apply Rmult_eq_reg_r with (r := L * L); [| lra]. rewrite EX, E. ring. }
      rewrite H. ring.
    + intro; lra.
Qed.

(** Half-way through a change from lane 0 to lane 1. *)
Lemma optical_s_curve_witness :
  Rmin 0 1
    <= Veh.v (RoadSystem.update_v_dvdt_optical
                (RoadSystem.executeLaneChange
                   (Sample.car 1 [0%nat] 0 100 10 false) 1))
    <= Rmax 0 1.
Proof.
  destruct (optical_s_curve
              (RoadSystem.executeLaneChange
                 (Sample.car 1 [0%nat] 0 100 10 false) 1)
              eq_refl ltac:(simpl; lra) ltac:(simpl; lra)) as [H _].
  exact H.
Defined.

(** X13.  A vehicle built by [createVehicle] on a road with at least one
    lane, for draws in [[0, 1)], is in a lane of the road, optically on
    that lane, not slower than 0 and within 2.5 m/s of [speedInit] or at 0,
    and at rest laterally: [update_v_dvdt_optical] leaves it as it is.  A
    car or a truck passes the guard [isRegularVeh]. *)
Theorem createVehicle_shape (r : RoadSystem.Road) (route : option (list nat))
  (vehType : string) (d : RoadSystem.Draws) :
  (1 <= RoadSystem.nLanes r)%Z ->
  0 <= RoadSystem.drawLane d < 1 ->
  0 <= RoadSystem.drawSpeed d < 1 ->
  let w := RoadSystem.createVehicle r route vehType d in
  (0 <= Veh.lane w < RoadSystem.nLanes r)%Z
  /\ Veh.v w = IZR (Veh.lane w)
  /\ 0 <= Veh.speed w <= Rmax 0 (RoadSystem.speedInit r + 2.5)
  /\ RoadSystem.update_v_dvdt_optical w = w
  /\ (RoadSystem.isCarOrTruck vehType = true -> Veh.regular w = true).
Proof.
  intros Hn [Hl0 Hl1] [Hs0 Hs1]. cbv zeta.
  split; [| split; [| split; [| split]]].
  - unfold RoadSystem.createVehicle. cbn [Veh.lane].
    apply floor_range.
    assert (1 <= IZR (RoadSystem.nLanes r)) by (apply IZR_le in Hn; exact Hn).
    split; [apply Rmult_le_pos; lra |].
    rewrite <- (Rmult_1_l (IZR (RoadSystem.nLanes r))) at 2.
    apply Rmult_lt_compat_r; lra.
  - reflexivity.
  - unfold RoadSystem.createVehicle. cbn [Veh.speed]. split.
    + apply Rmax_l.
    + apply Rmax_lub; [apply Rmax_l |].
      eapply Rle_trans; [| apply Rmax_r]. lra.
  - unfold RoadSystem.update_v_dvdt_optical, RoadSystem.createVehicle.
    cbn [Veh.dt_LC Veh.dt_afterLC Veh.lane Veh.laneOld Veh.fracLaneOptical].
    destruct (Req_dec_T 4 0) as [E | _]; [lra |].
    cbv zeta.
    assert (E : Rgtb 10 4 = true) by (apply Rltb_true; lra).
    rewrite E. reflexivity.
  - intro Hreg. unfold Veh.regular, RoadSystem.createVehicle.
    cbn [Veh.isRegularVeh Veh.type]. exact Hreg.
Qed.

Lemma createVehicle_shape_witness :
  (0 <= Veh.lane (RoadSystem.createVehicle (RoadSystem.new 0 200 3 2)
                    (Some [0%nat]) "car" Sample.draws) < 2)%Z.
Proof.
  destruct (createVehicle_shape (RoadSystem.new 0 200 3 2) (Some [0%nat]) "car"
              Sample.draws ltac:(simpl; lia)
              ltac:(simpl; lra) ltac:(simpl; lra)) as [H _].
  exact H.
Defined.

End RoadMore.

(* ------------------------------------------------------------------ *)
(** ** Further properties: connections between roads *)

Section ConnectionsMore.
Local Open Scope R_scope.

Lemma nth_error_updRoad_same (f : RoadSystem.Road -> RoadSystem.Road) :
  forall (net : RoadSystem.Network) (i : nat) (r : RoadSystem.Road),
    nth_error net i = Some r ->
    nth_error (RoadSystem.updRoad i f net) i = Some (f r).
Proof.
  induction net as [| r0 net IH]; intros [| i] r H; simpl in *;
    try discriminate H.
  - injection H as <-. reflexivity.
  - apply IH. exact H.
Qed.

Lemma nth_error_updRoad_other (f : RoadSystem.Road -> RoadSystem.Road) :
  forall (net : RoadSystem.Network) (i j : nat),
    i <> j ->
    nth_error (RoadSystem.updRoad i f net) j = nth_error net j.
Proof.
  induction net as [| r0 net IH]; intros [| i] [| j] H; simpl; try reflexivity.
  - contradiction.
  - apply IH. intro E. apply H. rewrite E. reflexivity.
Qed.

Lemma updRoad_out (f : RoadSystem.Road -> RoadSystem.Road) :
  forall (net : RoadSystem.Network) (i : nat),
    nth_error net i = None -> RoadSystem.updRoad i f net = net.
Proof.
  induction net as [| r0 net IH]; intros [| i] H; simpl in *;
    try reflexivity; try discriminate H.
  rewrite (IH i H). reflexivity.
Qed.

Lemma totalVehicles_from (net : RoadSystem.Network) :
  forall a : nat,
    fold_left (fun sum road => (sum + List.length (RoadSystem.veh road))%nat) net a
    = (a + RoadSpec.totalVehicles net)%nat.
Proof.
  unfold RoadSpec.totalVehicles.
  induction net as [| r net IH]; intro a; simpl.
  - lia.
  - rewrite (IH (a + _)%nat), (IH (List.length (RoadSystem.veh r))). lia.
Qed.

Lemma totalVehicles_cons (r : RoadSystem.Road) (net : RoadSystem.Network) :
  RoadSpec.totalVehicles (r :: net)
  = (List.length (RoadSystem.veh r) + RoadSpec.totalVehicles net)%nat.
Proof.
  unfold RoadSpec.totalVehicles at 1. simpl. apply totalVehicles_from.
Qed.

Lemma totalVehicles_updRoad (f : RoadSystem.Road -> RoadSystem.Road) :
  forall (net : RoadSystem.Network) (i : nat) (r : RoadSystem.Road),
    nth_error net i = Some r ->
    (RoadSpec.totalVehicles (RoadSystem.updRoad i f net)
     + List.length (RoadSystem.veh r)
     = RoadSpec.totalVehicles net + List.length (RoadSystem.veh (f r)))%nat.
Proof.
  induction net as [| r0 net IH]; intros [| i] r H; simpl in *;
    try discriminate H.
  - injection H as <-. rewrite !totalVehicles_cons. lia.
  - rewrite !totalVehicles_cons. specialize (IH i r H). lia.
Qed.

Lemma length_removeAt {A : Type} :
  forall (l : list A) (i : nat) (x : A),
    nth_error l i = Some x ->
    S (List.length (RoadSystem.removeAt i l)) = List.length l.
Proof.
  induction l as [| y l IH]; intros [| i] x H; simpl in *;
    try discriminate H; try reflexivity.
  rewrite (IH i x H). reflexivity.
Qed.

Lemma removeAt_middle {A : Type} (w : A) (post : list A) :
  forall pre : list A,
    RoadSystem.removeAt (List.length pre) (pre ++ w :: post) = pre ++ post.
Proof.
  induction pre as [| y pre IH]; simpl; [reflexivity |].
  rewrite IH. reflexivity.
Qed.

Lemma nth_error_middle {A : Type} (w : A) (post : list A) :
  forall pre : list A, nth_error (pre ++ w :: post) (List.length pre) = Some w.
Proof.
  induction pre as [| y pre IH]; simpl; [reflexivity | exact IH].
Qed.

Lemma transferVehicle_conserves (ir index : nat) (w : Vehicle)
  (c : RoadSystem.Connection) (net : RoadSystem.Network) (this : RoadSystem.Road) :
  nth_error net ir = Some this ->
  nth_error (RoadSystem.veh this) index = Some w ->
  RoadSystem.shouldUseConnection net this w c = true ->
  RoadSpec.totalVehicles (RoadSystem.transferVehicle ir w c index net)
  = RoadSpec.totalVehicles net.
Proof.
  intros Hthis Hw Huse. unfold RoadSystem.transferVehicle. cbv zeta.
  set (f := fun r => RoadSystem.set_veh
                       (RoadSystem.removeAt index (RoadSystem.veh r)) r).
  set (net1 := RoadSystem.updRoad ir f net).
  pose proof (totalVehicles_updRoad f net ir this Hthis) as H1.
  fold net1 in H1. subst f. cbn [RoadSystem.veh RoadSystem.set_veh] in H1.
  pose proof (length_removeAt _ _ _ Hw) as Hlen.
  unfold RoadSystem.shouldUseConnection, RoadSystem.targetRoadID in Huse.
  destruct (nth_error net (RoadSystem.targetRoad c)) as [tgt |] eqn:Et;
    [| discriminate Huse].
  assert (Et1 : exists r1, nth_error net1 (RoadSystem.targetRoad c) = Some r1).
  { destruct (Nat.eq_dec ir (RoadSystem.targetRoad c)) as [E | E].
    - rewrite <- E. eexists. subst net1.
      apply nth_error_updRoad_same. exact Hthis.
    - exists tgt. subst net1. rewrite nth_error_updRoad_other by exact E.
      exact Et. }
  destruct Et1 as [r1 Er1].
  match goal with
  | |- RoadSpec.totalVehicles (RoadSystem.updRoad _ ?g net1) = _ =>
      pose proof (totalVehicles_updRoad g net1 _ r1 Er1) as H2
  end.
  cbn [RoadSystem.veh RoadSystem.set_veh] in H2.
  rewrite length_app in H2. simpl List.length in H2. lia.
Qed.

Lemma connectionLoop_conserves (ir : nat) (c : RoadSystem.Connection) :
  forall (n : nat) (net : RoadSystem.Network),
    RoadSpec.totalVehicles (RoadSystem.connectionLoop ir c n net)
    = RoadSpec.totalVehicles net.
Proof.
  induction n as [| i IH]; intro net; [reflexivity |].
  cbn [RoadSystem.connectionLoop]. cbv zeta. rewrite IH.
  destruct (nth_error net ir) as [this |] eqn:Ethis; [| reflexivity].
  destruct (nth_error (RoadSystem.veh this) i) as [w |] eqn:Ew; [| reflexivity].
  destruct (Rgeb (Veh.u w) (RoadSystem.uSource c)); [| reflexivity].
  destruct (RoadSystem.shouldUseConnection net this w c) eqn:Euse;
    [| reflexivity].
  apply (transferVehicle_conserves ir i w c net this Ethis Ew Euse).
Qed.

Lemma length_updRoad (f : RoadSystem.Road -> RoadSystem.Road) :
  forall (net : RoadSystem.Network) (i : nat),
    List.length (RoadSystem.updRoad i f net) = List.length net.
Proof.
  induction net as [| r net IH]; intros [| i]; simpl; try reflexivity.
  rewrite IH. reflexivity.
Qed.

Lemma connectionLoop_length (ir : nat) (c : RoadSystem.Connection) :
  forall (n : nat) (net : RoadSystem.Network),
    List.length (RoadSystem.connectionLoop ir c n net) = List.length net.
Proof.
  induction n as [| i IH]; intro net; [reflexivity |].
  cbn [RoadSystem.connectionLoop]. cbv zeta. rewrite IH.
  destruct (nth_error net ir) as [this |]; [| reflexivity].
  destruct (nth_error (RoadSystem.veh this) i) as [w |]; [| reflexivity].
  destruct (Rgeb (Veh.u w) (RoadSystem.uSource c)); [| reflexivity].
  destruct (RoadSystem.shouldUseConnection net this w c); [| reflexivity].
  unfold RoadSystem.transferVehicle. cbv zeta. rewrite !length_updRoad.
  reflexivity.
Qed.

Lemma processConnections_total (ir : nat) (net : RoadSystem.Network) :
  RoadSpec.totalVehicles (RoadSystem.processConnections ir net)
  = RoadSpec.totalVehicles net.
Proof.
  unfold RoadSystem.processConnections.
  destruct (nth_error net ir) as [this |]; [| reflexivity].
  generalize (RoadSystem.connects this). intro cs. revert net.
  induction cs as [| c cs IH]; intro net; [reflexivity |].
  cbn [fold_left]. rewrite IH.
  destruct (nth_error net ir) as [this' |]; [| reflexivity].
  apply connectionLoop_conserves.
Qed.

Lemma processConnections_length (ir : nat) (net : RoadSystem.Network) :
  List.length (RoadSystem.processConnections ir net) = List.length net.
Proof.
  unfold RoadSystem.processConnections.
  destruct (nth_error net ir) as [this |]; [| reflexivity].
  generalize (RoadSystem.connects this). intro cs. revert net.
  induction cs as [| c cs IH]; intro net; [reflexivity |].
  cbn [fold_left]. rewrite IH.
  destruct (nth_error net ir) as [this' |]; [| reflexivity].
  apply connectionLoop_length.
Qed.

(** X14.  [processConnections] neither creates nor loses a vehicle, and
    keeps the roads: the network has as many roads and as many vehicles
    after the call as before, whatever the roads, their connections and
    their vehicles. *)
Theorem processConnections_conserves (ir : nat) (net : RoadSystem.Network) :
  List.length (RoadSystem.processConnections ir net) = List.length net
  /\ RoadSpec.totalVehicles (RoadSystem.processConnections ir net)
     = RoadSpec.totalVehicles net.
Proof.
  unfold RoadSystem.processConnections.
  destruct (nth_error net ir) as [this |]; [| split; reflexivity].
  generalize (RoadSystem.connects this). intro cs. revert net.
  induction cs as [| c cs IH]; intro net; [split; reflexivity |].
  cbn [fold_left].
  match goal with
  | |- context [fold_left _ cs ?n] => destruct (IH n) as [A B]
  end.
  rewrite A, B.
  destruct (nth_error net ir) as [this' |]; [| split; reflexivity].
  split; [apply connectionLoop_length | apply connectionLoop_conserves].
Qed.

(** What [shouldUseConnection] answers once the target road is known. *)
Lemma shouldUseConnection_known (net : RoadSystem.Network)
  (this tgt : RoadSystem.Road) (w : Vehicle) (c : RoadSystem.Connection) :
  nth_error net (RoadSystem.targetRoad c) = Some tgt ->
  RoadSystem.shouldUseConnection net this w c
  = match Veh.route w with
    | Some (_ :: nextRoadID :: _) => Nat.eqb (RoadSystem.roadID tgt) nextRoadID
    | _ => Nat.eqb (RoadSystem.roadID tgt) (RoadSystem.roadID this)
    end.
Proof.
  intro H. unfold RoadSystem.shouldUseConnection, RoadSystem.targetRoadID.
  rewrite H. reflexivity.
Qed.

Lemma connectionLoop_transfer (ir : nat) (c : RoadSystem.Connection)
  (net0 : RoadSystem.Network) (this tgt : RoadSystem.Road) :
  RoadSystem.targetRoad c <> ir ->
  nth_error net0 ir = Some this ->
  nth_error net0 (RoadSystem.targetRoad c) = Some tgt ->
  forall (pre post tv : list Vehicle) (net : RoadSystem.Network),
    nth_error net ir = Some (RoadSystem.set_veh (pre ++ post) this) ->
    nth_error net (RoadSystem.targetRoad c) = Some (RoadSystem.set_veh tv tgt) ->
    let res := RoadSystem.connectionLoop ir c (List.length pre) net in
    nth_error res ir
    = Some (RoadSystem.set_veh
              (filter (fun w => negb (RoadSpec.moves net0 this c w)) pre ++ post)
              this)
    /\ nth_error res (RoadSystem.targetRoad c)
       = Some (RoadSystem.set_veh
                 (tv ++ map (RoadSpec.transferred net0 c)
                          (rev (filter (RoadSpec.moves net0 this c) pre)))
                 tgt)
    /\ (forall j, j <> ir -> j <> RoadSystem.targetRoad c ->
          nth_error res j = nth_error net j).
Proof.
  intros Hneq H0 H0t pre.
  induction pre as [| w pre IH] using rev_ind; intros post tv net Hir Hit.
  - cbv zeta. simpl. rewrite app_nil_r.
    split; [exact Hir |]. split; [exact Hit | intros; reflexivity].
  - cbv zeta. rewrite length_app. simpl List.length. rewrite Nat.add_1_r.
    cbn [RoadSystem.connectionLoop]. cbv zeta.
    rewrite <- app_assoc in Hir. simpl app in Hir.
    rewrite Hir. cbn [RoadSystem.veh RoadSystem.set_veh].
    rewrite nth_error_middle.
    rewrite (shouldUseConnection_known net _ (RoadSystem.set_veh tv tgt) w c Hit).
    cbn [RoadSystem.roadID RoadSystem.set_veh].
    rewrite filter_app, filter_app. simpl filter.
    unfold RoadSpec.moves at 2 4.
    rewrite (shouldUseConnection_known net0 this tgt w c H0t).
    destruct (Rgeb (Veh.u w) (RoadSystem.uSource c)) eqn:Eu.
    2:{ simpl andb. simpl negb. cbv iota.
        rewrite app_nil_r. rewrite <- app_assoc. simpl app.
        apply (IH (w :: post) tv net); assumption. }
    simpl andb.
    match goal with
    | |- context [if ?b then RoadSystem.transferVehicle _ _ _ _ _ else _] =>
        destruct b eqn:Euse
    end.
    2:{ simpl negb. cbv iota.
        rewrite app_nil_r. rewrite <- app_assoc. simpl app.
        apply (IH (w :: post) tv net); assumption. }
    simpl negb. cbv iota. rewrite app_nil_r.
    rewrite rev_app_distr. simpl rev. simpl app. simpl map.
    set (net2 := RoadSystem.transferVehicle ir w c (List.length pre) net).
    assert (H2ir : nth_error net2 ir = Some (RoadSystem.set_veh (pre ++ post) this)).
    { subst net2. unfold RoadSystem.transferVehicle. cbv zeta.
      rewrite nth_error_updRoad_other by exact Hneq.
      rewrite (nth_error_updRoad_same _ net ir _ Hir).
      cbn [RoadSystem.veh RoadSystem.set_veh].
      rewrite removeAt_middle. reflexivity. }
    assert (H2it : nth_error net2 (RoadSystem.targetRoad c)
                   = Some (RoadSystem.set_veh
                             (tv ++ [RoadSpec.transferred net0 c w]) tgt)).
    { subst net2. unfold RoadSystem.transferVehicle. cbv zeta.
      erewrite nth_error_updRoad_same;
        [| rewrite nth_error_updRoad_other by (intro E; apply Hneq; rewrite E; reflexivity);
           exact Hit].
      cbn [RoadSystem.veh RoadSystem.set_veh].
      unfold RoadSpec.transferred, RoadSystem.targetRoadID.
      rewrite Hit, H0t. reflexivity. }
    destruct (IH post (tv ++ [RoadSpec.transferred net0 c w]) net2 H2ir H2it)
      as [A [B C]].
    split; [exact A |]. split.
    + rewrite B. rewrite <- app_assoc. reflexivity.
    + intros j Hj1 Hj2. rewrite (C j Hj1 Hj2).
      subst net2. unfold RoadSystem.transferVehicle. cbv zeta.
      rewrite nth_error_updRoad_other by (intro E; apply Hj2; rewrite E; reflexivity).
      rewrite nth_error_updRoad_other by (intro E; apply Hj1; rewrite E; reflexivity).
      reflexivity.
Qed.

(** X15.  [processConnections] on a road with one connection to another
    road: the vehicles past the source offset whose route continues on the
    target road leave the road, the others stay in their order; the target
    road receives the leavers after its own vehicles, the one farthest
    back in the array first, each at the target offset, with the target's
    identifier and the route shortened by its first element; every other
    road is left as it was. *)
Theorem processConnections_transfer (ir : nat) (net : RoadSystem.Network)
  (this tgt : RoadSystem.Road) (c : RoadSystem.Connection) :
  nth_error net ir = Some this ->
  RoadSystem.connects this = [c] ->
  RoadSystem.targetRoad c <> ir ->
  nth_error net (RoadSystem.targetRoad c) = Some tgt ->
  let net' := RoadSystem.processConnections ir net in
  nth_error net' ir
  = Some (RoadSystem.set_veh
            (filter (fun w => negb (RoadSpec.moves net this c w))
               (RoadSystem.veh this))
            this)
  /\ nth_error net' (RoadSystem.targetRoad c)
     = Some (RoadSystem.set_veh
               (RoadSystem.veh tgt
                ++ map (RoadSpec.transferred net c)
                     (rev (filter (RoadSpec.moves net this c)
                             (RoadSystem.veh this))))
               tgt)
  /\ (forall j, j <> ir -> j <> RoadSystem.targetRoad c ->
        nth_error net' j = nth_error net j).
Proof.
  intros Hir Hc Hneq Hit. cbv zeta.
  unfold RoadSystem.processConnections. rewrite Hir, Hc.
  cbn [fold_left]. rewrite Hir.
  assert (Hir' : nth_error net ir
                 = Some (RoadSystem.set_veh (RoadSystem.veh this ++ []) this)).
  { rewrite app_nil_r, Hir. destruct this; reflexivity. }
  assert (Hit' : nth_error net (RoadSystem.targetRoad c)
                 = Some (RoadSystem.set_veh (RoadSystem.veh tgt) tgt)).
  { rewrite Hit. destruct tgt; reflexivity. }
  pose proof (connectionLoop_transfer ir c net this tgt Hneq Hir Hit
                (RoadSystem.veh this) [] (RoadSystem.veh tgt) net Hir' Hit') as H.
  cbv zeta in H. rewrite app_nil_r in H. exact H.
Qed.

(** The south-bound car of the network at 195 m with the route [4, 5]. *)
Lemma processConnections_transfer_witness :
  let w := Sample.car 1 Intersection.ROUTE_45 1 195 10 false in
  let net := Intersection.networkWith [] [] [] [] [w] [] in
  let c := RoadSystem.mkConnection 5 190 10 0 in
  let this := RoadSystem.set_veh [w]
                (RoadSystem.connect 5 190 10 (Intersection.createRoad 4)) in
  nth_error (RoadSystem.processConnections 4 net) 4
  = Some (RoadSystem.set_veh
            (filter (fun x => negb (RoadSpec.moves net this c x)) [w]) this).
Proof.
  cbv zeta.
  destruct (processConnections_transfer 4
              (Intersection.networkWith [] [] [] []
                 [Sample.car 1 Intersection.ROUTE_45 1 195 10 false] [])
              (RoadSystem.set_veh
                 [Sample.car 1 Intersection.ROUTE_45 1 195 10 false]
                 (RoadSystem.connect 5 190 10 (Intersection.createRoad 4)))
              (RoadSystem.set_veh [] (Intersection.createRoad 5))
              (RoadSystem.mkConnection 5 190 10 0)
              eq_refl eq_refl ltac:(simpl; lia) eq_refl) as [H _].
  exact H.
Defined.

Lemma connectionLoop_loopback (ir : nat) (c : RoadSystem.Connection)
  (net0 : RoadSystem.Network) (this : RoadSystem.Road) :
  RoadSystem.targetRoad c = ir ->
  nth_error net0 ir = Some this ->
  forall (pre post : list Vehicle) (net : RoadSystem.Network),
    nth_error net ir = Some (RoadSystem.set_veh (pre ++ post) this) ->
    let res := RoadSystem.connectionLoop ir c (List.length pre) net in
    nth_error res ir
    = Some (RoadSystem.set_veh
              (filter (fun w => negb (RoadSpec.moves net0 this c w)) pre
               ++ post
               ++ map (RoadSpec.transferred net0 c)
                    (rev (filter (RoadSpec.moves net0 this c) pre)))
              this)
    /\ (forall j, j <> ir -> nth_error res j = nth_error net j).
Proof.
  intros Heq H0 pre.
  assert (H0t : nth_error net0 (RoadSystem.targetRoad c) = Some this)
    by (rewrite Heq; exact H0).
  induction pre as [| w pre IH] using rev_ind; intros post net Hir.
  - cbv zeta. simpl. rewrite app_nil_r.
    split; [exact Hir | intros; reflexivity].
  - cbv zeta. rewrite length_app. simpl List.length. rewrite Nat.add_1_r.
    cbn [RoadSystem.connectionLoop]. cbv zeta.
    rewrite <- app_assoc in Hir. simpl app in Hir.
    assert (Hit : nth_error net (RoadSystem.targetRoad c)
                  = Some (RoadSystem.set_veh (pre ++ w :: post) this))
      by (rewrite Heq; exact Hir).
    rewrite Hir. cbn [RoadSystem.veh RoadSystem.set_veh].
    rewrite nth_error_middle.
    rewrite (shouldUseConnection_known net _ _ w c Hit).
    cbn [RoadSystem.roadID RoadSystem.set_veh].
    rewrite filter_app, filter_app. simpl filter.
    unfold RoadSpec.moves at 2 4.
    rewrite (shouldUseConnection_known net0 this this w c H0t).
    destruct (Rgeb (Veh.u w) (RoadSystem.uSource c)) eqn:Eu.
    2:{ simpl andb. simpl negb. cbv iota.
        rewrite app_nil_r. rewrite <- app_assoc. simpl app.
        apply (IH (w :: post) net); assumption. }
    simpl andb.
    match goal with
    | |- context [if ?b then RoadSystem.transferVehicle _ _ _ _ _ else _] =>
        destruct b eqn:Euse
    end.
    2:{ simpl negb. cbv iota.
        rewrite app_nil_r. rewrite <- app_assoc. simpl app.
        apply (IH (w :: post) net); assumption. }
    simpl negb. cbv iota. rewrite app_nil_r.
    rewrite rev_app_distr. simpl rev. simpl app. simpl map.
    set (net2 := RoadSystem.transferVehicle ir w c (List.length pre) net).
    assert (H2ir : nth_error net2 ir
                   = Some (RoadSystem.set_veh
                             (pre ++ post ++ [RoadSpec.transferred net0 c w])
                             this)).
    { subst net2. unfold RoadSystem.transferVehicle. cbv zeta.
      rewrite Heq.
      erewrite nth_error_updRoad_same;
        [| apply nth_error_updRoad_same; exact Hir].
      cbn [RoadSystem.veh RoadSystem.set_veh].
      rewrite removeAt_middle.
      unfold RoadSpec.transferred, RoadSystem.targetRoadID.
      rewrite Heq, Hir, H0. rewrite <- app_assoc. reflexivity. }
    destruct (IH (post ++ [RoadSpec.transferred net0 c w]) net2 H2ir)
      as [A C].
    split.
    + rewrite A. rewrite <- app_assoc. reflexivity.
    + intros j Hj. rewrite (C j Hj).
      subst net2. unfold RoadSystem.transferVehicle. cbv zeta.
      rewrite Heq.
      rewrite !nth_error_updRoad_other by (intro E; apply Hj; rewrite E; reflexivity).
      reflexivity.
Qed.

(** X16.  [processConnections] on a road whose one connection leads back to
    the road itself (roads 0 and 1 of the network): the vehicles past the
    source offset whose route names no other next road are taken out and
    put back at the end of the array, at the target offset; no vehicle
    leaves the road and no other road changes. *)
Theorem processConnections_loopback (ir : nat) (net : RoadSystem.Network)
  (this : RoadSystem.Road) (c : RoadSystem.Connection) :
  nth_error net ir = Some this ->
  RoadSystem.connects this = [c] ->
  RoadSystem.targetRoad c = ir ->
  let net' := RoadSystem.processConnections ir net in
  nth_error net' ir
  = Some (RoadSystem.set_veh
            (filter (fun w => negb (RoadSpec.moves net this c w))
               (RoadSystem.veh this)
             ++ map (RoadSpec.transferred net c)
                  (rev (filter (RoadSpec.moves net this c)
                          (RoadSystem.veh this))))
            this)
  /\ (forall j, j <> ir -> nth_error net' j = nth_error net j).
Proof.
  intros Hir Hc Heq. cbv zeta.
  unfold RoadSystem.processConnections. rewrite Hir, Hc.
  cbn [fold_left]. rewrite Hir.
  assert (Hir' : nth_error net ir
                 = Some (RoadSystem.set_veh (RoadSystem.veh this ++ []) this)).
  { rewrite app_nil_r, Hir. destruct this; reflexivity. }
  pose proof (connectionLoop_loopback ir c net this Heq Hir
                (RoadSystem.veh this) [] net Hir') as H.
  cbv zeta in H. simpl app in H. exact H.
Qed.

(** The east-bound car of the network at 195 m with the route [0]. *)
Lemma processConnections_loopback_witness :
  let w := Sample.car 1 [0%nat] 1 195 10 false in
  let net := Intersection.networkWith [w] [] [] [] [] [] in
  nth_error (RoadSystem.processConnections 0 net) 1 = nth_error net 1.
Proof.
  cbv zeta.
  destruct (processConnections_loopback 0
              (Intersection.networkWith
                 [Sample.car 1 [0%nat] 1 195 10 false] [] [] [] [] [])
              (RoadSystem.set_veh [Sample.car 1 [0%nat] 1 195 10 false]
                 (RoadSystem.connect 0 190 10 (Intersection.createRoad 0)))
              Intersection.eastStraight
              eq_refl eq_refl eq_refl) as [_ H].
  apply H. discriminate.
Defined.

End ConnectionsMore.

(* ------------------------------------------------------------------ *)
(** ** Further properties: accelerations and lane changes of a road *)

Section RoadPasses.
Local Open Scope R_scope.

Lemma laneAccelerations_band (l : list (nat * Vehicle)) :
  Forall (fun ka : nat * R => -6 <= snd ka <= 3) (RoadSystem.laneAccelerations l).
Proof.
  induction l as [| [k w] rest IH]; [constructor |].
  cbn [RoadSystem.laneAccelerations]. cbv zeta. constructor; [| exact IH].
  cbn [snd]. split.
  - apply Rmax_l.
  - apply Rmax_lub; [lra | apply Rmin_l].
Qed.

Lemma write_accUpdated (a : R) :
  -6 <= a <= 3 ->
  forall (l vs : list Vehicle) (k : nat),
    Forall2 PassSpec.accUpdated l vs ->
    Forall2 PassSpec.accUpdated l
      (match nth_error vs k with
       | Some w => RoadSystem.replaceAt k (RoadSystem.set_acc a w) vs
       | None => vs
       end).
Proof.
  intros Ha l vs k H. revert k.
  induction H as [| w w' l vs Hw H IH]; intro k.
  - destruct k; constructor.
  - destruct k as [| k]; cbn [nth_error RoadSystem.replaceAt].
    + constructor; [| exact H].
      destruct Hw as [E _]. split; [| exact Ha].
      cbn [Veh.acc RoadSystem.set_acc]. rewrite E. reflexivity.
    + specialize (IH k).
      destruct (nth_error vs k) as [x |].
      * constructor; [exact Hw | exact IH].
      * constructor; [exact Hw | exact H].
Qed.

Lemma writes_accUpdated (writes : list (nat * R)) :
  Forall (fun ka : nat * R => -6 <= snd ka <= 3) writes ->
  forall l vs0 : list Vehicle,
    Forall2 PassSpec.accUpdated l vs0 ->
    Forall2 PassSpec.accUpdated l
      (fold_left
         (fun vs (ka : nat * R) =>
            match nth_error vs (fst ka) with
            | Some w => RoadSystem.replaceAt (fst ka) (RoadSystem.set_acc (snd ka) w) vs
            | None => vs
            end)
         writes vs0).
Proof.
  induction writes as [| [k a] ws IH]; intros Hws l vs0 H0; [exact H0 |].
  cbn [fold_left fst snd]. apply IH.
  - inversion Hws; assumption.
  - apply write_accUpdated; [inversion Hws; assumption | exact H0].
Qed.

Lemma reset_accUpdated (l : list Vehicle) :
  Forall2 PassSpec.accUpdated l (map (RoadSystem.set_acc 0) l).
Proof.
  induction l as [| w l IH]; [constructor |].
  simpl map. constructor; [| exact IH].
  split; [reflexivity | simpl; lra].
Qed.

Lemma lane_writes_band (lanes : list Z) (indexed : list (nat * Vehicle)) :
  Forall (fun ka : nat * R => -6 <= snd ka <= 3)
    (flat_map
       (fun lane =>
          RoadSystem.laneAccelerations
            (RoadSystem.sortByU
               (filter (fun c => Z.eqb (Veh.lane (snd c)) lane) indexed)))
       lanes).
Proof.
  apply Forall_forall. intros ka Hin. apply in_flat_map in Hin.
  destruct Hin as [lane [_ Hin]].
  exact (proj1 (Forall_forall _ _) (laneAccelerations_band _) ka Hin).
Qed.

Lemma calcAccelerations_length (r : RoadSystem.Road) :
  List.length (RoadSystem.veh (RoadSystem.calcAccelerations r))
  = List.length (RoadSystem.veh r).
Proof.
  unfold RoadSystem.calcAccelerations. cbv zeta.
  cbn [RoadSystem.veh RoadSystem.set_veh].
  symmetry. eapply Forall2_length.
  apply writes_accUpdated; [apply lane_writes_band | apply reset_accUpdated].
Qed.

(** X17.  [calcAccelerations] changes nothing but the accelerations: the
    road keeps its vehicles in their order, each equal to what it was up
    to [acc], and every acceleration it leaves is within [[-6, 3]]. *)
Theorem calcAccelerations_frame (r : RoadSystem.Road) :
  let r' := RoadSystem.calcAccelerations r in
  r' = RoadSystem.set_veh (RoadSystem.veh r') r
  /\ Forall2 PassSpec.accUpdated (RoadSystem.veh r) (RoadSystem.veh r').
Proof.
  cbv zeta. split; [reflexivity |].
  unfold RoadSystem.calcAccelerations. cbv zeta.
  cbn [RoadSystem.veh RoadSystem.set_veh].
  apply writes_accUpdated.
  - apply lane_writes_band.
  - apply reset_accUpdated.
Qed.

Lemma optical_is_set (w : Vehicle) :
  exists a b, RoadSystem.update_v_dvdt_optical w = Veh.set_v_dvdt a b w.
Proof.
  unfold RoadSystem.update_v_dvdt_optical.
  destruct (Req_dec_T (Veh.dt_LC w) 0); [eexists; eexists; reflexivity |].
  cbv zeta.
  destruct (Rgtb (Veh.dt_afterLC w) (Veh.dt_LC w)); eexists; eexists; reflexivity.
Qed.

Lemma replaceAt_middle {A : Type} (w x : A) (post : list A) :
  forall pre : list A,
    RoadSystem.replaceAt (List.length pre) x (pre ++ w :: post)
    = pre ++ x :: post.
Proof.
  induction pre as [| y pre IH]; simpl; [reflexivity |].
  rewrite IH. reflexivity.
Qed.

Lemma nth_error_at {A : Type} (w : A) (post : list A) :
  forall pre : list A, nth_error (pre ++ w :: post) (List.length pre) = Some w.
Proof.
  induction pre as [| y pre IH]; simpl; [reflexivity | exact IH].
Qed.

Lemma evaluateLaneChangeNeed_vehicle (r : RoadSystem.Road)
  (trajAlt : list RoadSystem.TrajAlt) (w : Vehicle) :
  snd (RoadSystem.evaluateLaneChangeNeed r trajAlt w) = w
  \/ snd (RoadSystem.evaluateLaneChangeNeed r trajAlt w)
     = Veh.set_mandatoryLaneChange true w.
Proof.
  unfold RoadSystem.evaluateLaneChangeNeed.
  destruct (Veh.route w) as [[| first [| second rest]] |];
    try (left; reflexivity).
  cbv zeta.
  destruct (Rgtb (Veh.u w) (RoadSystem.roadLen r - 50)); [| left; reflexivity].
  destruct (RoadSystem.requiredLane r trajAlt _ w);
    [right | left]; reflexivity.
Qed.

(** What the loop body of [changeLanes] does at the position it visits. *)
Lemma changeLaneAt_at (r : RoadSystem.Road) (trajAlt : list RoadSystem.TrajAlt)
  (pre post : list Vehicle) (w0 : Vehicle) :
  exists w',
    RoadSystem.changeLaneAt r trajAlt (pre ++ w0 :: post) (List.length pre)
    = pre ++ w' :: post
    /\ PassSpec.laneChanged (RoadSystem.nLanes r) w0 w'.
Proof.
  unfold RoadSystem.changeLaneAt. rewrite nth_error_at. cbv zeta.
  set (w1 := RoadSystem.set_dt_afterLC (Veh.dt_afterLC w0 + RoadSystem.DT) w0).
  destruct (Rltb (Veh.dt_afterLC w1) (Veh.dt_LC w1)) eqn:Ecool.
  { destruct (optical_is_set w1) as [a [b E]]. rewrite E.
    eexists. split; [apply replaceAt_middle |].
    unfold PassSpec.laneChanged. simpl.
    repeat (split; [reflexivity |]). left; reflexivity. }
  apply Rltb_false in Ecool.
  change (Veh.dt_afterLC w1) with (Veh.dt_afterLC w0 + RoadSystem.DT) in Ecool.
  change (Veh.dt_LC w1) with (Veh.dt_LC w0) in Ecool.
  destruct (RoadSystem.evaluateLaneChangeNeed r trajAlt w1) as [targetLane w2] eqn:Eev.
  assert (Hw2 : w2 = w1 \/ w2 = Veh.set_mandatoryLaneChange true w1).
  { pose proof (evaluateLaneChangeNeed_vehicle r trajAlt w1) as H.
    rewrite Eev in H. exact H. }
  assert (Hsame : Veh.id w2 = Veh.id w0 /\ Veh.u w2 = Veh.u w0
                  /\ Veh.speed w2 = Veh.speed w0 /\ Veh.acc w2 = Veh.acc w0
                  /\ Veh.route w2 = Veh.route w0 /\ Veh.lane w2 = Veh.lane w0).
  { destruct Hw2 as [-> | ->]; repeat split; reflexivity. }
  destruct Hsame as [Hid [Hu [Hsp [Hacc [Hroute Hlane]]]]].
  match goal with
  | |- context [RoadSystem.update_v_dvdt_optical ?x] => set (w3 := x)
  end.
  destruct (optical_is_set w3) as [a [b E]]. rewrite E.
  eexists. split; [apply replaceAt_middle |].
  unfold PassSpec.laneChanged.
  cbn [Veh.id Veh.u Veh.speed Veh.acc Veh.route Veh.lane Veh.laneOld
       Veh.dt_afterLC Veh.dt_LC Veh.set_v_dvdt].
  subst w3.
  destruct (negb (Z.eqb targetLane (Veh.lane w2)) && Z.leb 0 targetLane
            && Z.ltb targetLane (RoadSystem.nLanes r)) eqn:Eguard.
  2:{ repeat (split; [assumption |]). left; assumption. }
  cbv zeta.
  match goal with
  | |- context [MOBIL.shouldChange ?d] => destruct (MOBIL.shouldChange d)
  end.
  2:{ repeat (split; [assumption |]). left; assumption. }
  cbn [Veh.id Veh.u Veh.speed Veh.acc Veh.route Veh.lane Veh.laneOld
       Veh.dt_afterLC Veh.dt_LC RoadSystem.executeLaneChange].
  repeat (split; [assumption |]). right.
  apply andb_true_iff in Eguard. destruct Eguard as [Eg Hlt].
  apply andb_true_iff in Eg. destruct Eg as [_ Hle].
  apply Z.leb_le in Hle. apply Z.ltb_lt in Hlt.
  repeat split; try assumption; try reflexivity.
Qed.

Lemma changeLanes_loop (r : RoadSystem.Road) (trajAlt : list RoadSystem.TrajAlt) :
  forall post pre : list Vehicle,
  exists post',
    fold_left (RoadSystem.changeLaneAt r trajAlt)
      (seq (List.length pre) (List.length post)) (pre ++ post)
    = pre ++ post'
    /\ Forall2 (PassSpec.laneChanged (RoadSystem.nLanes r)) post post'.
Proof.
  induction post as [| w0 post IH]; intro pre.
  - exists []. split; [reflexivity | constructor].
  - cbn [List.length seq fold_left].
    destruct (changeLaneAt_at r trajAlt pre post w0) as [w' [E Hw]].
    rewrite E.
    destruct (IH (pre ++ [w'])) as [post' [E' Hpost]].
    rewrite length_app in E'. simpl List.length in E'.
    rewrite Nat.add_1_r in E'. rewrite <- app_assoc in E'. simpl app in E'.
    rewrite E'. exists (w' :: post'). split.
    + rewrite <- app_assoc. reflexivity.
    + constructor; assumption.
Qed.

Lemma changeLanes_length (trajAlt : list RoadSystem.TrajAlt)
  (r : RoadSystem.Road) :
  List.length (RoadSystem.veh (RoadSystem.changeLanes trajAlt r))
  = List.length (RoadSystem.veh r).
Proof.
  unfold RoadSystem.changeLanes. cbn [RoadSystem.veh RoadSystem.set_veh].
  destruct (changeLanes_loop r trajAlt (RoadSystem.veh r) []) as [post' [E H]].
  simpl in E. rewrite E. symmetry. exact (Forall2_length H).
Qed.

(** X18.  [changeLanes] keeps the vehicles of the road in their order, with
    their identity, position, speed, acceleration and route; a vehicle
    either keeps its lane or moves to a lane of the road, by a change that
    starts at this step ([dt_afterLC = 0], [dt_LC = 4], [laneOld] the lane
    it leaves) and only if its previous change was over. *)
Theorem changeLanes_frame (trajAlt : list RoadSystem.TrajAlt) (r : RoadSystem.Road) :
  let r' := RoadSystem.changeLanes trajAlt r in
  r' = RoadSystem.set_veh (RoadSystem.veh r') r
  /\ Forall2 (PassSpec.laneChanged (RoadSystem.nLanes r))
       (RoadSystem.veh r) (RoadSystem.veh r').
Proof.
  cbv zeta. split; [reflexivity |].
  unfold RoadSystem.changeLanes. cbn [RoadSystem.veh RoadSystem.set_veh].
  destruct (changeLanes_loop r trajAlt (RoadSystem.veh r) []) as [post' [E H]].
  simpl in E. rewrite E. exact H.
Qed.

End RoadPasses.

(* ------------------------------------------------------------------ *)
(** ** Further properties: the physics step *)

Section PhysicsStep.
Local Open Scope R_scope.

Lemma speedTotals_count (uStart uEnd : R) (lane : option Z) (r : RoadSystem.Road) :
  snd (RoadSystem.speedTotals uStart uEnd lane r)
  = RoadSystem.getVehicleCount uStart uEnd lane r.
Proof.
  unfold RoadSystem.speedTotals, RoadSystem.getVehicleCount.
  assert (G : forall (l : list Vehicle) (st : R * nat) (n : nat),
             snd st = n ->
             snd (fold_left
                    (fun (st : R * nat) w =>
                       if Rgeb (Veh.u w) uStart && Rleb (Veh.u w) uEnd
                       then match lane with
                            | None => (fst st + Veh.speed w, S (snd st))
                            | Some l =>
                                if Z.eqb (Veh.lane w) l
                                then (fst st + Veh.speed w, S (snd st)) else st
                            end
                       else st) l st)
             = fold_left
                 (fun count w =>
                    if Rgeb (Veh.u w) uStart && Rleb (Veh.u w) uEnd
                    then match lane with
                         | None => S count
                         | Some l => if Z.eqb (Veh.lane w) l then S count else count
                         end
                    else count) l n).
  { induction l as [| w l IH]; intros st n E; [exact E |].
    cbn [fold_left]. apply IH.
    destruct (Rgeb (Veh.u w) uStart && Rleb (Veh.u w) uEnd); [| exact E].
    destruct lane as [ln |]; [| simpl; rewrite E; reflexivity].
    destruct (Z.eqb (Veh.lane w) ln); [simpl; rewrite E; reflexivity | exact E]. }
  apply G. reflexivity.
Qed.

Lemma speedTotals_zone (uStart uEnd : R) (lane : option Z) (l : list Vehicle) :
  forall st : R * nat,
    fold_left
      (fun (st : R * nat) w =>
         if Rgeb (Veh.u w) uStart && Rleb (Veh.u w) uEnd
         then match lane with
              | None => (fst st + Veh.speed w, S (snd st))
              | Some l =>
                  if Z.eqb (Veh.lane w) l
                  then (fst st + Veh.speed w, S (snd st)) else st
              end
         else st)
      l st
    = (fold_left (fun total w => total + Veh.speed w)
         (filter (ZoneSpec.inZone uStart uEnd lane) l) (fst st),
       (snd st + List.length (filter (ZoneSpec.inZone uStart uEnd lane) l))%nat).
Proof.
  induction l as [| w l IH]; intros [t n].
  - simpl. rewrite Nat.add_0_r. reflexivity.
  - cbn [fold_left filter]. rewrite IH. unfold ZoneSpec.inZone at 3 6.
    destruct (Rgeb (Veh.u w) uStart && Rleb (Veh.u w) uEnd);
      [| reflexivity].
    destruct lane as [ln |]; cbn [andb].
    + destruct (Z.eqb (Veh.lane w) ln); [| reflexivity].
      cbn [fst snd fold_left List.length]. rewrite Nat.add_succ_r. reflexivity.
    + cbn [fst snd fold_left List.length]. rewrite Nat.add_succ_r. reflexivity.
Qed.

Lemma totalSpeed_nonneg (l : list Vehicle) :
  (forall w, In w l -> 0 <= Veh.speed w) ->
  forall a, 0 <= a -> 0 <= fold_left (fun total w => total + Veh.speed w) l a.
Proof.
  induction l as [| w l IH]; intros Hall a Ha; [exact Ha |].
  cbn [fold_left]. apply IH.
  - intros x Hx. apply Hall. right. exact Hx.
  - pose proof (Hall w (or_introl eq_refl)). lra.
Qed.

(** X19.  [getVehicleCount] counts the vehicles of the zone: position in
    [[uStart, uEnd]] and, when a lane is given, that lane.
    [getAverageSpeed] is 0 on an empty zone; otherwise it is the speeds of
    the vehicles of the zone, added up from 0 in the order of the road,
    divided by their number: the speed of the vehicle when there is one,
    and never negative when no vehicle of the zone has a negative speed. *)
Theorem getAverageSpeed_zone (uStart uEnd : R) (lane : option Z)
  (r : RoadSystem.Road) :
  let vehicles := ZoneSpec.zone uStart uEnd lane r in
  let average := RoadSystem.getAverageSpeed uStart uEnd lane r in
  RoadSystem.getVehicleCount uStart uEnd lane r = List.length vehicles
  /\ (vehicles = [] -> average = 0)
  /\ (vehicles <> [] ->
      average = ZoneSpec.totalSpeed vehicles / INR (List.length vehicles))
  /\ (forall w, vehicles = [w] -> average = Veh.speed w)
  /\ ((forall w, In w vehicles -> 0 <= Veh.speed w) -> 0 <= average).
Proof.
  cbv zeta.
  assert (ET : RoadSystem.speedTotals uStart uEnd lane r
               = (ZoneSpec.totalSpeed (ZoneSpec.zone uStart uEnd lane r),
                  List.length (ZoneSpec.zone uStart uEnd lane r))).
  { unfold RoadSystem.speedTotals. rewrite speedTotals_zone. reflexivity. }
  assert (EA : RoadSystem.getAverageSpeed uStart uEnd lane r
               = if Nat.ltb 0 (List.length (ZoneSpec.zone uStart uEnd lane r))
                 then ZoneSpec.totalSpeed (ZoneSpec.zone uStart uEnd lane r)
                      / INR (List.length (ZoneSpec.zone uStart uEnd lane r))
                 else 0).
  { unfold RoadSystem.getAverageSpeed. cbv zeta. rewrite ET. reflexivity. }
  split.
  { rewrite <- speedTotals_count, ET. reflexivity. }
  rewrite EA. clear EA ET.
  set (vehicles := ZoneSpec.zone uStart uEnd lane r).
  split; [| split; [| split]].
  - intro E. rewrite E. reflexivity.
  - intro Hne. destruct vehicles as [| w rest]; [contradiction | reflexivity].
  - intros w E. rewrite E. unfold ZoneSpec.totalSpeed. simpl. field.
  - intro Hall. destruct vehicles as [| w rest] eqn:E; [simpl; lra |].
    assert (Hn : Nat.ltb 0 (List.length (w :: rest)) = true) by reflexivity.
    rewrite Hn.
    assert (Ht : 0 <= ZoneSpec.totalSpeed (w :: rest)).
    { unfold ZoneSpec.totalSpeed. apply totalSpeed_nonneg; [exact Hall | lra]. }
    assert (HR : 0 < INR (List.length (w :: rest))).
    { apply lt_0_INR. simpl. lia. }
    unfold Rdiv. apply Rmult_le_pos; [exact Ht |].
    left. apply Rinv_0_lt_compat. exact HR.
Qed.

Lemma zone_of_sample :
  ZoneSpec.zone 0 200 (Some 1%Z)
    (RoadSystem.set_veh
       [Sample.car 1 [0%nat] 0 50 10 false;
        Sample.car 2 [0%nat] 1 80 14 false]
       (Intersection.createRoad 0))
  = [Sample.car 2 [0%nat] 1 80 14 false].
Proof.
  unfold ZoneSpec.zone, ZoneSpec.inZone. simpl.
  assert (E1 : Rgeb 50 0 = true) by (apply Rleb_true; lra).
  assert (E2 : Rleb 50 200 = true) by (apply Rleb_true; lra).
  assert (E3 : Rgeb 80 0 = true) by (apply Rleb_true; lra).
  assert (E4 : Rleb 80 200 = true) by (apply Rleb_true; lra).
  rewrite E1, E2, E3, E4. reflexivity.
Qed.

(** Two cars of a road, at 10 m/s in lane 0 and at 14 m/s in lane 1: the
    average over lane 1 is 14. *)
Lemma getAverageSpeed_zone_witness :
  RoadSystem.getAverageSpeed 0 200 (Some 1%Z)
    (RoadSystem.set_veh
       [Sample.car 1 [0%nat] 0 50 10 false;
        Sample.car 2 [0%nat] 1 80 14 false]
       (Intersection.createRoad 0)) = 14.
Proof.
  destruct (getAverageSpeed_zone 0 200 (Some 1%Z)
              (RoadSystem.set_veh
                 [Sample.car 1 [0%nat] 0 50 10 false;
                  Sample.car 2 [0%nat] 1 80 14 false]
                 (Intersection.createRoad 0))) as [_ [_ [_ [H _]]]].
  apply (H (Sample.car 2 [0%nat] 1 80 14 false)). exact zone_of_sample.
Defined.

Lemma filter_idem {A : Type} (p : A -> bool) (l : list A) :
  filter p (filter p l) = filter p l.
Proof.
  induction l as [| x l IH]; [reflexivity |].
  simpl. destruct (p x) eqn:E; [| exact IH].
  simpl. rewrite E, IH. reflexivity.
Qed.

(** After [updateSpeedPositions] on every road, [cleanupVehicles] finds
    nothing to remove: the seventh pass of [updatePhysics] leaves the
    network as the sixth made it. *)
Lemma cleanupVehicles_after_update (net : RoadSystem.Network) :
  SimulationLoop.cleanupVehicles (map RoadSystem.updateSpeedPositions net)
  = map RoadSystem.updateSpeedPositions net.
Proof.
  unfold SimulationLoop.cleanupVehicles. rewrite map_map.
  apply map_ext. intro r.
  unfold RoadSystem.updateSpeedPositions.
  cbn [RoadSystem.veh RoadSystem.roadLen RoadSystem.set_veh].
  rewrite filter_idem. reflexivity.
Qed.

Lemma updateBCup_length (flow dt : R) (possibleRoutes : list (list nat))
  (d : RoadSystem.Draws) (r : RoadSystem.Road) :
  (List.length (RoadSystem.veh (RoadSystem.updateBCup flow dt possibleRoutes d r))
   <= S (List.length (RoadSystem.veh r)))%nat.
Proof.
  unfold RoadSystem.updateBCup. cbv zeta.
  destruct (Rgeb _ 1); [| simpl; lia].
  destruct (RoadSystem.canSpawnVehicle _ _); [| simpl; lia].
  cbn [RoadSystem.veh RoadSystem.set_veh RoadSystem.set_inVehBuffer].
  rewrite length_app. simpl. lia.
Qed.

(** One call: the counter stays non-negative under a non-negative inflow,
    and the vehicles are those of before, followed by the new car if one
    is let in. *)
Lemma updateBCup_call (c : InflowSpec.Call) (r : RoadSystem.Road) :
  let r' := RoadSystem.updateBCup (InflowSpec.flow c) (InflowSpec.dt c)
              (InflowSpec.possibleRoutes c) (InflowSpec.draws c) r in
  (0 <= RoadSystem.inVehBuffer r -> 0 <= InflowSpec.flow c * InflowSpec.dt c ->
   0 <= RoadSystem.inVehBuffer r')
  /\ RoadSystem.roadLen r' = RoadSystem.roadLen r
  /\ RoadSystem.nLanes r' = RoadSystem.nLanes r
  /\ exists added,
       RoadSystem.veh r' = RoadSystem.veh r ++ added
       /\ (List.length added <= 1)%nat
       /\ forall w, In w added ->
            Veh.u w = 5 /\ Veh.acc w = 0 /\ 0 <= Veh.speed w
            /\ Veh.type w = "car"%string.
Proof.
  cbv zeta. unfold RoadSystem.updateBCup. cbv zeta.
  cbn [RoadSystem.inVehBuffer RoadSystem.set_inVehBuffer].
  destruct (Rgeb (RoadSystem.inVehBuffer r
                  + InflowSpec.flow c * InflowSpec.dt c / 3600) 1) eqn:E.
  - apply Rleb_true in E.
    destruct (RoadSystem.canSpawnVehicle _ _);
      cbn [RoadSystem.veh RoadSystem.inVehBuffer RoadSystem.set_veh
           RoadSystem.set_inVehBuffer RoadSystem.roadLen RoadSystem.nLanes].
    + split; [intros; lra |]. split; [reflexivity |]. split; [reflexivity |].
      eexists. split; [reflexivity |]. split; [simpl; lia |].
      intros w [<- | []]. cbn [Veh.u Veh.acc Veh.speed Veh.type RoadSystem.createVehicle].
      split; [reflexivity |]. split; [reflexivity |].
      split; [apply Rmax_l | reflexivity].
    + split; [intros; lra |]. split; [reflexivity |]. split; [reflexivity |].
      exists []. rewrite app_nil_r. split; [reflexivity |].
      split; [simpl; lia | intros w []].
  - cbn [RoadSystem.veh RoadSystem.inVehBuffer RoadSystem.set_inVehBuffer
         RoadSystem.roadLen RoadSystem.nLanes].
    split; [intros; lra |]. split; [reflexivity |]. split; [reflexivity |].
    exists []. rewrite app_nil_r. split; [reflexivity |].
    split; [simpl; lia | intros w []].
Qed.

(** X20.  Over any series of calls of [updateBCup] with non-negative
    inflow, from a road whose inflow counter is not negative: the counter
    is never negative; the vehicles the road had are still there, in
    their order and ahead of the new ones; at most one vehicle has been
    added per call; and every vehicle added is a car placed 5 m into the
    road, with acceleration 0 and a speed that is not negative. *)
Theorem updateBCup_run (calls : list InflowSpec.Call) (r : RoadSystem.Road) :
  0 <= RoadSystem.inVehBuffer r ->
  (forall c, In c calls -> 0 <= InflowSpec.flow c * InflowSpec.dt c) ->
  let r' := InflowSpec.run calls r in
  0 <= RoadSystem.inVehBuffer r'
  /\ RoadSystem.roadLen r' = RoadSystem.roadLen r
  /\ RoadSystem.nLanes r' = RoadSystem.nLanes r
  /\ exists added,
       RoadSystem.veh r' = RoadSystem.veh r ++ added
       /\ (List.length added <= List.length calls)%nat
       /\ forall w, In w added ->
            Veh.u w = 5 /\ Veh.acc w = 0 /\ 0 <= Veh.speed w
            /\ Veh.type w = "car"%string.
Proof.
  revert r. unfold InflowSpec.run.
  induction calls as [| c calls IH]; intros r Hb Hflow; cbv zeta.
  - simpl. split; [exact Hb |]. split; [reflexivity |]. split; [reflexivity |].
    exists []. rewrite app_nil_r. split; [reflexivity |].
    split; [apply Nat.le_refl | intros w []].
  - cbn [fold_left].
    destruct (updateBCup_call c r) as [H0 [HL [HN [a1 [Hv [Hn Hw]]]]]].
    set (r1 := RoadSystem.updateBCup (InflowSpec.flow c) (InflowSpec.dt c)
                 (InflowSpec.possibleRoutes c) (InflowSpec.draws c) r) in *.
    assert (Hb1 : 0 <= RoadSystem.inVehBuffer r1).
    { apply H0; [exact Hb | apply Hflow; left; reflexivity]. }
    destruct (IH r1 Hb1 (fun c' Hc' => Hflow c' (or_intror Hc')))
      as [G0 [GL [GN [a2 [Gv [Gn Gw]]]]]].
    split; [exact G0 |]. split; [rewrite GL; exact HL |].
    split; [rewrite GN; exact HN |].
    exists (a1 ++ a2). split; [rewrite Gv, Hv, app_assoc; reflexivity |].
    split.
    + rewrite length_app. simpl List.length. lia.
    + intros w Hin. apply in_app_or in Hin. destruct Hin as [Hin | Hin].
      * apply Hw. exact Hin.
      * apply Gw. exact Hin.
Qed.

(** Ten calls at 36000 veh/h with a step of 0.1 s on an empty road. *)
Lemma updateBCup_run_witness :
  0 <= RoadSystem.inVehBuffer
         (InflowSpec.run
            (repeat (InflowSpec.mkCall 36000 0.1 [Intersection.ROUTE_05] Sample.draws)
                    10)
            (Intersection.createRoad 0)).
Proof.
  destruct (updateBCup_run
              (repeat (InflowSpec.mkCall 36000 0.1 [Intersection.ROUTE_05]
                         Sample.draws) 10)
              (Intersection.createRoad 0)) as [H _].
  - simpl. lra.
  - intros c Hc. apply repeat_spec in Hc. subst c. simpl. lra.
  - exact H.
Defined.

Lemma totalVehicles_map_le (f : RoadSystem.Road -> RoadSystem.Road) :
  (forall r, (List.length (RoadSystem.veh (f r))
              <= List.length (RoadSystem.veh r))%nat) ->
  forall net, (RoadSpec.totalVehicles (map f net) <= RoadSpec.totalVehicles net)%nat.
Proof.
  intros Hf net. induction net as [| r net IH]; [apply Nat.le_refl |].
  simpl map. rewrite !totalVehicles_cons. specialize (Hf r). lia.
Qed.

Lemma totalVehicles_map_eq (f : RoadSystem.Road -> RoadSystem.Road) :
  (forall r, List.length (RoadSystem.veh (f r)) = List.length (RoadSystem.veh r)) ->
  forall net, RoadSpec.totalVehicles (map f net) = RoadSpec.totalVehicles net.
Proof.
  intros Hf net. induction net as [| r net IH]; [reflexivity |].
  simpl map. rewrite !totalVehicles_cons, IH, Hf. reflexivity.
Qed.

Lemma mapRoads_total (f : nat -> RoadSystem.Road -> RoadSystem.Road) :
  (forall i r, List.length (RoadSystem.veh (f i r))
               = List.length (RoadSystem.veh r)) ->
  forall net,
    List.length (SimulationLoop.mapRoads f net) = List.length net
    /\ RoadSpec.totalVehicles (SimulationLoop.mapRoads f net)
       = RoadSpec.totalVehicles net.
Proof.
  intros Hf net. unfold SimulationLoop.mapRoads. generalize 0%nat.
  induction net as [| r net IH]; intro k; [split; reflexivity |].
  cbn [List.length seq combine map fst snd].
  destruct (IH (S k)) as [A B].
  rewrite !totalVehicles_cons, B, Hf. simpl List.length. rewrite A.
  split; reflexivity.
Qed.

Lemma updRoad_spawn (i : nat) (f : RoadSystem.Road -> RoadSystem.Road)
  (net : RoadSystem.Network) :
  (forall r, (List.length (RoadSystem.veh (f r))
              <= S (List.length (RoadSystem.veh r)))%nat) ->
  (RoadSpec.totalVehicles (RoadSystem.updRoad i f net)
   <= S (RoadSpec.totalVehicles net))%nat.
Proof.
  intro Hf. destruct (nth_error net i) as [r |] eqn:E.
  - pose proof (totalVehicles_updRoad f net i r E). specialize (Hf r). lia.
  - rewrite (updRoad_out f net i E). lia.
Qed.

Lemma connections_pass (irs : list nat) :
  forall net,
    List.length (fold_left (fun n ir => RoadSystem.processConnections ir n) irs net)
    = List.length net
    /\ RoadSpec.totalVehicles
         (fold_left (fun n ir => RoadSystem.processConnections ir n) irs net)
       = RoadSpec.totalVehicles net.
Proof.
  induction irs as [| ir irs IH]; intro net; [split; reflexivity |].
  cbn [fold_left]. destruct (IH (RoadSystem.processConnections ir net)) as [A B].
  rewrite A, B, processConnections_length, processConnections_total.
  split; reflexivity.
Qed.

(** X21.  One physics step keeps the roads of the network, adds at most
    four vehicles (one per entrance road) and leaves no vehicle farther than
    10 m past the end of its road. *)
Theorem updatePhysics_step (p : SimulationLoop.TurnProbabilities)
  (trajAlt : nat -> list RoadSystem.TrajAlt) (dt : R)
  (d : SimulationLoop.InflowDraws) (net : RoadSystem.Network) :
  let net' := SimulationLoop.updatePhysics p trajAlt dt d net in
  List.length net' = List.length net
  /\ (RoadSpec.totalVehicles net' <= RoadSpec.totalVehicles net + 4)%nat
  /\ Forall
       (fun road =>
          Forall (fun w => Veh.u w <= RoadSystem.roadLen road + 10)
            (RoadSystem.veh road))
       net'.
Proof.
  cbv zeta. unfold SimulationLoop.updatePhysics. cbv zeta.
  set (net1 := map RoadSystem.calcAccelerations net).
  set (net2 := SimulationLoop.updateVehicleInflow p dt d net1).
  set (net3 := fold_left (fun n ir => RoadSystem.processConnections ir n)
                 (seq 0 (List.length net2)) net2).
  set (net4 := SimulationLoop.enforceLaneAssignments trajAlt net3).
  set (net5 := SimulationLoop.mapRoads
                 (fun ir road => RoadSystem.changeLanes (trajAlt ir) road) net4).
  set (net6 := map RoadSystem.updateSpeedPositions net5).
  assert (L1 : List.length net1 = List.length net) by apply length_map.
  assert (T1 : RoadSpec.totalVehicles net1 = RoadSpec.totalVehicles net).
  { apply totalVehicles_map_eq. intro r. apply calcAccelerations_length. }
  assert (L2 : List.length net2 = List.length net1).
  { subst net2. unfold SimulationLoop.updateVehicleInflow. cbv zeta.
    rewrite !length_updRoad. reflexivity. }
  assert (T2 : (RoadSpec.totalVehicles net2 <= RoadSpec.totalVehicles net1 + 4)%nat).
  { subst net2. unfold SimulationLoop.updateVehicleInflow. cbv zeta.
    repeat match goal with
    | |- context [RoadSystem.updRoad ?i ?f ?n] =>
        lazymatch n with
        | context [RoadSystem.updRoad] => fail
        | _ => idtac
        end;
        let H := fresh "H" in
        pose proof (updRoad_spawn i f n
                      (fun r => updateBCup_length _ _ _ _ r)) as H;
        let n' := fresh "n" in set (n' := RoadSystem.updRoad i f n) in *
    end.
    lia. }
  destruct (connections_pass (seq 0 (List.length net2)) net2) as [L3 T3].
  fold net3 in L3, T3.
  destruct (mapRoads_total
              (fun ir road =>
                 RoadSystem.set_veh
                   (map (SimulationLoop.enforceVehicle road (trajAlt ir))
                      (RoadSystem.veh road)) road)
              (fun i r => length_map _ _) net3) as [L4 T4].
  fold (SimulationLoop.enforceLaneAssignments trajAlt net3) in L4, T4.
  fold net4 in L4, T4.
  destruct (mapRoads_total
              (fun ir road => RoadSystem.changeLanes (trajAlt ir) road)
              (fun i r => changeLanes_length (trajAlt i) r)
              net4) as [L5 T5].
  fold net5 in L5, T5.
  assert (L6 : List.length net6 = List.length net5) by apply length_map.
  assert (T6 : (RoadSpec.totalVehicles net6 <= RoadSpec.totalVehicles net5)%nat).
  { apply totalVehicles_map_le. intro r. unfold RoadSystem.updateSpeedPositions.
    cbn [RoadSystem.veh RoadSystem.set_veh].
    eapply Nat.le_trans; [apply filter_length_le |].
    rewrite length_map. apply Nat.le_refl. }
  split; [| split].
  - unfold SimulationLoop.cleanupVehicles. rewrite length_map. congruence.
  - eapply Nat.le_trans.
    + apply totalVehicles_map_le. intro r.
      cbn [RoadSystem.veh RoadSystem.set_veh]. apply filter_length_le.
    + lia.
  - unfold SimulationLoop.cleanupVehicles. apply Forall_forall.
    intros road' Hin. apply in_map_iff in Hin. destruct Hin as [road [<- _]].
    cbn [RoadSystem.veh RoadSystem.roadLen RoadSystem.set_veh].
    apply Forall_forall. intros w Hw. apply filter_In in Hw.
    destruct Hw as [_ Hw]. apply Rleb_true in Hw. exact Hw.
Qed.

End PhysicsStep.

(* ------------------------------------------------------------------ *)
(** ** Further properties: the signal controller *)

Section ControllerMore.
Import Config.
Local Open Scope Q_scope.

Lemma conflictFree_fixedColors (n : nat) :
  LightSpec.conflictFree (TrafficLights.fixedColors n).
Proof.
  unfold LightSpec.conflictFree.
  destruct n as [| [| [| [| [| n]]]]]; simpl; auto.
Qed.

Lemma conflictFree_setAdaptiveLightState (c : TrafficLights.Controller) :
  LightSpec.conflictFree
    (TrafficLights.getLightStates (TrafficLights.setAdaptiveLightState c)).
Proof.
  unfold TrafficLights.setAdaptiveLightState.
  change (TrafficLights.adaptiveState (TrafficLights.setAllLightsRed c))
    with (TrafficLights.adaptiveState c).
  unfold LightSpec.conflictFree.
  destruct (TrafficLights.Adaptive.currentPair (TrafficLights.adaptiveState c))
    as [[|] |]; simpl; auto.
Qed.

Lemma conflictFree_setAllLightsRed (c : TrafficLights.Controller) :
  LightSpec.conflictFree
    (TrafficLights.getLightStates (TrafficLights.setAllLightsRed c)).
Proof. unfold LightSpec.conflictFree. simpl. auto. Qed.

Lemma conflictFree_updateFixedMode (dt : Q) (c : TrafficLights.Controller) :
  LightSpec.conflictFree (TrafficLights.getLightStates c) ->
  LightSpec.conflictFree
    (TrafficLights.getLightStates (TrafficLights.updateFixedMode dt c)).
Proof.
  intro H. unfold TrafficLights.updateFixedMode. cbv zeta.
  cbn [TrafficLights.fixedState TrafficLights.set_fixedState
       TrafficLights.Fixed.currentPhase TrafficLights.Fixed.phaseTimer
       TrafficLights.settings].
  destruct (TrafficLights.Fixed.currentPhase (TrafficLights.fixedState c))
    as [| [| [| [| [| [| n]]]]]]; try exact H;
    match goal with
    | |- context [if ?b then _ else _] => destruct b
    end; try exact H;
    unfold TrafficLights.advanceFixedPhase; rewrite setFixedLightState_colors;
    apply conflictFree_fixedColors.
Qed.

Lemma conflictFree_updateAdaptiveMode (dt now : Q) (c : TrafficLights.Controller) :
  LightSpec.conflictFree (TrafficLights.getLightStates c) ->
  LightSpec.conflictFree
    (TrafficLights.getLightStates (TrafficLights.updateAdaptiveMode dt now c)).
Proof.
  intro H. unfold TrafficLights.updateAdaptiveMode. cbv zeta.
  set (c1 := TrafficLights.set_adaptiveState _ c).
  assert (H1 : LightSpec.conflictFree (TrafficLights.getLightStates c1)) by exact H.
  clearbody c1.
  destruct (TrafficLights.Adaptive.currentPair (TrafficLights.adaptiveState c1))
    as [p |].
  - destruct (TrafficLights.Adaptive.currentPhase (TrafficLights.adaptiveState c1)).
    + (* red *)
      destruct (Qgeb _ 2000); [| exact H1].
      destruct (TrafficLights.getHighestPriorityPair c1) as [q |]; [| exact H1].
      destruct (negb (TrafficLights.Pair_eqb q p));
        apply conflictFree_setAdaptiveLightState.
    + (* yellow *)
      destruct (Qgeb _ _); [| exact H1].
      apply conflictFree_setAllLightsRed.
    + (* green *)
      destruct (TrafficLights.shouldSwitchInAdaptive c1); [| exact H1].
      apply conflictFree_setAdaptiveLightState.
  - destruct (TrafficLights.getHighestPriorityPair c1) as [q |]; [| exact H1].
    destruct (Qgtb _ 0); [| exact H1].
    apply conflictFree_setAdaptiveLightState.
Qed.

Lemma conflictFree_update (dt : Q) (m : Mode) (s : Settings) (now : Q)
  (c : TrafficLights.Controller) :
  LightSpec.conflictFree (TrafficLights.getLightStates c) ->
  LightSpec.conflictFree
    (TrafficLights.getLightStates (TrafficLights.update dt m s now c)).
Proof.
  intro H. unfold TrafficLights.update. cbv zeta. destruct m.
  - apply conflictFree_updateFixedMode.
    destruct (TrafficLights.Fixed.isActive _); [exact H |].
    unfold TrafficLights.initializeFixedMode.
    rewrite setFixedLightState_colors. apply conflictFree_fixedColors.
  - apply conflictFree_updateAdaptiveMode.
    destruct (TrafficLights.Adaptive.isActive _); [exact H |].
    apply conflictFree_setAllLightsRed.
Qed.

Lemma conflictFree_updateAdaptiveLogic (sd : perDir Sensor.SensorDatum)
  (c : TrafficLights.Controller) :
  LightSpec.conflictFree (TrafficLights.getLightStates c) ->
  LightSpec.conflictFree
    (TrafficLights.getLightStates (TrafficLights.updateAdaptiveLogic sd c)).
Proof.
  intro H. unfold TrafficLights.updateAdaptiveLogic.
  destruct (TrafficLights.mode c); [exact H |].
  destruct (TrafficLights.Adaptive.isActive _); exact H.
Qed.

(** X22.  The controller never opens two crossing approaches together:
    starting from light states in which north and south agree, east and
    west agree and one of the two pairs is red, every entry point of the
    controller ([update] in either mode, [updateAdaptiveLogic], [setMode],
    [reset]) and every run of engine ticks leaves such light states. *)
Theorem lights_never_conflict (c : TrafficLights.Controller) :
  LightSpec.conflictFree (TrafficLights.getLightStates c) ->
  (forall dt m s now,
      LightSpec.conflictFree
        (TrafficLights.getLightStates (TrafficLights.update dt m s now c)))
  /\ (forall sd,
        LightSpec.conflictFree
          (TrafficLights.getLightStates (TrafficLights.updateAdaptiveLogic sd c)))
  /\ (forall m,
        LightSpec.conflictFree
          (TrafficLights.getLightStates (TrafficLights.setMode m c)))
  /\ LightSpec.conflictFree
       (TrafficLights.getLightStates (TrafficLights.reset c))
  /\ (forall ticks,
        LightSpec.conflictFree
          (TrafficLights.getLightStates (TrafficLights.runAdaptive ticks c))).
Proof.
  intro H. split; [| split; [| split; [| split]]].
  - intros dt m s now. apply conflictFree_update. exact H.
  - intro sd. apply conflictFree_updateAdaptiveLogic. exact H.
  - intro m. unfold TrafficLights.setMode. cbv zeta. destruct m.
    + destruct (negb (TrafficLights.Fixed.isActive _)); [| exact H].
      unfold TrafficLights.initializeFixedMode.
      rewrite setFixedLightState_colors. apply conflictFree_fixedColors.
    + destruct (negb (TrafficLights.Adaptive.isActive _)); [| exact H].
      apply conflictFree_setAllLightsRed.
  - unfold TrafficLights.reset. destruct (TrafficLights.mode c).
    + unfold TrafficLights.initializeFixedMode.
      rewrite setFixedLightState_colors. apply conflictFree_fixedColors.
    + apply conflictFree_setAllLightsRed.
  - intro ticks. revert c H. unfold TrafficLights.runAdaptive.
    induction ticks as [| t ticks IH]; intros c H; [exact H |].
    cbn [fold_left]. apply IH. unfold TrafficLights.adaptiveTick.
    apply conflictFree_updateAdaptiveLogic. apply conflictFree_update. exact H.
Qed.

(** The controller as constructed: all red. *)
Lemma lights_never_conflict_witness :
  LightSpec.conflictFree
    (TrafficLights.getLightStates
       (TrafficLights.update 16 adaptive DEFAULT_SETTINGS 0 TrafficLights.new)).
Proof.
  destruct (lights_never_conflict TrafficLights.new) as [H _].
  - unfold LightSpec.conflictFree. simpl. auto.
  - apply H.
Defined.

Lemma inFixedCycle_updateFixedMode (dt : Q) (c : TrafficLights.Controller) :
  LightSpec.inFixedCycle c ->
  LightSpec.inFixedCycle (TrafficLights.updateFixedMode dt c).
Proof.
  intros [Ha [Hp Hl]].
  assert (HD : exists D,
             TrafficLights.requiredDuration (TrafficLights.settings c)
               (TrafficLights.Fixed.currentPhase (TrafficLights.fixedState c))
             = Some D).
  { destruct (TrafficLights.Fixed.currentPhase (TrafficLights.fixedState c))
      as [| [| [| [| [| [| n]]]]]]; simpl; try (eexists; reflexivity). lia. }
  destruct HD as [D HD].
  destruct (updateFixedMode_step dt D c HD) as [_ [Hfire Hhold]].
  assert (Hact : TrafficLights.Fixed.isActive
                   (TrafficLights.fixedState (TrafficLights.updateFixedMode dt c))
                 = true).
  { unfold TrafficLights.updateFixedMode. cbv zeta.
    cbn [TrafficLights.fixedState TrafficLights.set_fixedState
         TrafficLights.Fixed.currentPhase TrafficLights.Fixed.phaseTimer
         TrafficLights.settings].
    destruct (TrafficLights.Fixed.currentPhase (TrafficLights.fixedState c))
      as [| [| [| [| [| [| n]]]]]]; try exact Ha;
      match goal with
      | |- context [if ?b then _ else _] => destruct b
      end; try exact Ha;
      unfold TrafficLights.advanceFixedPhase, TrafficLights.setFixedLightState;
      cbn; exact Ha. }
  unfold LightSpec.inFixedCycle. split; [exact Hact |].
  destruct (Qle_bool D
              (TrafficLights.Fixed.phaseTimer (TrafficLights.fixedState c) + dt))
    eqn:E.
  - destruct (Hfire eq_refl) as [Hp' [_ Hl']]. rewrite Hp', Hl'.
    split; [apply Nat.mod_upper_bound; discriminate | reflexivity].
  - destruct (Hhold eq_refl) as [Hp' [_ Hl']]. rewrite Hp'.
    split; [exact Hp |].
    unfold TrafficLights.getLightStates. rewrite Hl'. exact Hl.
Qed.

(** X23.  In fixed mode the lights always show the colours of the current
    phase: after initialisation and any run of updates, whatever the
    settings and the time steps, the phase index is one of 0..5 and the four
    light states are those of the phase table. *)
Theorem fixed_lights_follow_phase (s : Settings) (deltas : list Q) :
  let c := TrafficLights.runFixed deltas
             (TrafficLights.initialize fixed s TrafficLights.new) in
  (TrafficLights.Fixed.currentPhase (TrafficLights.fixedState c) < 6)%nat
  /\ TrafficLights.getLightStates c
     = TrafficLights.fixedColors
         (TrafficLights.Fixed.currentPhase (TrafficLights.fixedState c)).
Proof.
  cbv zeta.
  assert (H0 : LightSpec.inFixedCycle
                 (TrafficLights.initialize fixed s TrafficLights.new)).
  { unfold LightSpec.inFixedCycle. simpl. repeat split. lia. }
  revert H0. generalize (TrafficLights.initialize fixed s TrafficLights.new).
  unfold TrafficLights.runFixed.
  induction deltas as [| dt rest IH]; intros c H.
  - destruct H as [_ [Hp Hl]]. split; assumption.
  - cbn [fold_left]. apply IH. apply inFixedCycle_updateFixedMode. exact H.
Qed.

(** The pair returned by [getHighestPriorityPair]: the one with the
    strictly larger, positive score. *)
Lemma getHighestPriorityPair_winner (c : TrafficLights.Controller)
  (p : TrafficLights.Pair) :
  let sc := TrafficLights.Adaptive.priorityScores (TrafficLights.adaptiveState c) in
  TrafficLights.score (TrafficLights.otherPair p) sc < TrafficLights.score p sc ->
  0 < TrafficLights.score p sc ->
  TrafficLights.getHighestPriorityPair c = Some p.
Proof.
  cbv zeta. intros Hlt Hpos. unfold TrafficLights.getHighestPriorityPair. cbv zeta.
  set (we := TrafficLights.orZero _). set (ns := TrafficLights.orZero _).
  assert (Ewe : we == TrafficLights.scoreWE
                        (TrafficLights.Adaptive.priorityScores
                           (TrafficLights.adaptiveState c)))
    by (subst we; apply orZero_eq).
  assert (Ens : ns == TrafficLights.scoreNS
                        (TrafficLights.Adaptive.priorityScores
                           (TrafficLights.adaptiveState c)))
    by (subst ns; apply orZero_eq).
  destruct p; simpl in Hlt, Hpos.
  - assert (E1 : Qgtb we ns = true) by (apply Qgtb_true; rewrite Ewe, Ens; exact Hlt).
    assert (E2 : Qgtb we 0 = true) by (apply Qgtb_true; rewrite Ewe; exact Hpos).
    rewrite E1, E2. reflexivity.
  - assert (E1 : Qgtb we ns = false).
    { apply Qgtb_false. rewrite Ewe, Ens. apply Qlt_le_weak. exact Hlt. }
    assert (E2 : Qgtb ns we = true) by (apply Qgtb_true; rewrite Ewe, Ens; exact Hlt).
    assert (E3 : Qgtb ns 0 = true) by (apply Qgtb_true; rewrite Ens; exact Hpos).
    rewrite E1, E2, E3. reflexivity.
Qed.

(** The state and the lights after [switchToAdaptivePair]. *)
Lemma switchToAdaptivePair_state (q : TrafficLights.Pair)
  (c : TrafficLights.Controller) :
  let c' := TrafficLights.switchToAdaptivePair q c in
  TrafficLights.Adaptive.currentPair (TrafficLights.adaptiveState c') = Some q
  /\ TrafficLights.Adaptive.currentPhase (TrafficLights.adaptiveState c') = green
  /\ TrafficLights.Adaptive.phaseTimer (TrafficLights.adaptiveState c') = 0
  /\ (forall d,
        get d (TrafficLights.getLightStates c')
        = if TrafficLights.inPair q d then green else red).
Proof.
  cbv zeta. unfold TrafficLights.switchToAdaptivePair, TrafficLights.startAdaptiveGreen.
  cbv zeta. rewrite setAdaptiveLightState_state.
  split; [reflexivity |]. split; [reflexivity |]. split; [reflexivity |].
  intro d. rewrite (setAdaptiveLightState_colors _ q d) by reflexivity.
  reflexivity.
Qed.

(** X24.  The idle adaptive controller (no active pair) waits for a strict
    winner: when one pair has a positive score strictly above the other's,
    an update makes it the active pair, green with timer 0, its two
    approaches green and the others red; when the two scores are equal
    (even with vehicles detected on both) the update only advances the
    timer. *)
Theorem adaptive_idle_trigger (dt now : Q) (c : TrafficLights.Controller) :
  TrafficLights.Adaptive.currentPair (TrafficLights.adaptiveState c) = None ->
  let st := TrafficLights.adaptiveState c in
  let sc := TrafficLights.Adaptive.priorityScores st in
  let c' := TrafficLights.updateAdaptiveMode dt now c in
  (forall p,
      TrafficLights.score (TrafficLights.otherPair p) sc < TrafficLights.score p sc ->
      0 < TrafficLights.score p sc ->
      TrafficLights.Adaptive.currentPair (TrafficLights.adaptiveState c') = Some p
      /\ TrafficLights.Adaptive.currentPhase (TrafficLights.adaptiveState c') = green
      /\ TrafficLights.Adaptive.phaseTimer (TrafficLights.adaptiveState c') = 0
      /\ (forall d,
            get d (TrafficLights.getLightStates c')
            = if TrafficLights.inPair p d then green else red))
  /\ (TrafficLights.scoreWE sc == TrafficLights.scoreNS sc ->
      TrafficLights.lights c' = TrafficLights.lights c
      /\ TrafficLights.adaptiveState c'
         = TrafficLights.set_phase (TrafficLights.Adaptive.currentPhase st)
             (TrafficLights.Adaptive.phaseTimer st + dt) st).
Proof.
  intro Hnone. cbv zeta. unfold TrafficLights.updateAdaptiveMode. cbv zeta.
  set (c1 := TrafficLights.set_adaptiveState _ c).
  assert (Hp1 : TrafficLights.Adaptive.currentPair (TrafficLights.adaptiveState c1)
                = None) by exact Hnone.
  rewrite Hp1. split.
  - intros p Hlt Hpos.
    rewrite (getHighestPriorityPair_winner c1 p Hlt Hpos).
    assert (E : Qgtb (TrafficLights.score p
                        (TrafficLights.Adaptive.priorityScores
                           (TrafficLights.adaptiveState c1))) 0 = true)
      by (apply Qgtb_true; exact Hpos).
    rewrite E. apply switchToAdaptivePair_state.
  - intro Htie.
    rewrite (getHighestPriorityPair_tie c1 Htie). split; reflexivity.
Qed.

(** Two cars on the east approach, none elsewhere. *)
Lemma adaptive_idle_trigger_witness :
  let c := TrafficLights.updateAdaptiveLogic (Sample.detected 0 0 2 0)
             (TrafficLights.initialize adaptive DEFAULT_SETTINGS
                TrafficLights.new) in
  TrafficLights.Adaptive.currentPair
    (TrafficLights.adaptiveState (TrafficLights.updateAdaptiveMode 16 0 c))
  = Some TrafficLights.WE.
Proof.
  cbv zeta.
  destruct (adaptive_idle_trigger 16 0
              (TrafficLights.updateAdaptiveLogic (Sample.detected 0 0 2 0)
                 (TrafficLights.initialize adaptive DEFAULT_SETTINGS
                    TrafficLights.new))
              eq_refl) as [H _].
  destruct (H TrafficLights.WE) as [E _].
  - vm_compute. reflexivity.
  - vm_compute. reflexivity.
  - exact E.
Defined.

(** X25.  The clearance of the adaptive cycle.  With an active pair in
    yellow, an update that brings the timer to [YELLOW_DURATION] turns all
    four lights red, starts the red sub-phase with timer 0 and records the
    time of the switch; in red, once the timer has reached 2000 ms, a pair
    with a positive score strictly above the other's becomes (or stays) the
    active pair and turns green, the other approaches staying red; before
    the respective duration the update only advances the timer. *)
Theorem adaptive_clearance (dt now : Q) (c : TrafficLights.Controller)
  (p : TrafficLights.Pair) :
  TrafficLights.Adaptive.currentPair (TrafficLights.adaptiveState c) = Some p ->
  let st := TrafficLights.adaptiveState c in
  let sc := TrafficLights.Adaptive.priorityScores st in
  let t := TrafficLights.Adaptive.phaseTimer st + dt in
  let c' := TrafficLights.updateAdaptiveMode dt now c in
  (TrafficLights.Adaptive.currentPhase st = yellow ->
     (YELLOW_DURATION (TrafficLights.settings c) <= t ->
        TrafficLights.adaptiveState c'
        = TrafficLights.Adaptive.mkState (Some p) red 0
            (TrafficLights.Adaptive.isActive st) sc now
            (TrafficLights.Adaptive.firstCarTriggered st)
        /\ TrafficLights.getLightStates c' = constPerDir red)
     /\ (t < YELLOW_DURATION (TrafficLights.settings c) ->
         TrafficLights.lights c' = TrafficLights.lights c
         /\ TrafficLights.adaptiveState c' = TrafficLights.set_phase yellow t st))
  /\ (TrafficLights.Adaptive.currentPhase st = red ->
      (2000 <= t ->
       forall q,
         TrafficLights.score (TrafficLights.otherPair q) sc < TrafficLights.score q sc ->
         0 < TrafficLights.score q sc ->
         TrafficLights.Adaptive.currentPair (TrafficLights.adaptiveState c') = Some q
         /\ TrafficLights.Adaptive.currentPhase (TrafficLights.adaptiveState c') = green
         /\ TrafficLights.Adaptive.phaseTimer (TrafficLights.adaptiveState c') = 0
         /\ (forall d,
               get d (TrafficLights.getLightStates c')
               = if TrafficLights.inPair q d then green else red))
      /\ (t < 2000 ->
          TrafficLights.lights c' = TrafficLights.lights c
          /\ TrafficLights.adaptiveState c' = TrafficLights.set_phase red t st)).
Proof.
  intro Hp. cbv zeta. unfold TrafficLights.updateAdaptiveMode. cbv zeta.
  set (c1 := TrafficLights.set_adaptiveState _ c).
  assert (Hp1 : TrafficLights.Adaptive.currentPair (TrafficLights.adaptiveState c1)
                = Some p) by exact Hp.
  rewrite Hp1.
  change (TrafficLights.Adaptive.currentPhase (TrafficLights.adaptiveState c1))
    with (TrafficLights.Adaptive.currentPhase (TrafficLights.adaptiveState c)).
  change (TrafficLights.Adaptive.phaseTimer (TrafficLights.adaptiveState c1))
    with (TrafficLights.Adaptive.phaseTimer (TrafficLights.adaptiveState c) + dt).
  change (TrafficLights.settings c1) with (TrafficLights.settings c).
  split.
  - intro Hy. rewrite Hy. split.
    + intro Hge. apply Qgeb_true in Hge. rewrite Hge.
      unfold TrafficLights.startAdaptiveRed. cbv zeta. split; [| reflexivity].
      change (TrafficLights.adaptiveState (TrafficLights.setAllLightsRed ?x))
        with (TrafficLights.adaptiveState x).
      cbn [TrafficLights.adaptiveState TrafficLights.set_adaptiveState c1
           TrafficLights.set_phase TrafficLights.Adaptive.currentPair
           TrafficLights.Adaptive.isActive TrafficLights.Adaptive.priorityScores
           TrafficLights.Adaptive.firstCarTriggered].
      rewrite Hp. reflexivity.
    + intro Hlt.
      assert (E : Qgeb (TrafficLights.Adaptive.phaseTimer
                          (TrafficLights.adaptiveState c) + dt)
                       (YELLOW_DURATION (TrafficLights.settings c)) = false).
      { destruct (Qgeb _ _) eqn:E; [| reflexivity].
        apply Qgeb_true in E. exfalso. exact (Qlt_not_le _ _ Hlt E). }
      rewrite E. subst c1. cbn. rewrite Hy. split; reflexivity.
  - intro Hr. rewrite Hr. split.
    + intros Hge q Hlt Hpos. apply Qgeb_true in Hge. rewrite Hge.
      rewrite (getHighestPriorityPair_winner c1 q Hlt Hpos).
      destruct (negb (TrafficLights.Pair_eqb q p)) eqn:Eq.
      * apply switchToAdaptivePair_state.
      * assert (Eqp : q = p).
        { apply negb_false_iff in Eq. destruct q, p; try reflexivity; discriminate Eq. }
        subst q.
        unfold TrafficLights.startAdaptiveGreen.
        rewrite setAdaptiveLightState_state.
        split; [exact Hp1 |]. split; [reflexivity |]. split; [reflexivity |].
        intro d.
        rewrite (setAdaptiveLightState_colors _ p d) by exact Hp1.
        reflexivity.
    + intro Hlt.
      assert (E : Qgeb (TrafficLights.Adaptive.phaseTimer
                          (TrafficLights.adaptiveState c) + dt) 2000 = false).
      { destruct (Qgeb _ _) eqn:E; [| reflexivity].
        apply Qgeb_true in E. exfalso. exact (Qlt_not_le _ _ Hlt E). }
      rewrite E. subst c1. cbn. rewrite Hr. split; reflexivity.
Qed.

(** The pair NS in its clearance, two cars detected on the east approach,
    2 s later. *)
Lemma adaptive_clearance_witness :
  let c := TrafficLights.updateAdaptiveLogic (Sample.detected 0 0 2 0)
             Sample.nsClearance in
  TrafficLights.Adaptive.currentPair
    (TrafficLights.adaptiveState (TrafficLights.updateAdaptiveMode 2000 0 c))
  = Some TrafficLights.WE.
Proof.
  cbv zeta.
  destruct (adaptive_clearance 2000 0
              (TrafficLights.updateAdaptiveLogic (Sample.detected 0 0 2 0)
                 Sample.nsClearance)
              TrafficLights.NS eq_refl) as [_ H].
  destruct (H eq_refl) as [H1 _].
  destruct (H1 ltac:(vm_compute; discriminate) TrafficLights.WE) as [E _].
  - vm_compute. reflexivity.
  - vm_compute. reflexivity.
  - exact E.
Defined.

End ControllerMore.

(* ------------------------------------------------------------------ *)
(** ** Further properties: the sensors *)

Section DetectionMore.
Import Config SensorSpec.
Local Open Scope Q_scope.

Lemma processCars_no_lights (now : Q) (cars : list Sensor.Car) :
  forall s, Sensor.processCars None now s cars = (s, cars).
Proof.
  induction cars as [| car rest IH]; intro s; [reflexivity |].
  cbn [Sensor.processCars Sensor.processCar]. rewrite IH. reflexivity.
Qed.

Lemma setWaitTimes_waitingCars (s : Sensor.SensorSystem) :
  Sensor.waitingCars (Sensor.setWaitTimes s) = Sensor.waitingCars s.
Proof.
  unfold Sensor.setWaitTimes, DIRECTIONS. cbn [fold_left].
  repeat match goal with
         | |- context [match ?x with Some _ => _ | None => _ end] => destruct x
         end; reflexivity.
Qed.

(** X26.  Called without light states (the call of the engine in fixed
    mode), [update] reports nothing: the cars are not touched, every
    direction has no waiting car, no wait time, no detected car and no
    tracked car, and the cumulative counters keep their values unless the
    manual reset was requested, which zeroes them. *)
Theorem update_without_lights (cars : list Sensor.Car)
  (prevLightStates : option (perDir Color)) (now : Q) (s : Sensor.SensorSystem) :
  let r := Sensor.update cars None prevLightStates now s in
  snd (fst r) = cars
  /\ snd r = Sensor.sensorData (fst (fst r))
  /\ (forall d,
        get d (snd r)
        = Sensor.mkDatum 0 0 [] None
            (Sensor.totalCarsDetected (get d (Sensor.sensorData s))))
  /\ (forall d, get d (Sensor.waitingCars (fst (fst r))) = None)
  /\ Sensor.totals (fst (fst r))
     = (if Sensor.shouldResetCounts s then constPerDir 0%nat else Sensor.totals s).
Proof.
  cbv zeta. unfold Sensor.update. rewrite processCars_no_lights.
  cbn [fst snd].
  set (s1 := Sensor.afterResets None prevLightStates s).
  assert (E1 : s1 = Sensor.manualReset (Sensor.clearDetection s)).
  { subst s1. unfold Sensor.afterResets. destruct prevLightStates; reflexivity. }
  assert (W1 : forall d, get d (Sensor.waitingCars s1) = None).
  { intro d. rewrite E1.
    destruct (manualReset_state (Sensor.clearDetection s) d) as [_ [_ [W _]]].
    rewrite W. exact (proj1 (proj2 (proj2 (proj2 (clearDetection_state s d))))). }
  assert (D1 : forall d,
             get d (Sensor.sensorData s1)
             = Sensor.mkDatum 0 0 [] None
                 (Sensor.totalCarsDetected (get d (Sensor.sensorData s)))).
  { intro d. rewrite E1.
    destruct (manualReset_state (Sensor.clearDetection s) d) as [_ [D _]].
    rewrite D. exact (proj2 (proj2 (proj2 (proj2 (clearDetection_state s d))))). }
  split; [reflexivity |]. split; [reflexivity |]. split; [| split].
  - intro d. rewrite (setWaitTimes_untracked s1 d (W1 d)). apply D1.
  - intro d. rewrite setWaitTimes_waitingCars. apply W1.
  - rewrite setWaitTimes_totals, E1. unfold Sensor.manualReset.
    replace (Sensor.shouldResetCounts (Sensor.clearDetection s))
      with (Sensor.shouldResetCounts s) by reflexivity.
    destruct (Sensor.shouldResetCounts s); reflexivity.
Qed.

(** X27.  The flag [_countedInDetector] follows the zone: after a car has
    been visited under a red light of its approach, its flag says whether
    it is in the detection zone; the visit moves nothing else of the car,
    and a later visit of the car where it stands adds nothing to any
    counter, whatever happened to the counters in between (a reset by a
    light change included). *)
Theorem car_counted_once (ls : perDir Color) (now : Q) (s : Sensor.SensorSystem)
  (car : Sensor.Car) :
  get (Sensor.getDirection car) ls = red ->
  let car1 := snd (Sensor.processCar (Some ls) now s car) in
  car1 = Sensor.set_countedInDetector
           (Sensor.isCarInDetectionZone car
              (Sensor.getDetectionZone s (Sensor.getDirection car)))
           car
  /\ (forall ls' now' s' d,
        sameGeometry s s' ->
        get d (Sensor.totals (fst (Sensor.processCar (Some ls') now' s' car1)))
        = get d (Sensor.totals s')).
Proof.
  intro Hred. cbv zeta.
  assert (E1 : snd (Sensor.processCar (Some ls) now s car)
               = Sensor.set_countedInDetector
                   (Sensor.isCarInDetectionZone car
                      (Sensor.getDetectionZone s (Sensor.getDirection car)))
                   car).
  { unfold Sensor.processCar. rewrite Hred. cbn [Color_eqb]. cbv zeta.
    set (inZone := Sensor.isCarInDetectionZone car _).
    unfold Sensor.countIfNew, Sensor.uncountIfLeft.
    destruct car as [i dir cx cy st tw flag].
    destruct flag, inZone; reflexivity. }
  split; [exact E1 |].
  intros ls' now' s' d HG. rewrite processCar_totals, E1.
  assert (En : newlyCounted s' ls' d
                 (Sensor.set_countedInDetector
                    (Sensor.isCarInDetectionZone car
                       (Sensor.getDetectionZone s (Sensor.getDirection car)))
                    car) = false).
  { unfold newlyCounted.
    change (Sensor.isCarInDetectionZone (Sensor.set_countedInDetector ?b car) ?z)
      with (Sensor.isCarInDetectionZone car z).
    change (Sensor.getDirection (Sensor.set_countedInDetector ?b car))
      with (Sensor.getDirection car).
    cbn [Sensor._countedInDetector Sensor.set_countedInDetector].
    destruct (Direction_eqb (Sensor.getDirection car) d) eqn:Ed; [| reflexivity].
    apply Direction_eqb_eq in Ed. subst d.
    rewrite (getDetectionZone_geometry s s' _ HG).
    destruct (Sensor.isCarInDetectionZone car _);
      destruct (Color_eqb _ red); reflexivity. }
  rewrite En. lia.
Qed.

(** A car standing in the north zone under an all-red signal. *)
Lemma car_counted_once_witness :
  snd (Sensor.processCar (Some Sample.allRed) 0 (Sensor.new 600 600)
         (Sample.northCar 1 400))
  = Sensor.set_countedInDetector
      (Sensor.isCarInDetectionZone (Sample.northCar 1 400)
         (Sensor.getDetectionZone (Sensor.new 600 600) north))
      (Sample.northCar 1 400).
Proof.
  destruct (car_counted_once Sample.allRed 0 (Sensor.new 600 600)
              (Sample.northCar 1 400) eq_refl) as [H _].
  exact H.
Defined.

End DetectionMore.

(* ------------------------------------------------------------------ *)
(** ** Further properties: the frame loop *)

Section FrameLoop.
Import Config.
Local Open Scope Q_scope.

Variable W : Type.
Variable updatePhysics : nat -> W -> W.

(** The physics loop leaves the other fields of the clock alone. *)
Lemma physicsLoop_clock (left : nat) :
  forall (n : nat) (k : GameLoop.Clock) (w : W),
    let k' := fst (GameLoop.physicsLoop updatePhysics left n k w) in
    GameLoop.physicsDt k' = GameLoop.physicsDt k
    /\ GameLoop.lastTimestamp k' = GameLoop.lastTimestamp k
    /\ GameLoop.maxFrameTime k' = GameLoop.maxFrameTime k
    /\ GameLoop.isRunning k' = GameLoop.isRunning k.
Proof.
  induction left as [| left IH]; intros n k w; cbv zeta.
  - simpl. repeat split; reflexivity.
  - cbn [GameLoop.physicsLoop].
    destruct (Qgeb (GameLoop.accumulator k) (GameLoop.physicsDt k)).
    + match goal with
      | |- context [GameLoop.physicsLoop updatePhysics left ?n' ?k1 ?w1] =>
          destruct (IH n' k1 w1) as [A [B [C D]]]
      end.
      cbn [GameLoop.physicsDt GameLoop.lastTimestamp GameLoop.maxFrameTime
           GameLoop.isRunning] in A, B, C, D.
      repeat split; assumption.
    + simpl. repeat split; reflexivity.
Qed.

Lemma min_le (a b : Q) : GameLoop.min a b <= a /\ GameLoop.min a b <= b.
Proof.
  unfold GameLoop.min. destruct (Qle_bool a b) eqn:E.
  - apply Qle_bool_iff in E. split; [apply Qle_refl | exact E].
  - split; [| apply Qle_refl].
    apply Qlt_le_weak. apply Qnot_le_lt. intro H.
    apply Qle_bool_iff in H. congruence.
Qed.

Lemma min_ge (a b c : Q) : c <= a -> c <= b -> c <= GameLoop.min a b.
Proof.
  intros Ha Hb. unfold GameLoop.min. destruct (Qle_bool a b); assumption.
Qed.

(** X28.  A frame of a running loop records the timestamp and keeps the
    physics step, the cap and the running flag.  As constructed (a cap
    [maxFrameTime] of [0.05 s] against a physics step of [3.5/30 s]) the
    loop steps the physics at most once per frame: when the cap is not
    above the physics step and the accumulator starts in
    [[0, physicsDt)], either the accumulated time stays below the step,
    the world and the simulated time are left as they are and the
    accumulator keeps the frame time; or the world is stepped once, the
    simulated time advances by one step and the accumulator gives the step
    back.  Either way the accumulator is again in [[0, physicsDt)] and
    the interpolation factor handed to [render] lies in [[0, 1)]. *)
Theorem gameLoop_step (currentTimestamp : Q) (k : GameLoop.Clock) (w : W) :
  GameLoop.isRunning k = true ->
  let r := GameLoop.gameLoop updatePhysics currentTimestamp k w in
  let k' := fst (fst r) in
  let w' := snd (fst r) in
  let accumulated :=
    GameLoop.accumulator k + GameLoop.frameTime currentTimestamp k in
  GameLoop.lastTimestamp k' = currentTimestamp
  /\ GameLoop.physicsDt k' = GameLoop.physicsDt k
  /\ GameLoop.maxFrameTime k' = GameLoop.maxFrameTime k
  /\ GameLoop.isRunning k' = true
  /\ (GameLoop.lastTimestamp k <= currentTimestamp ->
      0 <= GameLoop.maxFrameTime k ->
      GameLoop.maxFrameTime k / 1000 <= GameLoop.physicsDt k ->
      0 <= GameLoop.accumulator k < GameLoop.physicsDt k ->
      0 <= GameLoop.accumulator k' < GameLoop.physicsDt k
      /\ ((accumulated < GameLoop.physicsDt k
           /\ w' = w
           /\ GameLoop.totalSimulationTime k' = GameLoop.totalSimulationTime k
           /\ GameLoop.accumulator k' = accumulated)
          \/ (GameLoop.physicsDt k <= accumulated
              /\ w' = updatePhysics 0%nat w
              /\ GameLoop.totalSimulationTime k'
                 = GameLoop.totalSimulationTime k + GameLoop.physicsDt k
              /\ GameLoop.accumulator k' = accumulated - GameLoop.physicsDt k))
      /\ exists alpha, snd r = Some alpha /\ 0 <= alpha < 1).
Proof.
  intro Hrun. cbv zeta. unfold GameLoop.gameLoop. rewrite Hrun. cbn [negb].
  cbv zeta.
  set (ft := GameLoop.frameTime currentTimestamp k).
  set (k1 := GameLoop.mkClock _ _ _ _ _ _).
  pose proof (physicsLoop_clock 5 0 k1 w) as HT. cbv zeta in HT.
  destruct HT as [HA [HB [HC HD]]].
  split; [| split; [| split; [| split]]].
  - destruct (GameLoop.physicsLoop updatePhysics 5 0 k1 w) as [k2 w2].
    exact HB.
  - destruct (GameLoop.physicsLoop updatePhysics 5 0 k1 w) as [k2 w2].
    exact HA.
  - destruct (GameLoop.physicsLoop updatePhysics 5 0 k1 w) as [k2 w2].
    exact HC.
  - destruct (GameLoop.physicsLoop updatePhysics 5 0 k1 w) as [k2 w2].
    cbn [fst] in *. rewrite HD. reflexivity.
  - clear HA HB HC HD. intros Hts Hmax Hcap [Hacc0 Hacc1].
    assert (Hft0 : 0 <= ft).
    { subst ft. unfold GameLoop.frameTime. apply min_ge.
      - apply Qle_shift_div_l; [reflexivity |]. rewrite Qmult_0_l.
        apply (Qplus_le_r _ _ (GameLoop.lastTimestamp k)). ring_simplify.
        exact Hts.
      - apply Qle_shift_div_l; [reflexivity |]. rewrite Qmult_0_l. exact Hmax. }
    assert (Hft1 : ft <= GameLoop.physicsDt k).
    { subst ft. unfold GameLoop.frameTime.
      eapply Qle_trans; [apply (proj2 (min_le _ _)) | exact Hcap]. }
    set (dtp := GameLoop.physicsDt k) in *.
    set (a1 := GameLoop.accumulator k + ft).
    assert (Ha1 : 0 <= a1 /\ a1 < dtp + dtp).
    { subst a1. split.
      - apply (Qle_trans _ (0 + 0)); [rewrite Qplus_0_l; apply Qle_refl |].
        apply Qplus_le_compat; assumption.
      - apply Qplus_lt_le_compat; assumption. }
    assert (Hdt : 0 < dtp) by exact (Qle_lt_trans _ _ _ Hacc0 Hacc1).
    cbn [GameLoop.physicsLoop].
    change (GameLoop.accumulator k1) with a1.
    change (GameLoop.physicsDt k1) with dtp.
    destruct (Qgeb a1 dtp) eqn:E1.
    + apply Qgeb_true in E1.
      cbn [GameLoop.accumulator GameLoop.physicsDt GameLoop.totalSimulationTime].
      change (GameLoop.accumulator k1) with a1.
      change (GameLoop.physicsDt k1) with dtp.
      assert (E2 : Qgeb (a1 - dtp) dtp = false).
      { destruct (Qgeb (a1 - dtp) dtp) eqn:E; [| reflexivity].
        apply Qgeb_true in E. exfalso.
        apply (Qlt_not_le _ _ (proj2 Ha1)).
        apply (Qplus_le_r _ _ (- dtp)). ring_simplify.
        setoid_replace (-1 * dtp + a1) with (a1 - dtp) by ring.
        exact E. }
      rewrite E2. cbn [fst snd GameLoop.accumulator GameLoop.physicsDt
                       GameLoop.totalSimulationTime].
      assert (Hlo : 0 <= a1 - dtp).
      { apply (Qplus_le_r _ _ dtp). ring_simplify. exact E1. }
      assert (Hhi : a1 - dtp < dtp).
      { apply Qnot_le_lt. intro H. apply Qgeb_true in H. congruence. }
      split; [split; assumption |]. split.
      * right. split; [exact E1 |]. subst k1. simpl.
        repeat split; reflexivity.
      * eexists. split; [reflexivity |]. split.
        -- apply Qle_shift_div_l; [exact Hdt |]. rewrite Qmult_0_l. exact Hlo.
        -- apply Qlt_shift_div_r; [exact Hdt |]. rewrite Qmult_1_l. exact Hhi.
    + cbn [fst snd]. change (GameLoop.accumulator k1) with a1.
      change (GameLoop.physicsDt k1) with dtp.
      assert (Hhi : a1 < dtp).
      { apply Qnot_le_lt. intro H. apply Qgeb_true in H. congruence. }
      split; [split; [exact (proj1 Ha1) | exact Hhi] |]. split.
      * left. split; [exact Hhi |]. subst k1. simpl.
        repeat split; reflexivity.
      * eexists. split; [reflexivity |]. split.
        -- apply Qle_shift_div_l; [exact Hdt |]. rewrite Qmult_0_l.
           exact (proj1 Ha1).
        -- apply Qlt_shift_div_r; [exact Hdt |]. rewrite Qmult_1_l. exact Hhi.
Qed.

End FrameLoop.

Section FrameLoopExample.
Import Config.
Local Open Scope Q_scope.

(** The loop as constructed and started at 0 ms, first frame at 16 ms, on
    a world that counts its physics steps. *)
Lemma gameLoop_step_witness :
  let k := GameLoop.start 0 GameLoop.new in
  let k' := fst (fst (GameLoop.gameLoop (fun _ (n : nat) => S n) 16 k 0%nat)) in
  GameLoop.lastTimestamp k' = 16
  /\ 0 <= GameLoop.accumulator k' < GameLoop.physicsDt k.
Proof.
  cbv zeta.
  destruct (gameLoop_step nat (fun _ (n : nat) => S n) 16
              (GameLoop.start 0 GameLoop.new) 0%nat eq_refl) as [H1 [_ [_ [_ H3]]]].
  split; [exact H1 |].
  destruct H3 as [H _].
  - vm_compute. discriminate.
  - vm_compute. discriminate.
  - vm_compute. discriminate.
  - split; vm_compute; [discriminate | reflexivity].
  - exact H.
Defined.

End FrameLoopExample.

(* ------------------------------------------------------------------ *)
(** ** Further properties: the route of a car *)

Section CarRoutes.
Import Config.
Local Open Scope R_scope.

(** X29.  A car built without a route (as [CarManager.spawnCar] builds it)
    always gets the straight route of its entrance, whatever turn type the
    constructor draws afterwards: [calculateToDirection] runs before
    [turnType] is assigned and answers the direction the car comes from.
    Given the turn type, the legacy route [from, 'intersection', to] is
    converted to the route of the inflow table for that entrance and
    turn. *)
Theorem spawned_car_goes_straight (direction : Direction) (lane : Z)
  (roadId : option nat) (p : SimulationLoop.TurnProbabilities) (turnChance : R) :
  let car := Cars.new direction None lane roadId p turnChance in
  Cars.route car = Cars.ofRoads (CarSpec.tableRoute direction Cars.STRAIGHT)
  /\ Cars.toDirection car = Some (Cars.dirElem direction)
  /\ (forall t,
        Cars.convertRouteFormat
          [Cars.dirElem direction; Cars.intersectionElem;
           Cars.dirElem (Cars.calculateToDirection direction (Some t))]
        = Cars.ofRoads (CarSpec.tableRoute direction t)).
Proof.
  cbv zeta. split; [| split].
  - destruct direction; reflexivity.
  - reflexivity.
  - intro t. destruct direction, t; reflexivity.
Qed.

(** A draw below [TURN_PROBABILITIES.LEFT] makes the car a left-turner
    with the straight route. *)
Example spawned_left_turner_goes_straight :
  let car := Cars.new east None 0 None SimulationLoop.TURN_PROBABILITIES 0.1 in
  Cars.turnType car = Cars.LEFT
  /\ Cars.route car = Cars.ofRoads [0%nat].
Proof.
  cbv zeta. split; [| reflexivity].
  unfold Cars.new, Cars.calculateTurnType. cbn [Cars.turnType].
  assert (E : Rltb 0.1 (SimulationLoop.LEFT SimulationLoop.TURN_PROBABILITIES)
              = true) by (apply Rltb_true; simpl; lra).
  rewrite E. reflexivity.
Qed.

End CarRoutes.

(* ------------------------------------------------------------------ *)
(** ** Further properties: the statistics *)

Section StatisticsMore.
Import Config.
Local Open Scope Q_scope.

Lemma recordCarCompletion_run (cars : list Sensor.Car) :
  forall s : Statistics.Statistics,
    let s' := fold_left Statistics.recordCarCompletion cars s in
    Statistics.totalCarsPassed s'
    = (Statistics.totalCarsPassed s + List.length cars)%nat
    /\ Statistics.waitTimes s'
       = Statistics.waitTimes s ++ StatisticsSpec.positiveWaits cars
    /\ Statistics.totalWaitTime s'
       = fold_left Qplus (StatisticsSpec.positiveWaits cars)
           (Statistics.totalWaitTime s)
    /\ Statistics.currentCars s' = Statistics.currentCars s.
Proof.
  induction cars as [| car rest IH]; intro s; cbv zeta.
  - simpl. rewrite app_nil_r, Nat.add_0_r. repeat split.
  - cbn [fold_left]. destruct (IH (Statistics.recordCarCompletion s car))
      as [A [B [C D]]].
    rewrite A, B, C, D. clear A B C D.
    unfold Statistics.recordCarCompletion, StatisticsSpec.positiveWaits.
    cbn [map filter List.length].
    destruct (Qgtb (Sensor.getWaitTime car) 0);
      cbn [Statistics.totalCarsPassed Statistics.waitTimes
           Statistics.totalWaitTime Statistics.currentCars fold_left].
    + split; [lia |]. split; [rewrite <- app_assoc; reflexivity |].
      split; reflexivity.
    + split; [lia |]. split; [reflexivity |]. split; reflexivity.
Qed.

(** X30.  After any series of completed cars recorded from a fresh
    [Statistics], [totalCarsPassed] is the number of cars, the recorded
    wait times are those of the cars that waited (wait time above 0), in
    order, and [totalWaitTime] is their sum, added up from 0 in that
    order.  [getStats] averages over the cars that waited only: the
    reported average is [totalWaitTime] divided by their number, not by
    [totalCarsPassed], then by 1000; it is 0 when no car waited. *)
Theorem statistics_after_run (cars : list Sensor.Car) :
  let s := fold_left Statistics.recordCarCompletion cars Statistics.reset in
  let waits := StatisticsSpec.positiveWaits cars in
  Statistics.totalCarsPassed s = List.length cars
  /\ Statistics.statsTotalCarsPassed (Statistics.getStats s) = List.length cars
  /\ Statistics.waitTimes s = waits
  /\ Statistics.totalWaitTime s = StatisticsSpec.sum waits
  /\ (waits <> [] ->
      Statistics.averageWaitTime (Statistics.getStats s)
      = Statistics.totalWaitTime s / inject_Z (Z.of_nat (List.length waits))
        / 1000)
  /\ (waits = [] -> Statistics.averageWaitTime (Statistics.getStats s) == 0).
Proof.
  cbv zeta.
  destruct (recordCarCompletion_run cars Statistics.reset) as [A [B [C _]]].
  simpl in A, B, C.
  split; [exact A |]. split; [exact A |]. split; [exact B |].
  split; [exact C |].
  unfold Statistics.getStats. cbv zeta. cbn [Statistics.averageWaitTime].
  rewrite B, C.
  set (waits := StatisticsSpec.positiveWaits cars) in *.
  split.
  - intro Hne. destruct waits as [| t rest]; [contradiction |].
    reflexivity.
  - intro E. rewrite E. simpl. reflexivity.
Qed.

(** A car that did not wait, then one that waited 16377 ms: two cars
    passed, and the average is taken over the second alone. *)
Lemma statistics_after_run_witness :
  let s := fold_left Statistics.recordCarCompletion
             [Sensor.mkCar 1 north 600 400 Sensor.completed 0 false;
              Sensor.mkCar 2 north 600 400 Sensor.completed 16377 false]
             Statistics.reset in
  Statistics.statsTotalCarsPassed (Statistics.getStats s) = 2%nat
  /\ Statistics.averageWaitTime (Statistics.getStats s) = 16377 / 1 / 1000
  /\ Statistics.averageWaitTime
       (Statistics.getStats
          (fold_left Statistics.recordCarCompletion
             [Sensor.mkCar 1 north 600 400 Sensor.completed 0 false]
             Statistics.reset))
     == 0.
Proof.
  cbv zeta.
  destruct (statistics_after_run
              [Sensor.mkCar 1 north 600 400 Sensor.completed 0 false;
               Sensor.mkCar 2 north 600 400 Sensor.completed 16377 false])
    as [_ [H2 [_ [_ [H5 _]]]]].
  destruct (statistics_after_run
              [Sensor.mkCar 1 north 600 400 Sensor.completed 0 false])
    as [_ [_ [_ [_ [_ H6]]]]].
  split; [exact H2 |]. split.
  - rewrite H5; [reflexivity | discriminate].
  - apply H6. reflexivity.
Defined.

End StatisticsMore.

(* ------------------------------------------------------------------ *)
(** ** Instances of the conditional statements above *)

Section Instances.
Local Open Scope R_scope.

Lemma clamp_range_witness : Utils.clamp 5 0 10 = 5.
Proof.
  destruct (clamp_range 5 0 10) as [_ H].
  destruct (H ltac:(lra)) as [_ H2].
  apply H2. lra.
Defined.

(** The default model 10 m behind a slower leader. *)
Lemma calcAccDet_interaction_witness :
  IDM.calcAccDet (IDM.newDefault 0.5) (Some 10) 10 5 0
  <= Rmax (- IDM.bmax (IDM.newDefault 0.5))
          (IDM.accFree (IDM.newDefault 0.5) 10).
Proof.
  destruct (calcAccDet_interaction (IDM.newDefault 0.5) (Some 10) 10 5 0)
    as [H _].
  apply H. unfold IDM.aeff. simpl. lra.
Defined.

Lemma calcAccLaneChange_bias_witness :
  IDM.calcAccLaneChange (IDM.newDefault 0.5) None 10 10 0 0.1
  <= IDM.calcAccLaneChange (IDM.newDefault 0.5) None 10 10 0 0.3.
Proof.
  destruct (calcAccLaneChange_bias (IDM.newDefault 0.5) None 10 10 0 0.1 0.3)
    as [_ [_ H]].
  apply H; [simpl; lra | lra].
Defined.

Lemma driverfactor_band_witness :
  1 - 0.2 / 2 <= IDM.driverfactor (IDM.newDefault 0.5) <= 1 + 0.2 / 2.
Proof.
  destruct (driverfactor_band 0.5) as [_ H].
  apply (H ltac:(lra) 15 1 2 2 2 0.2). lra.
Defined.

Lemma isSafeGap_100 : IDM.isSafeGap (IDM.newDefault 0.5) 100 10 20 = true.
Proof.
  unfold IDM.isSafeGap, IDM.getSafeDistance. apply Rltb_true. simpl.
  rewrite (Rmax_right (2 + 10 * 1) (2 + 20 * 1)) by lra. lra.
Qed.

(** A gap of 100 m between vehicles at 10 and 20 m/s. *)
Lemma isSafeGap_symmetric_witness :
  IDM.getSafeDistance (IDM.newDefault 0.5) 10 * 1.2 < 100
  /\ IDM.getSafeDistance (IDM.newDefault 0.5) 20 * 1.2 < 100.
Proof.
  destruct (isSafeGap_symmetric (IDM.newDefault 0.5) 100 10 20) as [_ H].
  exact (H isSafeGap_100).
Defined.

(** A car at 100 m with another one at 103 m in the lane. *)
Lemma findLeadingVehicle_nearest_witness :
  match MOBIL.findLeadingVehicle (Sample.car 1 [0%nat] 0 100 10 false)
          [Sample.car 2 [0%nat] 0 103 0 false] with
  | Some leader =>
      In leader [Sample.car 2 [0%nat] 0 103 0 false]
      /\ Veh.id leader <> Veh.id (Sample.car 1 [0%nat] 0 100 10 false)
      /\ Veh.u (Sample.car 1 [0%nat] 0 100 10 false) < Veh.u leader
      /\ (forall other, In other [Sample.car 2 [0%nat] 0 103 0 false] ->
            Veh.id other <> Veh.id (Sample.car 1 [0%nat] 0 100 10 false) ->
            Veh.u (Sample.car 1 [0%nat] 0 100 10 false) < Veh.u other ->
            Veh.u leader <= Veh.u other)
  | None =>
      forall other, In other [Sample.car 2 [0%nat] 0 103 0 false] ->
        Veh.id other = Veh.id (Sample.car 1 [0%nat] 0 100 10 false)
        \/ Veh.u other <= Veh.u (Sample.car 1 [0%nat] 0 100 10 false)
  end.
Proof.
  exact (findLeadingVehicle_nearest (Sample.car 1 [0%nat] 0 100 10 false)
           [Sample.car 2 [0%nat] 0 103 0 false]).
Defined.

End Instances.
